(** * Public-market-equivalent methods: a shallow embedding and its properties

    The development follows the Python sources

      - [common/utils/bisect_helpers.py]   (module [BisectHelpers])
      - [common/utils/transaction_utils.py] (module [TransactionUtils])
      - [common/utils/utils.py]             ([get_unique_values])
      - [common/utils/xirr_utils.py]        (module [XirrsUtils])
      - [pme/utils/pme_utils.py]            (module [PmeUtils])

    Python floats are idealised as exact rationals ([Q]); a float division
    whose divisor is zero raises [ZeroDivisionError], as in Python.  Python
    exceptions are values of [exn] carried by the [result] type. *)

From Stdlib Require Import ZArith QArith Qabs Qround Qpower String Ascii List Bool Lia Lqa.
From Stdlib Require Import Permutation Sorted Morphisms Setoid.
Import ListNotations.

Set Implicit Arguments.
Open Scope Z_scope.

(* ================================================================== *)
(** * Python runtime: exceptions, truthiness, comparisons, [sorted] *)
(* ================================================================== *)

Inductive exn : Type :=
| InvalidState        (* raise Exception("Invalid state: ...") *)
| KeyError
| ValueError
| TypeError
| IndexError
| ZeroDivisionError
| OverflowError
| RuntimeError.

Inductive result (A : Type) : Type :=
| Ok (a : A)
| Raise (e : exn).

Arguments Ok {A} a.
Arguments Raise {A} e.

Definition bind {A B : Type} (m : result A) (k : A -> result B) : result B :=
  match m with
  | Ok a => k a
  | Raise e => Raise e
  end.

Declare Scope py_scope.
Delimit Scope py_scope with py.
Notation "x <- m ;; k" := (bind m (fun x => k))
  (at level 61, m at next level, right associativity) : py_scope.
Notation "' p <- m ;; k" := (bind m (fun p => k))
  (at level 61, p pattern, m at next level, right associativity) : py_scope.
Open Scope py_scope.

(** A list comprehension or a [for] loop whose body may raise: the first
    exception aborts the whole evaluation. *)
Fixpoint mapM {A B : Type} (f : A -> result B) (l : list A) : result (list B) :=
  match l with
  | [] => Ok []
  | x :: l' => y <- f x ;; ys <- mapM f l' ;; Ok (y :: ys)
  end.

Fixpoint foldM {A S : Type} (f : S -> A -> result S) (l : list A) (s : S)
  : result S :=
  match l with
  | [] => Ok s
  | x :: l' => s' <- f s x ;; foldM f l' s'
  end.

Fixpoint filterM {A : Type} (p : A -> result bool) (l : list A)
  : result (list A) :=
  match l with
  | [] => Ok []
  | x :: l' =>
      b <- p x ;; r <- filterM p l' ;; Ok (if b then x :: r else r)
  end.

(** [a[i]] for a non-negative index. *)
Definition getitem {A : Type} (a : list A) (i : nat) : result A :=
  match nth_error a i with
  | Some v => Ok v
  | None => Raise IndexError
  end.

(** Truthiness of a float: [if x:] holds unless [x] is zero. *)
Definition truthy (q : Q) : bool := negb (Qeq_bool q 0).

(** Truthiness of an optional float ([None] is false). *)
Definition truthy_opt (o : option Q) : bool :=
  match o with
  | Some q => truthy q
  | None => false
  end.

(** [x / y] on floats. *)
Definition py_div (x y : Q) : result Q :=
  if Qeq_bool y 0 then Raise ZeroDivisionError else Ok (x / y)%Q.

(** [sum(l)]: a left fold starting at 0. *)
Definition py_sum (l : list Q) : Q := fold_left Qplus l 0%Q.

(** The comparison operators [<] and [==] of a Python type. *)
Class PyOrd (K : Type) : Type := {
  ltb : K -> K -> bool;
  eqb : K -> K -> bool
}.

#[export] Instance PyOrd_Z : PyOrd Z := {| ltb := Z.ltb; eqb := Z.eqb |}.

#[export] Instance PyOrd_string : PyOrd string :=
  {| ltb := String.ltb; eqb := String.eqb |}.

(** [sorted(l, key=f)]: the keys are computed first, then the decorated
    list is sorted with [<] on the keys only.  Python's sort is stable, and
    a stable sort has a single possible outcome; it is written here as an
    insertion sort that places an element before the later elements with an
    equal key. *)
Section Sorting.
Context {K A : Type} `{PyOrd K}.

Fixpoint insert_keyed (kx : K * A) (l : list (K * A)) : list (K * A) :=
  match l with
  | [] => [kx]
  | ky :: l' =>
      if ltb (fst ky) (fst kx) then ky :: insert_keyed kx l' else kx :: l
  end.

Definition sort_keyed (l : list (K * A)) : list (K * A) :=
  fold_right insert_keyed [] l.

Definition py_sorted (key : A -> K) (l : list A) : list A :=
  map snd (sort_keyed (map (fun x => (key x, x)) l)).

Definition py_sortedM (key : A -> result K) (l : list A) : result (list A) :=
  kl <- mapM (fun x => k <- key x ;; Ok (k, x)) l ;;
  Ok (map snd (sort_keyed kl)).
End Sorting.

(** Iteration order of a [set] of strings.  Python leaves it unspecified:
    any enumeration of the distinct elements may be met, so the order is a
    parameter of the model together with the only fact known about it. *)
Class SetOrder : Type := {
  set_iter : list string -> list string;
  set_iter_perm : forall l, Permutation (set_iter l) (nodup string_dec l)
}.

(* ================================================================== *)
(** * [datetime] values and the "%Y-%m-%d" format *)
(* ================================================================== *)

(** A [datetime.datetime] at midnight: only year, month and day are ever
    set by the sources. *)
Record datetime : Type := mkdate { year : Z; month : Z; day : Z }.

Definition datetime_ltb (a b : datetime) : bool :=
  (year a <? year b)
  || ((year a =? year b)
      && ((month a <? month b)
          || ((month a =? month b) && (day a <? day b)))).

Definition datetime_eqb (a b : datetime) : bool :=
  (year a =? year b) && (month a =? month b) && (day a =? day b).

#[export] Instance PyOrd_datetime : PyOrd datetime :=
  {| ltb := datetime_ltb; eqb := datetime_eqb |}.

(** [a <= b] on datetimes. *)
Definition datetime_leb (a b : datetime) : bool := negb (datetime_ltb b a).

Definition is_leap (y : Z) : bool :=
  ((y mod 4 =? 0) && negb (y mod 100 =? 0)) || (y mod 400 =? 0).

Definition days_in_month (y m : Z) : Z :=
  if m =? 2 then (if is_leap y then 29 else 28)
  else if (m =? 4) || (m =? 6) || (m =? 9) || (m =? 11) then 30
  else 31.

Definition days_before_year (y : Z) : Z :=
  let p := y - 1 in p * 365 + p / 4 - p / 100 + p / 400.

Fixpoint days_before_month_aux (y : Z) (n : nat) : Z :=
  match n with
  | O => 0
  | S n' => days_before_month_aux y n' + days_in_month y (Z.of_nat n)
  end.

Definition days_before_month (y m : Z) : Z :=
  days_before_month_aux y (Z.to_nat (m - 1)).

(** [d.toordinal()]: the proleptic Gregorian day number. *)
Definition toordinal (d : datetime) : Z :=
  days_before_year (year d) + days_before_month (year d) (month d) + day d.

(** [(a - b).days] *)
Definition days_between (a b : datetime) : Z := toordinal a - toordinal b.

Definition digit_of (c : ascii) : option Z :=
  let n := Z.of_nat (nat_of_ascii c) in
  if (48 <=? n) && (n <=? 57) then Some (n - 48) else None.

Fixpoint digits_value (acc : Z) (l : list ascii) : option Z :=
  match l with
  | [] => Some acc
  | c :: l' =>
      match digit_of c with
      | Some d => digits_value (acc * 10 + d) l'
      | None => None
      end
  end.

(** Splits at the first ['-']. *)
Fixpoint split_dash (l : list ascii) : list ascii * option (list ascii) :=
  match l with
  | [] => ([], None)
  | c :: l' =>
      if Ascii.eqb c "-"%char then ([], Some l')
      else let '(a, r) := split_dash l' in (c :: a, r)
  end.

(** One or two digits, a two-digit field may start with 0; the day field
    may also be a space followed by one digit. *)
Definition short_field (allow_space : bool) (l : list ascii) : option Z :=
  match l with
  | [c] => digits_value 0 [c]
  | [c1; c2] =>
      if allow_space && Ascii.eqb c1 " "%char then digits_value 0 [c2]
      else digits_value 0 [c1; c2]
  | _ => None
  end.

(** [datetime.datetime.strptime(s, "%Y-%m-%d")]; [None] stands for the
    [ValueError] raised on a string that does not match or names no date. *)
Definition strptime (s : string) : option datetime :=
  match split_dash (list_ascii_of_string s) with
  | (ys, Some r) =>
      match split_dash r with
      | (ms, Some ds) =>
          match (if (length ys =? 4)%nat then digits_value 0 ys else None),
                short_field false ms, short_field true ds with
          | Some y, Some m, Some d =>
              if (1 <=? y) && (1 <=? m) && (m <=? 12)
                 && (1 <=? d) && (d <=? days_in_month y m)
              then Some (mkdate y m d) else None
          | _, _, _ => None
          end
      | _ => None
      end
  | _ => None
  end.

Definition strptimeM (s : string) : result datetime :=
  match strptime s with
  | Some d => Ok d
  | None => Raise ValueError
  end.

Definition digit_char (n : Z) : ascii :=
  ascii_of_nat (Z.to_nat (48 + n mod 10)).

Definition pad2 (n : Z) : list ascii := [digit_char (n / 10); digit_char n].

Definition pad4 (n : Z) : list ascii :=
  [digit_char (n / 1000); digit_char (n / 100); digit_char (n / 10);
   digit_char n].

(** The text ["YYYY-MM-DD"] of a date, for the years up to 9999. *)
Definition format_ymd (d : datetime) : string :=
  string_of_list_ascii
    (pad4 (year d) ++ ["-"%char] ++ pad2 (month d) ++ ["-"%char]
     ++ pad2 (day d)).

(** [datetime.datetime.strftime(d, "%Y-%m-%d")]: Python 2 raises
    [ValueError] for a year before 1900. *)
Definition strftime (d : datetime) : result string :=
  if year d <? 1900 then Raise ValueError else Ok (format_ymd d).

(* ================================================================== *)
(** * [common/utils/bisect_helpers.py] *)
(* ================================================================== *)

Module BisectHelpers.
Section Bisect.
Context {K : Type} `{PyOrd K}.

(** The [while lo < hi] loop of [bisect.bisect_left]; [fuel] bounds the
    number of iterations and [hi - lo] iterations always suffice. *)
Fixpoint bisect_left_loop (fuel : nat) (a : list K) (x : K) (lo hi : nat)
  : result nat :=
  match fuel with
  | O => Ok lo
  | S fuel' =>
      if (lo <? hi)%nat then
        let mid := ((lo + hi) / 2)%nat in
        v <- getitem a mid ;;
        if ltb v x then bisect_left_loop fuel' a x (mid + 1)%nat hi
        else bisect_left_loop fuel' a x lo mid
      else Ok lo
  end.

Definition bisect_left (a : list K) (x : K) : result nat :=
  bisect_left_loop (length a) a x 0%nat (length a).

Fixpoint bisect_right_loop (fuel : nat) (a : list K) (x : K) (lo hi : nat)
  : result nat :=
  match fuel with
  | O => Ok lo
  | S fuel' =>
      if (lo <? hi)%nat then
        let mid := ((lo + hi) / 2)%nat in
        v <- getitem a mid ;;
        if ltb x v then bisect_right_loop fuel' a x lo mid
        else bisect_right_loop fuel' a x (mid + 1)%nat hi
      else Ok lo
  end.

Definition bisect_right (a : list K) (x : K) : result nat :=
  bisect_right_loop (length a) a x 0%nat (length a).

(** In every function below [None] is Python's [None]. *)

Definition index (a : list K) (x : K) : result (option nat) :=
  i <- bisect_left a x ;;
  if negb (i =? length a)%nat then
    v <- getitem a i ;;
    if eqb v x then Ok (Some i) else Ok None
  else Ok None.

Definition find_lt (a : list K) (x : K) : result (option K) :=
  i <- bisect_left a x ;;
  if negb (i =? 0)%nat then v <- getitem a (i - 1) ;; Ok (Some v)
  else Ok None.

Definition find_le (a : list K) (x : K) : result (option K) :=
  i <- bisect_right a x ;;
  if negb (i =? 0)%nat then v <- getitem a (i - 1) ;; Ok (Some v)
  else Ok None.

Definition find_gt (a : list K) (x : K) : result (option K) :=
  i <- bisect_right a x ;;
  if negb (i =? length a)%nat then v <- getitem a i ;; Ok (Some v)
  else Ok None.

Definition find_ge (a : list K) (x : K) : result (option K) :=
  i <- bisect_left a x ;;
  if negb (i =? length a)%nat then v <- getitem a i ;; Ok (Some v)
  else Ok None.

(** The keyed variants search the list of the items' keys and return the
    item itself. *)
Section Keyed.
Context {A : Type}.

Definition find_eq_by_key (a : list A) (x : K) (key : A -> K)
  : result (option A) :=
  let specific_value_list := map key a in
  i <- bisect_left specific_value_list x ;;
  if negb (i =? length a)%nat then
    v <- getitem a i ;;
    if eqb (key v) x then Ok (Some v) else Ok None
  else Ok None.

Definition find_lt_by_key (a : list A) (x : K) (key : A -> K)
  : result (option A) :=
  let specific_value_list := map key a in
  i <- bisect_left specific_value_list x ;;
  if negb (i =? 0)%nat then v <- getitem a (i - 1) ;; Ok (Some v)
  else Ok None.

Definition find_le_by_key (a : list A) (x : K) (key : A -> K)
  : result (option A) :=
  let specific_value_list := map key a in
  i <- bisect_right specific_value_list x ;;
  if negb (i =? 0)%nat then v <- getitem a (i - 1) ;; Ok (Some v)
  else Ok None.

Definition find_gt_by_key (a : list A) (x : K) (key : A -> K)
  : result (option A) :=
  let specific_value_list := map key a in
  i <- bisect_right specific_value_list x ;;
  if negb (i =? length a)%nat then v <- getitem a i ;; Ok (Some v)
  else Ok None.

Definition find_ge_by_key (a : list A) (x : K) (key : A -> K)
  : result (option A) :=
  let specific_value_list := map key a in
  i <- bisect_left specific_value_list x ;;
  if negb (i =? length a)%nat then v <- getitem a i ;; Ok (Some v)
  else Ok None.
End Keyed.
End Bisect.

Section KeyedIndex.
Context {K A : Type} `{PyOrd K}.

(** [index_by_key] compares the item [a[i]] itself with [x], not its key;
    [item_eq] is Python's [==] between an item and a key value. *)
Definition index_by_key (item_eq : A -> K -> bool) (a : list A) (x : K)
  (key : A -> K) : result (option nat) :=
  let specific_value_list := map key a in
  i <- bisect_left specific_value_list x ;;
  if negb (i =? length a)%nat then
    v <- getitem a i ;;
    if item_eq v x then Ok (Some i) else Ok None
  else Ok None.
End KeyedIndex.

(** The slice [a[lo:hi]] for indices within the list; [hi = None] is the
    slice [a[lo:]]. *)
Definition py_slice {A : Type} (a : list A) (lo : nat) (hi : option nat)
  : list A :=
  match hi with
  | Some h => firstn (h - lo) (skipn lo a)
  | None => skipn lo a
  end.

Section Sublist.
Context {A : Type}.

(** [get_sublist] without a secondary value, which is also what its
    recursive call runs; [None] is the early [return []] for a primary
    value that is not found. *)
Definition get_sublist_primary {K : Type} `{PyOrd K} (a : list A)
  (primary_value : K) (primary_value_key : A -> K)
  : result (option (list A)) :=
  (* i) list of primary values *)
  let primary_factor_list := map primary_value_key a in
  (* ii) beginning and ending indices of the sublist *)
  primary_value_left_index <- index primary_factor_list primary_value ;;
  match primary_value_left_index with
  | None => Ok None
  | Some left_index =>
      next_value <- find_gt primary_factor_list primary_value ;;
      primary_value_right_index <-
        match next_value with
        | None => Ok (Some (length a))
        | Some v => index primary_factor_list v
        end ;;
      (* iii) the sublist *)
      Ok (Some (py_slice a left_index primary_value_right_index))
  end.

Definition get_sublist {K1 K2 : Type} `{PyOrd K1} `{PyOrd K2} (a : list A)
  (primary_value : K1) (primary_value_key : A -> K1)
  (secondary : option (K2 * (A -> K2))) : result (list A) :=
  r <- get_sublist_primary a primary_value primary_value_key ;;
  match r with
  | None => Ok []
  | Some sublist_1 =>
      match secondary with
      | None => Ok sublist_1
      | Some (secondary_value, secondary_value_key) =>
          r2 <- get_sublist_primary sublist_1 secondary_value
                  secondary_value_key ;;
          match r2 with
          | None => Ok []
          | Some sublist_2 => Ok sublist_2
          end
      end
  end.
End Sublist.
End BisectHelpers.

(* ================================================================== *)
(** * Data model *)
(* ================================================================== *)

(** A transaction dict.  [txn_value = None] is a null value;
    [transactionTypeId = None] is a dict without that key (the dicts built
    inside [PmeUtils] carry only a date and a value). *)
Record Transaction : Type := mkTransaction {
  txn_date : string;
  txn_value : option Q;
  transactionTypeId : option Z
}.

(** [{date, value}] with a textual date: an aggregated cash flow. *)
Record CashFlow : Type := mkCashFlow { cf_date : string; cf_value : Q }.

(** [{date, value}] with a parsed date. *)
Record DatedFlow : Type := mkDatedFlow { df_date : datetime; df_value : Q }.

(** [{date, balance}] with a textual date: an investment return, or an item
    of a theoretical-investment series. *)
Record BalanceItem : Type := mkBalanceItem { bi_date : string; bi_balance : Q }.

(** [{date, balance}] with a parsed date. *)
Record DatedBalance : Type :=
  mkDatedBalance { db_date : datetime; db_balance : Q }.

(** An item of the list returned by [read_xirrs_timeseries]. *)
Record XirrItem : Type := mkXirrItem {
  xi_date : string;
  xi_balance : option Q;
  xi_xirr : option Q
}.

(** A benchmark value: the date is a [date] or [datetime] object. *)
Record BenchmarkValue : Type :=
  mkBenchmarkValue { bv_date : datetime; bv_value : Q }.

Record BenchmarkReturn : Type := mkBenchmarkReturn {
  br_date : string;
  balance : Q;
  timeWeightedReturn : Q;
  cumulativeTimeWeightedReturn : Q;
  kaplanSchoarMultiple : option Q;
  xirr : option Q;
  dpi : option Q;
  rvpi : option Q;
  tvpi : option Q
}.

Definition set_xirr (b : BenchmarkReturn) (v : option Q) : BenchmarkReturn :=
  mkBenchmarkReturn (br_date b) (balance b) (timeWeightedReturn b)
    (cumulativeTimeWeightedReturn b) (kaplanSchoarMultiple b) v
    (dpi b) (rvpi b) (tvpi b).

Definition set_tvpi (b : BenchmarkReturn) (d r : Q) : BenchmarkReturn :=
  mkBenchmarkReturn (br_date b) (balance b) (timeWeightedReturn b)
    (cumulativeTimeWeightedReturn b) (kaplanSchoarMultiple b) (xirr b)
    (Some d) (Some r) (Some (d + r)%Q).

Definition set_kaplanSchoarMultiple (b : BenchmarkReturn) (v : Q)
  : BenchmarkReturn :=
  mkBenchmarkReturn (br_date b) (balance b) (timeWeightedReturn b)
    (cumulativeTimeWeightedReturn b) (Some v) (xirr b)
    (dpi b) (rvpi b) (tvpi b).

(** Modelled from the spec: [common.model_enums.TransactionTypeEnum] is not
    among the sources; the spec calls the transaction type "an opaque
    comparable identifier", so the two identifiers that [PmeUtils] uses are
    parameters. *)
Class TransactionTypeEnum : Type := {
  Contribution : Z;
  Distribution : Z
}.

(** Float operations that have no exact rational counterpart: [x ** y],
    which raises [OverflowError] when the result is out of range and
    returns 0.0 when it underflows, and [scipy.optimize.brenth], which may
    fail to converge.  Nothing is assumed about either. *)
Class Numerics : Type := {
  fpow : Q -> Q -> result Q;
  brenth : (Q -> result Q) -> Q -> Q -> result Q
}.

Definition Qlt_bool (a b : Q) : bool := negb (Qle_bool b a).

(** [v or 0.0] *)
Definition or_zero (v : option Q) : Q :=
  match v with
  | Some q => if truthy q then q else 0%Q
  | None => 0%Q
  end.

(* ================================================================== *)
(** * [common/utils/transaction_utils.py] *)
(* ================================================================== *)

Module TransactionUtils.
Section Aggregate.
Context {so : SetOrder}.

(** [if transaction_type_id:] holds only for an identifier that is neither
    [None] nor 0: an identifier 0 requests no filter. *)
Definition filter_requested (transaction_type_id : option Z) : option Z :=
  match transaction_type_id with
  | Some t => if t =? 0 then None else Some t
  | None => None
  end.

Definition has_type (transaction_type_id : Z) (x : Transaction)
  : result bool :=
  match transactionTypeId x with
  | Some t => Ok (t =? transaction_type_id)
  | None => Raise KeyError
  end.

Definition group_of (transactions : list Transaction) (transaction_date : string)
  : list (string * option Q) :=
  map (fun txn => (txn_date txn, txn_value txn))
      (filter (fun txn => String.eqb (txn_date txn) transaction_date)
              transactions).

Definition sum_group (group : list (string * option Q)) : option CashFlow :=
  match group with
  | g0 :: _ =>
      Some (mkCashFlow (fst g0) (py_sum (map (fun txn => or_zero (snd txn)) group)))
  | [] => None
  end.

(** The sort key [strptime(x["date"], "%Y-%m-%d")]; subscripting [None]
    raises [TypeError]. *)
Definition summed_key (x : option CashFlow) : result datetime :=
  match x with
  | Some c => strptimeM (cf_date c)
  | None => Raise TypeError
  end.

(** The returned list holds dicts only: a [None] entry would already
    have made the sort key raise. *)
Definition some_flow (x : option CashFlow) : result CashFlow :=
  match x with
  | Some c => Ok c
  | None => Raise TypeError
  end.

Definition aggregate_transactions_by_date
  (transactions : list Transaction) (transaction_type_id : option Z)
  : result (list CashFlow) :=
  (* catch invalid state(s) *)
  _ <- match filter_requested transaction_type_id, transactions with
       | Some _, t0 :: _ =>
           match transactionTypeId t0 with
           | None => Raise InvalidState
           | Some _ => Ok tt
           end
       | _, _ => Ok tt
       end ;;
  transactions <-
    match filter_requested transaction_type_id with
    | Some t => filterM (has_type t) transactions
    | None => Ok transactions
    end ;;
  let transactions_date_sets := set_iter (map txn_date transactions) in
  let grouped_transactions :=
    map (group_of transactions) transactions_date_sets in
  let summed_transactions := map sum_group grouped_transactions in
  sorted_transactions <- py_sortedM summed_key summed_transactions ;;
  mapM some_flow sorted_transactions.
End Aggregate.
End TransactionUtils.

(* ================================================================== *)
(** * [common/utils/utils.py] *)
(* ================================================================== *)

(** The rows of each list are represented by their value at [key]. *)
Definition get_unique_values {so : SetOrder} (list_of_lists : list (list string))
  : list string :=
  let master_list := concat list_of_lists in
  set_iter master_list.

(* ================================================================== *)
(** * [common/utils/xirr_utils.py] *)
(* ================================================================== *)

(** An actual argument of a call to [read_xirrs_timeseries]. *)
Inductive pyval : Type :=
| PyNone
| PyBalances (l : list BalanceItem)
| PyTransactions (l : list Transaction).

Module XirrsUtils.
Section Xirr.
Context {so : SetOrder} {num : Numerics}.

(** An entry of [transaction_array]. *)
Record TimedValue : Type :=
  mkTimedValue { tv_value : Q; time_diff_days : Z }.

(** The lambda [xirr]: a [reduce] from 0.0 over [transaction_array]. *)
Definition xirr_objective (transaction_array : list TimedValue) (r : Q)
  : result Q :=
  foldM (fun x y =>
           p <- fpow (1 + r) (inject_Z (time_diff_days y) / 365) ;;
           q <- py_div (tv_value y) p ;;
           Ok (x + q)%Q)
        transaction_array 0%Q.

Definition calculate_xirr (transactions : list CashFlow)
  : result (option Q) :=
  (* sort transactions by date *)
  let transactions := py_sorted cf_date transactions in
  if forallb (fun x => Qle_bool 0 (cf_value x)) transactions then Ok None
  else if forallb (fun x => Qle_bool (cf_value x) 0) transactions
  then Ok (Some (-1)%Q)
  else
    t0 <- getitem transactions 0 ;;
    initial_date <- strptimeM (cf_date t0) ;;
    transaction_array <-
      mapM (fun transaction =>
              final_date <- strptimeM (cf_date transaction) ;;
              Ok (mkTimedValue
                    (or_zero (Some (cf_value transaction)))
                    (days_between final_date initial_date)))
           transactions ;;
    let xirr := xirr_objective transaction_array in
    let lo := (-999 # 1000)%Q in
    let hi := 100%Q in
    (* (xirr(-.999) > 0 and xirr(100) < 0) or (xirr(-.999) < 0 and xirr(100) > 0) *)
    a <- xirr lo ;;
    c1 <- (if Qlt_bool 0 a then b <- xirr hi ;; Ok (Qlt_bool b 0)
           else Ok false) ;;
    c <- (if c1 then Ok true
          else a' <- xirr lo ;;
               if Qlt_bool a' 0 then b <- xirr hi ;; Ok (Qlt_bool 0 b)
               else Ok false) ;;
    if c then root <- brenth xirr lo hi ;; Ok (Some root)
    else Ok None.

Definition negate_flow (txn : CashFlow) : CashFlow :=
  mkCashFlow (cf_date txn) (cf_value txn * -1)%Q.

(** [x["date"] <= returns[i]["date"]] on the parsed dates. *)
Definition not_after (return_date : string) (x : CashFlow) : result bool :=
  dx <- strptimeM (cf_date x) ;;
  dr <- strptimeM return_date ;;
  Ok (datetime_leb dx dr).

(** The body of [read_xirrs_timeseries(self, returns, transactions)]. *)
Definition read_xirrs_timeseries_body
  (returns : option (list BalanceItem)) (transactions : list Transaction)
  : result (list XirrItem) :=
  transactions_aggregated_by_date <-
    TransactionUtils.aggregate_transactions_by_date transactions None ;;
  let transactions_aggregated_by_date :=
    map negate_flow transactions_aggregated_by_date in
  match returns with
  | None =>
      if (0 <? length transactions_aggregated_by_date)%nat then
        mapM (fun i =>
                t <- getitem transactions_aggregated_by_date i ;;
                x <- calculate_xirr
                       (firstn (i + 1) transactions_aggregated_by_date) ;;
                Ok (mkXirrItem (cf_date t) None x))
             (seq 0 (length transactions_aggregated_by_date))
      else Ok []
  | Some returns =>
      mapM (fun ret =>
              filtered_transactions <-
                filterM (not_after (bi_date ret))
                        transactions_aggregated_by_date ;;
              x <- calculate_xirr
                     (filtered_transactions
                      ++ [mkCashFlow (bi_date ret) (bi_balance ret)]) ;;
              Ok (mkXirrItem (bi_date ret) (Some (bi_balance ret)) x))
           returns
  end.

(** A call of the method with the positional arguments [args] (after
    [self]): the method has two formal parameters, and Python raises
    [TypeError] before running the body when the number of actual
    arguments differs.  Arguments of another shape than the one the body
    subscripts raise as well. *)
Definition read_xirrs_timeseries (args : list pyval)
  : result (list XirrItem) :=
  match args with
  | [returns; transactions] =>
      match returns, transactions with
      | PyNone, PyTransactions t => read_xirrs_timeseries_body None t
      | PyBalances r, PyTransactions t =>
          read_xirrs_timeseries_body (Some r) t
      | _, _ => Raise TypeError
      end
  | _ => Raise TypeError
  end.
End Xirr.
End XirrsUtils.

(* ================================================================== *)
(** * [pme/utils/pme_utils.py] *)
(* ================================================================== *)

Module PmeUtils.
Section Pme.
Context {so : SetOrder} {num : Numerics} {enum : TransactionTypeEnum}.

(** [[{"date": strptime(x["date"]), "value": x["value"]} for x in
    aggregate_transactions_by_date(transactions, transaction_type_id=t)]] *)
Definition aggregated_by_date (investment_transactions : list Transaction)
  (t : Z) : result (list DatedFlow) :=
  l <- TransactionUtils.aggregate_transactions_by_date
         investment_transactions (Some t) ;;
  mapM (fun x => d <- strptimeM (cf_date x) ;; Ok (mkDatedFlow d (cf_value x)))
       l.

(** [x["value"] if x is not None else 0.0] *)
Definition value_or_zero (x : option DatedFlow) : Q :=
  match x with
  | Some f => df_value f
  | None => 0%Q
  end.

(** The [dpi], [rvpi] and [tvpi] block shared by the three loops:
    [numerator_dpi / cumulative_contributions] and
    [numerator_rvpi / cumulative_contributions], or zeros. *)
Definition fill_tvpi (calculate_tvpi : bool) (cumulative_contributions : Q)
  (numerator_dpi numerator_rvpi : Q) (benchmark_return : BenchmarkReturn)
  : result BenchmarkReturn :=
  if calculate_tvpi && truthy cumulative_contributions then
    d <- py_div numerator_dpi cumulative_contributions ;;
    r <- py_div numerator_rvpi cumulative_contributions ;;
    Ok (set_tvpi benchmark_return d r)
  else if calculate_tvpi then Ok (set_tvpi benchmark_return 0 0)
  else Ok benchmark_return.

(** [for (i, xirr) in enumerate(xirrs): benchmark_returns[i]["xirr"] =
    xirr["xirr"]] *)
Fixpoint write_xirrs (benchmark_returns : list BenchmarkReturn)
  (xirrs : list XirrItem) : result (list BenchmarkReturn) :=
  match xirrs, benchmark_returns with
  | [], _ => Ok benchmark_returns
  | x :: xs, b :: bs =>
      r <- write_xirrs bs xs ;; Ok (set_xirr b (xi_xirr x) :: r)
  | _ :: _, [] => Raise IndexError
  end.

(** ** Long-Nickels PME *)

Record LNState : Type := mkLNState {
  ln_prev_value : option Q;
  ln_cumulative_contributions : Q;
  ln_cumulative_distributions : Q;
  theoretical_investment_series : list BalanceItem;
  ln_benchmark_returns : list BenchmarkReturn  (* the entries visited so far *)
}.

Definition ln_init : LNState := mkLNState None 0 0 [] [].

Definition ln_step (contributions_aggregated_by_date
                    distributions_aggregated_by_date : list DatedFlow)
  (calculate_tvpi : bool) (s : LNState) (benchmark_return : BenchmarkReturn)
  : result LNState :=
  current_date <- strptimeM (br_date benchmark_return) ;;
  let current_value :=
    match ln_prev_value s with
    | Some prev_value =>
        if truthy prev_value
        then (prev_value * (1 + timeWeightedReturn benchmark_return))%Q
        else 0%Q
    | None => 0%Q
    end in
  contribution <- BisectHelpers.find_eq_by_key
                    contributions_aggregated_by_date current_date df_date ;;
  distribution <- BisectHelpers.find_eq_by_key
                    distributions_aggregated_by_date current_date df_date ;;
  let '(current_value, cumulative_contributions) :=
    match contribution with
    | Some c => ((current_value + df_value c)%Q,
                 (ln_cumulative_contributions s + df_value c)%Q)
    | None => (current_value, ln_cumulative_contributions s)
    end in
  let '(current_value, cumulative_distributions) :=
    match distribution with
    | Some d => ((current_value + df_value d)%Q,
                 (ln_cumulative_distributions s + df_value d)%Q)
    | None => (current_value, ln_cumulative_distributions s)
    end in
  let item := mkBalanceItem (br_date benchmark_return) current_value in
  (* calculate dpi, rvpi, and tvpi *)
  benchmark_return <-
    fill_tvpi calculate_tvpi cumulative_contributions
      (-1 * cumulative_distributions)%Q current_value benchmark_return ;;
  Ok (mkLNState (Some current_value) cumulative_contributions
        cumulative_distributions
        (theoretical_investment_series s ++ [item])
        (ln_benchmark_returns s ++ [benchmark_return])).

Definition ln_loop (benchmark_returns : list BenchmarkReturn)
  (investment_transactions : list Transaction) (calculate_tvpi : bool)
  : result LNState :=
  contributions_aggregated_by_date <-
    aggregated_by_date investment_transactions Contribution ;;
  distributions_aggregated_by_date <-
    aggregated_by_date investment_transactions Distribution ;;
  foldM (ln_step contributions_aggregated_by_date
           distributions_aggregated_by_date calculate_tvpi)
        benchmark_returns ln_init.

Definition calculate_long_nickels_PME
  (benchmark_returns : list BenchmarkReturn)
  (investment_transactions : list Transaction)
  (calculate_xirr calculate_tvpi : bool) : result (list BenchmarkReturn) :=
  s <- ln_loop benchmark_returns investment_transactions calculate_tvpi ;;
  (* calculate PME (xirr) *)
  if calculate_xirr then
    xirrs <- XirrsUtils.read_xirrs_timeseries
               [PyNone; PyBalances (theoretical_investment_series s);
                PyTransactions investment_transactions] ;;
    write_xirrs (ln_benchmark_returns s) xirrs
  else Ok (ln_benchmark_returns s).

(** ** Modified PME *)

Record MState : Type := mkMState {
  prev_theoretical_balance : option Q;
  prev_benchmark_balance : option Q;
  m_cumulative_contributions : Q;
  cumulative_weighted_distributions : Q;
  theoretical_balances : list BalanceItem;
  weighted_distributions : list CashFlow;
  m_benchmark_returns : list BenchmarkReturn
}.

Definition m_init : MState := mkMState None None 0 0 [] [] [].

Definition distribution_weight_of (distribution : option DatedFlow)
  (most_recent_return : option DatedBalance) : result Q :=
  match distribution, most_recent_return with
  | Some d, Some r =>
      py_div (- df_value d) (- df_value d + db_balance r)
  | _, _ => Ok 0%Q
  end.

Definition m_step (contributions_aggregated_by_date
                   distributions_aggregated_by_date : list DatedFlow)
  (sorted_investment_returns : list DatedBalance)
  (calculate_tvpi : bool) (s : MState) (benchmark_return : BenchmarkReturn)
  : result MState :=
  current_date <- strptimeM (br_date benchmark_return) ;;
  (* get contribution, distribution, and most recent return for this date *)
  contribution <- BisectHelpers.find_eq_by_key
                    contributions_aggregated_by_date current_date df_date ;;
  distribution <- BisectHelpers.find_eq_by_key
                    distributions_aggregated_by_date current_date df_date ;;
  most_recent_return <- BisectHelpers.find_le_by_key
                          sorted_investment_returns current_date db_date ;;
  (* Calculate Distribution Weight *)
  distribution_weight <-
    distribution_weight_of distribution most_recent_return ;;
  let prev_theoretical_balance :=
    match prev_theoretical_balance s with Some v => v | None => 0%Q end in
  let prev_benchmark_balance :=
    match prev_benchmark_balance s with
    | Some v => v
    | None => balance benchmark_return
    end in
  ratio <- py_div (balance benchmark_return) prev_benchmark_balance ;;
  let adjusted_balance :=
    (prev_theoretical_balance * ratio + value_or_zero contribution)%Q in
  let theoretical_balance := ((1 - distribution_weight) * adjusted_balance)%Q in
  let weighted_distribution :=
    (-1 * distribution_weight * adjusted_balance)%Q in
  let theoretical_balances_item :=
    mkBalanceItem (br_date benchmark_return) theoretical_balance in
  let weighted_distributions_item :=
    mkCashFlow (br_date benchmark_return) weighted_distribution in
  (* calculate dpi, rvpi, and tvpi *)
  let cumulative_contributions :=
    (m_cumulative_contributions s + value_or_zero contribution)%Q in
  let cumulative_weighted_distributions :=
    (cumulative_weighted_distributions s + weighted_distribution)%Q in
  benchmark_return' <-
    fill_tvpi calculate_tvpi cumulative_contributions
      (-1 * cumulative_weighted_distributions)%Q theoretical_balance
      benchmark_return ;;
  Ok (mkMState (Some theoretical_balance) (Some (balance benchmark_return))
        cumulative_contributions cumulative_weighted_distributions
        (theoretical_balances s ++ [theoretical_balances_item])
        (weighted_distributions s ++ [weighted_distributions_item])
        (m_benchmark_returns s ++ [benchmark_return'])).

Definition sort_investment_returns (investment_returns : list BalanceItem)
  : result (list DatedBalance) :=
  datetime_investment_returns <-
    mapM (fun investment_return =>
            d <- strptimeM (bi_date investment_return) ;;
            Ok (mkDatedBalance d (bi_balance investment_return)))
         investment_returns ;;
  Ok (py_sorted db_date datetime_investment_returns).

Definition m_loop (benchmark_returns : list BenchmarkReturn)
  (investment_returns : list BalanceItem)
  (investment_transactions : list Transaction) (calculate_tvpi : bool)
  : result (list DatedFlow * MState) :=
  contributions_aggregated_by_date <-
    aggregated_by_date investment_transactions Contribution ;;
  distributions_aggregated_by_date <-
    aggregated_by_date investment_transactions Distribution ;;
  sorted_investment_returns <- sort_investment_returns investment_returns ;;
  s <- foldM (m_step contributions_aggregated_by_date
                distributions_aggregated_by_date sorted_investment_returns
                calculate_tvpi)
             benchmark_returns m_init ;;
  Ok (contributions_aggregated_by_date, s).

Definition calculate_mPME (benchmark_returns : list BenchmarkReturn)
  (investment_returns : list BalanceItem)
  (investment_transactions : list Transaction)
  (calculate_xirr calculate_tvpi : bool) : result (list BenchmarkReturn) :=
  '(contributions_aggregated_by_date, s) <-
    m_loop benchmark_returns investment_returns investment_transactions
      calculate_tvpi ;;
  if calculate_xirr then
    contributions_aggregated_by_date <-
      mapM (fun x => date <- strftime (df_date x) ;;
                     Ok (mkTransaction date (Some (df_value x)) None))
           contributions_aggregated_by_date ;;
    let weighted :=
      map (fun x => mkTransaction (cf_date x) (Some (cf_value x)) None)
          (weighted_distributions s) in
    xirrs <- XirrsUtils.read_xirrs_timeseries
               [PyNone; PyBalances (theoretical_balances s);
                PyTransactions (contributions_aggregated_by_date ++ weighted)] ;;
    write_xirrs (m_benchmark_returns s) xirrs
  else Ok (m_benchmark_returns s).

(** ** Kaplan-Schoar PME *)

Record KSState : Type := mkKSState {
  ks_cumulative_contributions : Q;
  prev_discounted_distribution_value : option Q;
  prev_discounted_contribution_value : option Q;
  ks_benchmark_returns : list BenchmarkReturn
}.

Definition ks_init : KSState := mkKSState 0 None None [].

Definition ks_step (distributions_aggregated_by_date
                    contributions_aggregated_by_date : list DatedFlow)
  (calculate_tvpi : bool) (s : KSState) (benchmark_return : BenchmarkReturn)
  : result KSState :=
  current_date <- strptimeM (br_date benchmark_return) ;;
  (* Determine total discounted distribution value *)
  let total_discounted_distribution_value :=
    match prev_discounted_distribution_value s with
    | Some p => (p * (1 + timeWeightedReturn benchmark_return))%Q
    | None => 0%Q
    end in
  distribution <- BisectHelpers.find_eq_by_key
                    distributions_aggregated_by_date current_date df_date ;;
  let total_discounted_distribution_value :=
    match distribution with
    | Some d => (total_discounted_distribution_value + df_value d)%Q
    | None => total_discounted_distribution_value
    end in
  (* Determine total discounted contribution value *)
  let total_discounted_contribution_value :=
    match prev_discounted_contribution_value s with
    | Some p => (p * (1 + timeWeightedReturn benchmark_return))%Q
    | None => 0%Q
    end in
  contribution <- BisectHelpers.find_eq_by_key
                    contributions_aggregated_by_date current_date df_date ;;
  let '(total_discounted_contribution_value, cumulative_contributions) :=
    match contribution with
    | Some c => ((total_discounted_contribution_value + df_value c)%Q,
                 (ks_cumulative_contributions s + df_value c)%Q)
    | None => (total_discounted_contribution_value,
               ks_cumulative_contributions s)
    end in
  (* Calculate pme *)
  benchmark_return <-
    (if negb (Qeq_bool total_discounted_contribution_value 0) then
       m <- py_div total_discounted_distribution_value
              (-1 * total_discounted_contribution_value) ;;
       Ok (set_kaplanSchoarMultiple benchmark_return m)
     else Ok (set_kaplanSchoarMultiple benchmark_return 0)) ;;
  (* Calculate dpi, rvpi, and tvpi *)
  benchmark_return <-
    fill_tvpi calculate_tvpi cumulative_contributions
      (-1 * total_discounted_distribution_value)%Q
      (total_discounted_contribution_value
       + total_discounted_distribution_value)%Q
      benchmark_return ;;
  Ok (mkKSState cumulative_contributions
        (Some total_discounted_distribution_value)
        (Some total_discounted_contribution_value)
        (ks_benchmark_returns s ++ [benchmark_return])).

Definition calculate_kaplan_schoar_PME
  (benchmark_returns : list BenchmarkReturn)
  (investment_transactions : list Transaction) (calculate_tvpi : bool)
  : result (list BenchmarkReturn) :=
  distributions_aggregated_by_date <-
    aggregated_by_date investment_transactions Distribution ;;
  contributions_aggregated_by_date <-
    aggregated_by_date investment_transactions Contribution ;;
  s <- foldM (ks_step distributions_aggregated_by_date
                contributions_aggregated_by_date calculate_tvpi)
             benchmark_returns ks_init ;;
  Ok (ks_benchmark_returns s).

(** ** The benchmark-return builder, [__get_benchmark_returns] *)

(** [datetime.datetime(d.year, d.month, d.day)] *)
Definition normalize_date (br : BenchmarkValue) : BenchmarkValue :=
  mkBenchmarkValue
    (mkdate (year (bv_date br)) (month (bv_date br)) (day (bv_date br)))
    (bv_value br).

(** The body of the loop over the dates; [dict.update(None)] raises
    [TypeError]. *)
Definition index_value_on (benchmark_values : list BenchmarkValue)
  (date : string) : result BenchmarkValue :=
  date <- strptimeM date ;;
  benchmark_value <-
    BisectHelpers.find_le_by_key benchmark_values date bv_date ;;
  match benchmark_value with
  | Some v => Ok (mkBenchmarkValue date (bv_value v))
  | None =>
      g <- BisectHelpers.find_gt_by_key benchmark_values date bv_date ;;
      match g with
      | Some v => Ok (mkBenchmarkValue date (bv_value v))
      | None => Raise TypeError
      end
  end.

Record BRState : Type := mkBRState {
  br_prev_value : option Q;
  cumulative_return : Q;
  built : list BenchmarkReturn
}.

Definition br_step (s : BRState) (x : BenchmarkValue) : result BRState :=
  return_ <-
    match br_prev_value s with
    | Some prev_value =>
        if truthy prev_value
        then py_div (bv_value x - prev_value) prev_value
        else Ok 0%Q
    | None => Ok 0%Q
    end ;;
  let cumulative_return := (cumulative_return s * (return_ + 1))%Q in
  date <- strftime (bv_date x) ;;
  Ok (mkBRState (Some (bv_value x)) cumulative_return
        (built s ++ [mkBenchmarkReturn date (bv_value x)
                       return_ cumulative_return None None None None None])).

Definition __get_benchmark_returns (benchmark_values : list BenchmarkValue)
  (investment_returns : list BalanceItem)
  (investment_transactions : list Transaction)
  : result (list BenchmarkReturn) :=
  (* Catch invalid state(s) *)
  if (length benchmark_values =? 0)%nat then Raise InvalidState
  else
    (* 1) datetime form + sort values *)
    let benchmark_values := map normalize_date benchmark_values in
    let benchmark_values := py_sorted bv_date benchmark_values in
    (* 2) index values on dates of transactions and/or returns *)
    index_values <-
      mapM (index_value_on benchmark_values)
           (get_unique_values [map bi_date investment_returns;
                               map txn_date investment_transactions]) ;;
    let index_values := py_sorted bv_date index_values in
    (* 3) timeWeightedReturn and cumulative TWR for each index value *)
    s <- foldM br_step index_values (mkBRState None 1 []) ;;
    Ok (built s).
End Pme.
End PmeUtils.

(* ================================================================== *)
(** * Concrete runtimes, used to run the model on examples *)
(* ================================================================== *)

(** A set that yields its elements in the order of their first insertion. *)
Definition insertion_order : SetOrder :=
  {| set_iter := nodup string_dec;
     set_iter_perm := fun l => Permutation_refl (nodup string_dec l) |}.

Definition enum_1_2 : TransactionTypeEnum :=
  {| Contribution := 1; Distribution := 2 |}.

(** A power that is exact on whole exponents (whole years). *)
Definition whole_pow (b e : Q) : Q := (b ^ Qfloor e)%Q.

(** A plain bisection: the sign of [f lo] is kept on the left end. *)
Fixpoint bisection (n : nat) (f : Q -> result Q) (lo hi : Q) : result Q :=
  match n with
  | O => Ok ((lo + hi) / 2)%Q
  | S n' =>
      let mid := Qred ((lo + hi) / 2) in
      a <- f lo ;;
      m <- f mid ;;
      if Qeq_bool m 0 then Ok mid
      else if Bool.eqb (Qlt_bool 0 a) (Qlt_bool 0 m)
           then bisection n' f mid hi
           else bisection n' f lo mid
  end.

(** Whole-year powers with a bisection of 40 steps in place of [brenth]. *)
Definition whole_years : Numerics :=
  {| fpow := fun b e => Ok (whole_pow b e);
     brenth := bisection 40 |}.

(** The same powers with a root-finder that fails whenever it is called. *)
Definition failing_solver : Numerics :=
  {| fpow := fun b e => Ok (whole_pow b e);
     brenth := fun _ _ _ => Raise RuntimeError |}.

(** The range of a double: a result above [2 ^ 1024] is out of range, and
    a result below [2 ^ -1075] in absolute value is rounded to 0.0. *)
Definition double_pow (b e : Q) : result Q :=
  let p := whole_pow b e in
  if Qlt_bool (inject_Z (2 ^ 1024)) (Qabs p) then Raise OverflowError
  else if Qlt_bool (Qabs p) (1 # (2 ^ 1075)) then Ok 0%Q
  else Ok p.

(** Whole-year powers in the range of a double. *)
Definition double_range : Numerics :=
  {| fpow := double_pow;
     brenth := bisection 40 |}.

(* ================================================================== *)
(** * Properties of the runtime model *)
(* ================================================================== *)

(** The laws of a total order, for the comparisons of a key type. *)
Class PyOrdLaws (K : Type) {O : PyOrd K} : Prop := {
  ltb_irrefl : forall x : K, ltb x x = false;
  ltb_trans : forall x y z : K, ltb x y = true -> ltb y z = true -> ltb x z = true;
  ltb_total : forall x y : K, ltb x y = false -> ltb y x = false -> x = y;
  eqb_eq : forall x y : K, eqb x y = true <-> x = y
}.
Arguments PyOrdLaws K {O}.

#[export] Instance PyOrdLaws_Z : PyOrdLaws Z.
Proof.
  split; simpl; intros.
  - apply Z.ltb_irrefl.
  - apply Z.ltb_lt in H, H0. apply Z.ltb_lt. lia.
  - apply Z.ltb_ge in H, H0. lia.
  - apply Z.eqb_eq.
Qed.

Lemma datetime_ltb_spec (a b : datetime) :
  datetime_ltb a b = true <->
  year a < year b \/
  (year a = year b /\ (month a < month b \/ (month a = month b /\ day a < day b))).
Proof.
  unfold datetime_ltb.
  rewrite !orb_true_iff, !andb_true_iff, !orb_true_iff, !andb_true_iff,
    !Z.ltb_lt, !Z.eqb_eq.
  tauto.
Qed.

Lemma datetime_ltb_false (a b : datetime) :
  datetime_ltb a b = false <->
  ~ (year a < year b \/
     (year a = year b /\ (month a < month b \/ (month a = month b /\ day a < day b)))).
Proof.
  rewrite <- datetime_ltb_spec. destruct (datetime_ltb a b); split; intro;
    congruence || (exfalso; auto).
Qed.

#[export] Instance PyOrdLaws_datetime : PyOrdLaws datetime.
Proof.
  split; simpl.
  - intros x. apply datetime_ltb_false. lia.
  - intros x y z Hxy Hyz. apply datetime_ltb_spec in Hxy, Hyz.
    apply datetime_ltb_spec. lia.
  - intros [y1 m1 d1] [y2 m2 d2] H1 H2.
    apply datetime_ltb_false in H1, H2. simpl in *.
    assert (y1 = y2 /\ m1 = m2 /\ d1 = d2) as (-> & -> & ->) by lia.
    reflexivity.
  - intros [y1 m1 d1] [y2 m2 d2]. unfold datetime_eqb. simpl.
    rewrite !andb_true_iff, !Z.eqb_eq. split.
    + intros [[-> ->] ->]. reflexivity.
    + intros E. injection E as -> -> ->. auto.
Qed.

Section OrderFacts.
Context {K : Type} `{PyOrdLaws K}.

(** [x <= y], that is, not [y < x]. *)
Definition le (x y : K) : Prop := ltb y x = false.

Lemma lt_asym (x y : K) : ltb x y = true -> ltb y x = false.
Proof.
  intro Hxy. destruct (ltb y x) eqn:Hyx; [|reflexivity].
  rewrite <- (ltb_irrefl x). symmetry. eapply ltb_trans; eauto.
Qed.

Lemma le_refl (x : K) : le x x.
Proof. apply ltb_irrefl. Qed.

Lemma le_lt_trans (x y z : K) : le x y -> ltb y z = true -> ltb x z = true.
Proof.
  unfold le. intros Hxy Hyz.
  destruct (ltb x y) eqn:E.
  - eapply ltb_trans; eauto.
  - rewrite (ltb_total _ _ E Hxy). exact Hyz.
Qed.

Lemma lt_le_trans (x y z : K) : ltb x y = true -> le y z -> ltb x z = true.
Proof.
  unfold le. intros Hxy Hyz.
  destruct (ltb y z) eqn:E.
  - eapply ltb_trans; eauto.
  - rewrite <- (ltb_total _ _ E Hyz). exact Hxy.
Qed.

Lemma le_trans (x y z : K) : le x y -> le y z -> le x z.
Proof.
  unfold le. intros Hxy Hyz.
  destruct (ltb z x) eqn:E; [|reflexivity].
  rewrite <- Hyz. symmetry. eapply lt_le_trans; [exact E|exact Hxy].
Qed.

Lemma lt_le (x y : K) : ltb x y = true -> le x y.
Proof. apply lt_asym. Qed.

Lemma le_antisym (x y : K) : le x y -> le y x -> x = y.
Proof. unfold le. intros. now apply ltb_total. Qed.

Lemma eqb_refl_true (x : K) : eqb x x = true.
Proof. now apply eqb_eq. Qed.

Lemma eqb_neq (x y : K) : eqb x y = false <-> x <> y.
Proof.
  rewrite <- eqb_eq. destruct (eqb x y); split; congruence.
Qed.
End OrderFacts.

(** ** The result monad *)

Lemma bind_Ok_inv {A B : Type} (m : result A) (k : A -> result B) (b : B) :
  bind m k = Ok b -> exists a, m = Ok a /\ k a = Ok b.
Proof. destruct m; simpl; [eauto | discriminate]. Qed.

Lemma mapM_Ok_length {A B : Type} (f : A -> result B) (l : list A) (r : list B) :
  mapM f l = Ok r -> length r = length l.
Proof.
  revert r. induction l as [|x l IH]; simpl; intros r Hr.
  - now inversion Hr.
  - apply bind_Ok_inv in Hr as (y & _ & Hr).
    apply bind_Ok_inv in Hr as (ys & Hys & Hr).
    inversion Hr; subst. simpl. f_equal. eauto.
Qed.

Lemma mapM_total {A B : Type} (f : A -> result B) (l : list A) :
  (forall x, In x l -> exists y, f x = Ok y) -> exists r, mapM f l = Ok r.
Proof.
  induction l as [|x l IH]; simpl; intros Hf.
  - eauto.
  - destruct (Hf x) as (y & Hy); [auto|]. rewrite Hy. simpl.
    destruct IH as (r & Hr); [auto|]. rewrite Hr. simpl. eauto.
Qed.

Lemma mapM_Forall2 {A B : Type} (f : A -> result B) (l : list A) (r : list B) :
  mapM f l = Ok r -> Forall2 (fun x y => f x = Ok y) l r.
Proof.
  revert r. induction l as [|x l IH]; simpl; intros r Hr.
  - inversion Hr. constructor.
  - apply bind_Ok_inv in Hr as (y & Hy & Hr).
    apply bind_Ok_inv in Hr as (ys & Hys & Hr).
    inversion Hr; subst. constructor; auto.
Qed.

Lemma mapM_pure {A B : Type} (f : A -> B) (l : list A) :
  mapM (fun x => Ok (f x)) l = Ok (map f l).
Proof.
  induction l as [|x l IH]; simpl; [reflexivity|]. now rewrite IH.
Qed.

Lemma mapM_ext_in {A B : Type} (f g : A -> result B) (l : list A) :
  (forall x, In x l -> f x = g x) -> mapM f l = mapM g l.
Proof.
  induction l as [|x l IH]; simpl; intros E; [reflexivity|].
  rewrite E by auto. rewrite IH by auto. reflexivity.
Qed.

Lemma getitem_Ok {A : Type} (a : list A) (i : nat) (v : A) :
  getitem a i = Ok v <-> nth_error a i = Some v.
Proof.
  unfold getitem. destruct (nth_error a i); split; intro E;
    inversion E; reflexivity.
Qed.

Lemma getitem_lt {A : Type} (a : list A) (i : nat) :
  (i < length a)%nat -> exists v, getitem a i = Ok v /\ nth_error a i = Some v.
Proof.
  intro Hi. unfold getitem.
  destruct (nth_error a i) eqn:E; [eauto|].
  apply nth_error_None in E. lia.
Qed.

(** ** [sorted] *)

Section SortingFacts.
Context {K A : Type} `{PyOrdLaws K}.

Definition key_le (a b : K * A) : Prop := le (fst a) (fst b).

Lemma insert_keyed_perm (kx : K * A) (l : list (K * A)) :
  Permutation (insert_keyed kx l) (kx :: l).
Proof.
  induction l as [|ky l IH]; simpl; [reflexivity|].
  destruct (ltb (fst ky) (fst kx)); [|reflexivity].
  rewrite IH. apply perm_swap.
Qed.

Lemma sort_keyed_perm (l : list (K * A)) : Permutation (sort_keyed l) l.
Proof.
  induction l as [|kx l IH]; simpl; [reflexivity|].
  rewrite insert_keyed_perm. now constructor.
Qed.

Lemma insert_keyed_sorted (kx : K * A) (l : list (K * A)) :
  StronglySorted key_le l -> StronglySorted key_le (insert_keyed kx l).
Proof.
  induction 1 as [|ky l Hs IH Hall]; simpl.
  - repeat constructor.
  - destruct (ltb (fst ky) (fst kx)) eqn:E.
    + constructor; [exact IH|].
      eapply Permutation_Forall; [symmetry; apply insert_keyed_perm|].
      constructor; [now apply lt_le|exact Hall].
    + constructor; [now constructor|].
      constructor; [exact E|].
      eapply Forall_impl; [|exact Hall].
      intros kz Hz. eapply le_trans; [exact E|exact Hz].
Qed.

Lemma sort_keyed_sorted (l : list (K * A)) :
  StronglySorted key_le (sort_keyed l).
Proof.
  induction l as [|kx l IH]; simpl; [constructor|].
  now apply insert_keyed_sorted.
Qed.

Lemma sorted_map_snd (key : A -> K) (l : list (K * A)) :
  Forall (fun p => fst p = key (snd p)) l ->
  StronglySorted key_le l ->
  StronglySorted (fun a b => le (key a) (key b)) (map snd l).
Proof.
  intros Hk Hs. induction Hs as [|p l Hs IH Hall]; simpl; [constructor|].
  inversion Hk as [|? ? Hp Hl]; subst.
  constructor; [auto|].
  apply Forall_map. rewrite Forall_forall in *.
  intros q Hq. unfold key_le in Hall.
  rewrite <- Hp, <- (Hl q Hq). now apply Hall.
Qed.

Lemma py_sorted_perm (key : A -> K) (l : list A) :
  Permutation (py_sorted key l) l.
Proof.
  unfold py_sorted. rewrite sort_keyed_perm, map_map. simpl.
  now rewrite map_id.
Qed.

Lemma py_sorted_sorted (key : A -> K) (l : list A) :
  StronglySorted (fun a b => le (key a) (key b)) (py_sorted key l).
Proof.
  unfold py_sorted. apply sorted_map_snd; [|apply sort_keyed_sorted].
  eapply Permutation_Forall; [symmetry; apply sort_keyed_perm|].
  apply Forall_map. now apply Forall_forall.
Qed.

Lemma decorated_Ok (key : A -> result K) (l : list A) (kl : list (K * A)) :
  mapM (fun x => k <- key x ;; Ok (k, x)) l = Ok kl ->
  map snd kl = l /\ Forall (fun p => key (snd p) = Ok (fst p)) kl.
Proof.
  intros Hkl. apply mapM_Forall2 in Hkl.
  induction Hkl as [|x p l' kl' Hx Hl IH]; simpl; [auto|].
  apply bind_Ok_inv in Hx as (k & Hk & Hx). inversion Hx; subst. simpl.
  destruct IH as [-> IH]. split; [reflexivity|]. constructor; auto.
Qed.

(** The order that [sorted(l, key=...)] establishes when the key may
    raise: both keys exist and are in order. *)
Definition keyM_le (key : A -> result K) (a b : A) : Prop :=
  exists ka kb, key a = Ok ka /\ key b = Ok kb /\ le ka kb.

Lemma py_sortedM_Ok (key : A -> result K) (l r : list A) :
  py_sortedM key l = Ok r ->
  Permutation r l /\ StronglySorted (keyM_le key) r.
Proof.
  unfold py_sortedM. intros Hr.
  apply bind_Ok_inv in Hr as (kl & Hkl & Hr). inversion Hr; subst; clear Hr.
  apply decorated_Ok in Hkl as [Hsnd Hkeys]. split.
  - rewrite sort_keyed_perm. now rewrite Hsnd.
  - assert (Hk : Forall (fun p => key (snd p) = Ok (fst p)) (sort_keyed kl)).
    { eapply Permutation_Forall; [symmetry; apply sort_keyed_perm|exact Hkeys]. }
    pose proof (sort_keyed_sorted kl) as Hs.
    induction Hs as [|p l' Hs IH Hall]; simpl; [constructor|].
    inversion Hk as [|? ? Hp Hl]; subst.
    constructor; [auto|].
    apply Forall_map. rewrite Forall_forall in *.
    intros q Hq. exists (fst p), (fst q). repeat split; auto.
    now apply Hall.
Qed.

Lemma py_sortedM_total (key : A -> result K) (l : list A) :
  (forall x, In x l -> exists k, key x = Ok k) ->
  exists r, py_sortedM key l = Ok r.
Proof.
  intros Hkey. unfold py_sortedM.
  destruct (mapM_total (fun x => k <- key x ;; Ok (k, x)) l) as (kl & ->).
  - intros x Hx. destruct (Hkey x Hx) as (k & ->). simpl. eauto.
  - simpl. eauto.
Qed.
End SortingFacts.

(** ** Binary search *)

#[local] Arguments Nat.div : simpl never.

Section BisectFacts.
Context {K : Type} `{PyOrdLaws K}.
Import BisectHelpers.

(** Both loops of [bisect] move [lo] past [mid] when a test holds of
    [a[mid]] and pull [hi] down to [mid] otherwise. *)
Fixpoint partition_loop (p : K -> bool) (fuel : nat) (a : list K)
  (lo hi : nat) : result nat :=
  match fuel with
  | O => Ok lo
  | S fuel' =>
      if (lo <? hi)%nat then
        let mid := ((lo + hi) / 2)%nat in
        v <- getitem a mid ;;
        if p v then partition_loop p fuel' a (mid + 1)%nat hi
        else partition_loop p fuel' a lo mid
      else Ok lo
  end.

Lemma bisect_left_loop_partition (fuel : nat) (a : list K) (x : K) (lo hi : nat) :
  bisect_left_loop fuel a x lo hi
  = partition_loop (fun v => ltb v x) fuel a lo hi.
Proof.
  revert lo hi. induction fuel as [|fuel IH]; intros lo hi; simpl; [reflexivity|].
  destruct (lo <? hi)%nat; [|reflexivity].
  destruct (getitem a ((lo + hi) / 2)); simpl; [|reflexivity].
  now rewrite !IH.
Qed.

Lemma bisect_right_loop_partition (fuel : nat) (a : list K) (x : K) (lo hi : nat) :
  bisect_right_loop fuel a x lo hi
  = partition_loop (fun v => negb (ltb x v)) fuel a lo hi.
Proof.
  revert lo hi. induction fuel as [|fuel IH]; intros lo hi; simpl; [reflexivity|].
  destruct (lo <? hi)%nat; [|reflexivity].
  destruct (getitem a ((lo + hi) / 2)) as [v|]; simpl; [|reflexivity].
  rewrite !IH. now destruct (ltb x v).
Qed.

Lemma mid_bounds (lo hi : nat) :
  (lo < hi)%nat -> (lo <= (lo + hi) / 2 < hi)%nat.
Proof.
  intro Hlt.
  pose proof (Nat.div_mod_eq (lo + hi) 2) as E.
  pose proof (Nat.mod_upper_bound (lo + hi) 2).
  lia.
Qed.

(** The loop never reads outside the list. *)
Lemma partition_loop_total (p : K -> bool) (fuel : nat) (a : list K) (lo hi : nat) :
  (lo <= hi <= length a)%nat ->
  exists k, partition_loop p fuel a lo hi = Ok k /\ (lo <= k <= hi)%nat.
Proof.
  revert lo hi. induction fuel as [|fuel IH]; intros lo hi Hb; simpl.
  - exists lo. split; [reflexivity|lia].
  - destruct (lo <? hi)%nat eqn:Hlt.
    + apply Nat.ltb_lt in Hlt. pose proof (mid_bounds Hlt) as Hm.
      destruct (@getitem_lt _ a ((lo + hi) / 2)%nat) as (v & -> & _); [lia|].
      simpl. destruct (p v).
      * destruct (IH ((lo + hi) / 2 + 1)%nat hi) as (k & -> & Hk); [lia|].
        exists k. split; [reflexivity|lia].
      * destruct (IH lo ((lo + hi) / 2)%nat) as (k & -> & Hk); [lia|].
        exists k. split; [reflexivity|lia].
    + exists lo. split; [reflexivity|]. apply Nat.ltb_ge in Hlt. lia.
Qed.

(** The elements that pass the test [p] form a prefix of [a]. *)
Definition prefix_closed (p : K -> bool) (a : list K) : Prop :=
  forall i j vi vj, (i <= j)%nat ->
    nth_error a i = Some vi -> nth_error a j = Some vj ->
    p vj = true -> p vi = true.

Lemma partition_loop_spec (p : K -> bool) (a : list K) :
  prefix_closed p a ->
  forall (fuel lo hi : nat),
    (lo <= hi <= length a)%nat -> (hi - lo <= fuel)%nat ->
    (forall j v, nth_error a j = Some v -> (j < lo)%nat -> p v = true) ->
    (forall j v, nth_error a j = Some v -> (hi <= j)%nat -> p v = false) ->
    exists k, partition_loop p fuel a lo hi = Ok k /\ (lo <= k <= hi)%nat /\
      forall j v, nth_error a j = Some v -> (p v = true <-> (j < k)%nat).
Proof.
  intros Hp. induction fuel as [|fuel IH]; intros lo hi Hb Hfuel Hlo Hhi; simpl.
  - exists lo. split; [reflexivity|]. split; [lia|].
    intros j v Hj. split.
    + intro Hv. destruct (Nat.lt_ge_cases j lo) as [|Hge]; [assumption|].
      rewrite (Hhi j v Hj) in Hv by lia. discriminate.
    + eauto.
  - destruct (lo <? hi)%nat eqn:Hlt.
    + apply Nat.ltb_lt in Hlt. pose proof (mid_bounds Hlt) as Hm.
      destruct (@getitem_lt _ a ((lo + hi) / 2)%nat) as (v & -> & Hv); [lia|].
      simpl. destruct (p v) eqn:Hpv.
      * destruct (IH ((lo + hi) / 2 + 1)%nat hi) as (k & -> & Hk & Hspec);
          [lia|lia| |exact Hhi|].
        -- intros j w Hj Hjlt. eapply (Hp j ((lo + hi) / 2)%nat); eauto. lia.
        -- exists k. split; [reflexivity|]. split; [lia|exact Hspec].
      * destruct (IH lo ((lo + hi) / 2)%nat) as (k & -> & Hk & Hspec);
          [lia|lia|exact Hlo| |].
        -- intros j w Hj Hjge. destruct (p w) eqn:Hpw; [|reflexivity].
           rewrite <- Hpv. symmetry.
           eapply (Hp ((lo + hi) / 2)%nat j); eauto.
        -- exists k. split; [reflexivity|]. split; [lia|exact Hspec].
    + apply Nat.ltb_ge in Hlt. exists lo. split; [reflexivity|]. split; [lia|].
      intros j v Hj. split.
      * intro Hv. destruct (Nat.lt_ge_cases j lo) as [|Hge]; [assumption|].
        rewrite (Hhi j v Hj) in Hv by lia. discriminate.
      * eauto.
Qed.

Lemma sorted_nth (a : list K) :
  StronglySorted le a ->
  forall i j vi vj, (i <= j)%nat ->
    nth_error a i = Some vi -> nth_error a j = Some vj -> le vi vj.
Proof.
  induction 1 as [|v a Hs IH Hall]; intros i j vi vj Hij Hi Hj.
  - destruct i; discriminate.
  - destruct i as [|i], j as [|j]; simpl in *.
    + inversion Hi; inversion Hj; subst. apply le_refl.
    + inversion Hi; subst. rewrite Forall_forall in Hall.
      apply Hall. eapply nth_error_In; eauto.
    + exfalso. lia.
    + apply (IH i j vi vj); [lia|assumption|assumption].
Qed.

Lemma sorted_prefix_lt (a : list K) (x : K) :
  StronglySorted le a -> prefix_closed (fun v => ltb v x) a.
Proof.
  intros Hs i j vi vj Hij Hi Hj Hlt.
  eapply le_lt_trans; [|exact Hlt]. eapply sorted_nth; eauto.
Qed.

Lemma sorted_prefix_le (a : list K) (x : K) :
  StronglySorted le a -> prefix_closed (fun v => negb (ltb x v)) a.
Proof.
  intros Hs i j vi vj Hij Hi Hj Hle.
  apply negb_true_iff in Hle. apply negb_true_iff.
  eapply le_trans; [|exact Hle]. eapply sorted_nth; eauto.
Qed.

Lemma bisect_left_total (a : list K) (x : K) :
  exists k, bisect_left a x = Ok k /\ (k <= length a)%nat.
Proof.
  unfold bisect_left. rewrite bisect_left_loop_partition.
  destruct (partition_loop_total (fun v => ltb v x) (length a) a (lo:=0) (hi:=length a))
    as (k & -> & Hk); [lia|].
  exists k. split; [reflexivity|lia].
Qed.

Lemma bisect_right_total (a : list K) (x : K) :
  exists k, bisect_right a x = Ok k /\ (k <= length a)%nat.
Proof.
  unfold bisect_right. rewrite bisect_right_loop_partition.
  destruct (partition_loop_total (fun v => negb (ltb x v)) (length a) a
              (lo:=0) (hi:=length a)) as (k & -> & Hk); [lia|].
  exists k. split; [reflexivity|lia].
Qed.

(** On a sorted list [bisect_left] returns the number of elements below
    [x]: exactly the positions before it hold an element [< x]. *)
Lemma bisect_left_sorted (a : list K) (x : K) :
  StronglySorted le a ->
  exists k, bisect_left a x = Ok k /\ (k <= length a)%nat /\
    forall j v, nth_error a j = Some v -> (ltb v x = true <-> (j < k)%nat).
Proof.
  intros Hs. unfold bisect_left. rewrite bisect_left_loop_partition.
  destruct (partition_loop_spec (sorted_prefix_lt x Hs) (fuel:=length a)
              (lo:=0) (hi:=length a)) as (k & -> & Hk & Hspec).
  - lia.
  - lia.
  - intros; lia.
  - intros j v Hj Hge. assert (nth_error a j = None) as E
      by (apply nth_error_None; lia). congruence.
  - exists k. split; [reflexivity|]. split; [lia|exact Hspec].
Qed.

(** On a sorted list [bisect_right] returns the number of elements that
    are at most [x]. *)
Lemma bisect_right_sorted (a : list K) (x : K) :
  StronglySorted le a ->
  exists k, bisect_right a x = Ok k /\ (k <= length a)%nat /\
    forall j v, nth_error a j = Some v -> (ltb x v = false <-> (j < k)%nat).
Proof.
  intros Hs. unfold bisect_right. rewrite bisect_right_loop_partition.
  destruct (partition_loop_spec (sorted_prefix_le x Hs) (fuel:=length a)
              (lo:=0) (hi:=length a)) as (k & -> & Hk & Hspec).
  - lia.
  - lia.
  - intros; lia.
  - intros j v Hj Hge. assert (nth_error a j = None) as E
      by (apply nth_error_None; lia). congruence.
  - exists k. split; [reflexivity|]. split; [lia|].
    intros j v Hj. rewrite <- (Hspec j v Hj). apply iff_sym, negb_true_iff.
Qed.
End BisectFacts.

(** ** The search helpers on a list sorted by the key *)

Section KeyedSearchFacts.
Context {K A : Type} `{PyOrdLaws K}.
Import BisectHelpers.
Variable key : A -> K.
Variable a : list A.
Hypothesis a_sorted : StronglySorted (fun u v => le (key u) (key v)) a.

Lemma keys_sorted : StronglySorted le (map key a).
Proof.
  clear -a_sorted. induction a_sorted as [|u l Hs IH Hall]; simpl; constructor; auto.
  now apply Forall_map.
Qed.

Lemma nth_key (j : nat) (v : A) :
  nth_error a j = Some v -> nth_error (map key a) j = Some (key v).
Proof. intro E. now rewrite nth_error_map, E. Qed.

Lemma find_le_by_key_sorted (x : K) :
  exists r, find_le_by_key a x key = Ok r /\
    match r with
    | Some v => In v a /\ le (key v) x /\
                forall w, In w a -> le (key w) x -> le (key w) (key v)
    | None => forall w, In w a -> ltb x (key w) = true
    end.
Proof.
  unfold find_le_by_key.
  destruct (bisect_right_sorted x keys_sorted) as (k & -> & Hk & Hspec).
  rewrite length_map in Hk. simpl.
  destruct (k =? 0)%nat eqn:Hk0; simpl.
  - apply Nat.eqb_eq in Hk0. subst k. exists None. split; [reflexivity|].
    intros w Hw. apply In_nth_error in Hw as (j & Hj).
    destruct (ltb x (key w)) eqn:E; [reflexivity|].
    apply (Hspec j (key w) (nth_key _ Hj)) in E. lia.
  - apply Nat.eqb_neq in Hk0.
    destruct (@getitem_lt _ a (k - 1)%nat) as (v & -> & Hv); [lia|]. simpl.
    exists (Some v). split; [reflexivity|]. split; [|split].
    + eapply nth_error_In; eauto.
    + apply (Hspec (k - 1)%nat (key v) (nth_key _ Hv)). lia.
    + intros w Hw Hle. apply In_nth_error in Hw as (j & Hj).
      apply (Hspec j (key w) (nth_key _ Hj)) in Hle.
      apply (sorted_nth keys_sorted (i:=j) (j:=(k - 1)%nat));
        [lia|now apply nth_key|now apply nth_key].
Qed.

Lemma find_gt_by_key_sorted (x : K) :
  exists r, find_gt_by_key a x key = Ok r /\
    match r with
    | Some v => In v a /\ ltb x (key v) = true /\
                forall w, In w a -> ltb x (key w) = true -> le (key v) (key w)
    | None => forall w, In w a -> le (key w) x
    end.
Proof.
  unfold find_gt_by_key.
  destruct (bisect_right_sorted x keys_sorted) as (k & -> & Hk & Hspec).
  rewrite length_map in Hk. simpl.
  destruct (k =? length a)%nat eqn:Hkl; simpl.
  - apply Nat.eqb_eq in Hkl. subst k. exists None. split; [reflexivity|].
    intros w Hw. apply In_nth_error in Hw as (j & Hj).
    apply (Hspec j (key w) (nth_key _ Hj)).
    apply nth_error_Some. congruence.
  - apply Nat.eqb_neq in Hkl.
    destruct (@getitem_lt _ a k) as (v & -> & Hv); [lia|]. simpl.
    exists (Some v). split; [reflexivity|]. split; [|split].
    + eapply nth_error_In; eauto.
    + destruct (ltb x (key v)) eqn:E; [reflexivity|].
      apply (Hspec k (key v) (nth_key _ Hv)) in E. lia.
    + intros w Hw Hlt. apply In_nth_error in Hw as (j & Hj).
      assert (~ (j < k)%nat) as Hjk.
      { intro Hjk. apply (Hspec j (key w) (nth_key _ Hj)) in Hjk. congruence. }
      apply (sorted_nth keys_sorted (i:=k) (j:=j));
        [lia|now apply nth_key|now apply nth_key].
Qed.

Lemma find_lt_by_key_sorted (x : K) :
  exists r, find_lt_by_key a x key = Ok r /\
    match r with
    | Some v => In v a /\ ltb (key v) x = true
    | None => forall w, In w a -> ltb (key w) x = false
    end.
Proof.
  unfold find_lt_by_key.
  destruct (bisect_left_sorted x keys_sorted) as (k & -> & Hk & Hspec).
  rewrite length_map in Hk. simpl.
  destruct (k =? 0)%nat eqn:Hk0; simpl.
  - apply Nat.eqb_eq in Hk0. subst k. exists None. split; [reflexivity|].
    intros w Hw. apply In_nth_error in Hw as (j & Hj).
    destruct (ltb (key w) x) eqn:E; [|reflexivity].
    apply (Hspec j (key w) (nth_key _ Hj)) in E. lia.
  - apply Nat.eqb_neq in Hk0.
    destruct (@getitem_lt _ a (k - 1)%nat) as (v & -> & Hv); [lia|]. simpl.
    exists (Some v). split; [reflexivity|]. split.
    + eapply nth_error_In; eauto.
    + apply (Hspec (k - 1)%nat (key v) (nth_key _ Hv)). lia.
Qed.

Lemma find_ge_by_key_sorted (x : K) :
  exists r, find_ge_by_key a x key = Ok r /\
    match r with
    | Some v => In v a /\ ltb (key v) x = false
    | None => forall w, In w a -> ltb (key w) x = true
    end.
Proof.
  unfold find_ge_by_key.
  destruct (bisect_left_sorted x keys_sorted) as (k & -> & Hk & Hspec).
  rewrite length_map in Hk. simpl.
  destruct (k =? length a)%nat eqn:Hkl; simpl.
  - apply Nat.eqb_eq in Hkl. subst k. exists None. split; [reflexivity|].
    intros w Hw. apply In_nth_error in Hw as (j & Hj).
    apply (Hspec j (key w) (nth_key _ Hj)).
    apply nth_error_Some. congruence.
  - apply Nat.eqb_neq in Hkl.
    destruct (@getitem_lt _ a k) as (v & -> & Hv); [lia|]. simpl.
    exists (Some v). split; [reflexivity|]. split.
    + eapply nth_error_In; eauto.
    + destruct (ltb (key v) x) eqn:E; [|reflexivity].
      apply (Hspec k (key v) (nth_key _ Hv)) in E. lia.
Qed.

(** The exact search returns the leftmost item whose key is [x], and
    [None] exactly when no item has that key. *)
Lemma find_eq_by_key_sorted (x : K) :
  exists r, find_eq_by_key a x key = Ok r /\
    match r with
    | Some v =>
        key v = x /\
        exists i, nth_error a i = Some v /\
          forall j w, (j < i)%nat -> nth_error a j = Some w -> key w <> x
    | None => forall w, In w a -> key w <> x
    end.
Proof.
  unfold find_eq_by_key.
  destruct (bisect_left_sorted x keys_sorted) as (k & -> & Hk & Hspec).
  rewrite length_map in Hk. simpl.
  assert (Hbelow : forall j w, (j < k)%nat -> nth_error a j = Some w -> key w <> x).
  { intros j w Hj Hw E. apply (Hspec j (key w) (nth_key _ Hw)) in Hj.
    rewrite E, ltb_irrefl in Hj. discriminate. }
  assert (Habove : forall j w, (k <= j)%nat -> nth_error a j = Some w -> le x (key w)).
  { intros j w Hj Hw. destruct (ltb (key w) x) eqn:E; [|exact E].
    apply (Hspec j (key w) (nth_key _ Hw)) in E. lia. }
  destruct (k =? length a)%nat eqn:Hkl; simpl.
  - apply Nat.eqb_eq in Hkl. subst k. exists None. split; [reflexivity|].
    intros w Hw. apply In_nth_error in Hw as (j & Hj).
    apply (Hbelow j w); [|exact Hj]. apply nth_error_Some. congruence.
  - apply Nat.eqb_neq in Hkl.
    destruct (@getitem_lt _ a k) as (v & -> & Hv); [lia|]. simpl.
    destruct (eqb (key v) x) eqn:E.
    + apply eqb_eq in E. exists (Some v). split; [reflexivity|].
      split; [exact E|]. exists k. split; [exact Hv|exact Hbelow].
    + apply eqb_neq in E. exists None. split; [reflexivity|].
      intros w Hw Hwx. apply In_nth_error in Hw as (j & Hj).
      destruct (Nat.lt_ge_cases j k) as [Hlt|Hge].
      * exact (Hbelow j w Hlt Hj Hwx).
      * apply E. apply le_antisym.
        -- rewrite <- Hwx.
           apply (sorted_nth keys_sorted (i:=k) (j:=j));
             [lia|now apply nth_key|now apply nth_key].
        -- now apply (Habove k v).
Qed.
End KeyedSearchFacts.

(** ** The plain search helpers *)

Section PlainSearchFacts.
Context {K : Type} `{PyOrdLaws K}.
Import BisectHelpers.

Lemma sorted_by_id (a : list K) :
  StronglySorted le a -> StronglySorted (fun u v : K => le u v) a.
Proof. exact (fun Hs => Hs). Qed.

Lemma find_lt_keyed (a : list K) (x : K) :
  find_lt a x = find_lt_by_key a x (fun v => v).
Proof. unfold find_lt, find_lt_by_key. now rewrite map_id. Qed.

Lemma find_le_keyed (a : list K) (x : K) :
  find_le a x = find_le_by_key a x (fun v => v).
Proof. unfold find_le, find_le_by_key. now rewrite map_id. Qed.

Lemma find_gt_keyed (a : list K) (x : K) :
  find_gt a x = find_gt_by_key a x (fun v => v).
Proof. unfold find_gt, find_gt_by_key. now rewrite map_id. Qed.

Lemma find_ge_keyed (a : list K) (x : K) :
  find_ge a x = find_ge_by_key a x (fun v => v).
Proof. unfold find_ge, find_ge_by_key. now rewrite map_id. Qed.

Lemma index_sorted (a : list K) (x : K) :
  StronglySorted le a ->
  exists r, index a x = Ok r /\
    match r with
    | Some i => nth_error a i = Some x /\
                forall j, (j < i)%nat -> nth_error a j <> Some x
    | None => ~ In x a
    end.
Proof.
  intros Hs.
  destruct (find_eq_by_key_sorted (fun v : K => v) (sorted_by_id Hs) x)
    as (r & Hr & Hspec).
  unfold find_eq_by_key in Hr. rewrite map_id in Hr. unfold index.
  destruct (bisect_left_sorted x Hs) as (k & Hk & Hkl & Hbis).
  rewrite Hk in *. simpl in *.
  destruct (k =? length a)%nat eqn:E; simpl in *.
  - inversion Hr; subst. exists None. split; [reflexivity|].
    intros Hin. exact (Hspec x Hin eq_refl).
  - apply Nat.eqb_neq in E.
    destruct (@getitem_lt _ a k) as (v & Hg & Hv); [lia|].
    rewrite Hg in *. simpl in *.
    destruct (eqb v x) eqn:Ev; inversion Hr; subst.
    + apply eqb_eq in Ev. subst v. exists (Some k). split; [reflexivity|].
      split; [exact Hv|].
      intros j Hj Hjx. apply (Hbis j x Hjx) in Hj.
      rewrite ltb_irrefl in Hj. discriminate.
    + exists None. split; [reflexivity|].
      intros Hin. exact (Hspec x Hin eq_refl).
Qed.
End PlainSearchFacts.

(** C10.  On a sequence [a] sorted in ascending order and for every query
    [x]: when [find_lt a x] and [find_gt a x] both return an element, the
    first is below [x] and the second above it; [index a x] returns a
    position exactly when [x] occurs in [a], that position holds [x] and no
    earlier position does; and each of [index], [find_lt], [find_le],
    [find_gt], [find_ge] returns without raising, its result being [None]
    whenever no element qualifies. *)
Theorem sorted_search_primitives (K : Type) (O : PyOrd K) (L : PyOrdLaws K)
  (a : list K) (x : K) :
  StronglySorted le a ->
  (forall l g,
      BisectHelpers.find_lt a x = Ok (Some l) ->
      BisectHelpers.find_gt a x = Ok (Some g) ->
      ltb l x = true /\ ltb x g = true)
  /\ (exists r, BisectHelpers.index a x = Ok r
        /\ ((exists i, r = Some i) <-> In x a)
        /\ (forall i, r = Some i ->
              nth_error a i = Some x
              /\ forall j, (j < i)%nat -> nth_error a j <> Some x))
  /\ (exists r, BisectHelpers.find_lt a x = Ok r
        /\ ((forall v, In v a -> ltb v x = false) -> r = None))
  /\ (exists r, BisectHelpers.find_le a x = Ok r
        /\ ((forall v, In v a -> ltb x v = true) -> r = None))
  /\ (exists r, BisectHelpers.find_gt a x = Ok r
        /\ ((forall v, In v a -> ltb x v = false) -> r = None))
  /\ (exists r, BisectHelpers.find_ge a x = Ok r
        /\ ((forall v, In v a -> ltb v x = true) -> r = None)).
Proof.
  intros Hs. pose proof (sorted_by_id Hs) as Hid.
  destruct (find_lt_by_key_sorted (fun v : K => v) Hid x) as (rlt & Hlt & Slt).
  destruct (find_le_by_key_sorted (fun v : K => v) Hid x) as (rle & Hle & Sle).
  destruct (find_gt_by_key_sorted (fun v : K => v) Hid x) as (rgt & Hgt & Sgt).
  destruct (find_ge_by_key_sorted (fun v : K => v) Hid x) as (rge & Hge & Sge).
  rewrite <- find_lt_keyed in Hlt. rewrite <- find_le_keyed in Hle.
  rewrite <- find_gt_keyed in Hgt. rewrite <- find_ge_keyed in Hge.
  split; [|split; [|repeat split]].
  - intros l g Hl Hg. rewrite Hlt in Hl. rewrite Hgt in Hg.
    inversion Hl; inversion Hg; subst. tauto.
  - destruct (index_sorted x Hs) as (r & Hr & Sr). exists r.
    split; [exact Hr|]. split.
    + destruct r as [i|].
      * split; [intros _|eauto]. eapply nth_error_In. exact (proj1 Sr).
      * split; [intros (i & Hi); discriminate|intros Hin; contradiction].
    + intros i ->. exact Sr.
  - exists rlt. split; [exact Hlt|]. intros Hnone.
    destruct rlt as [v|]; [|reflexivity].
    destruct Slt as [Hin Hv]. rewrite (Hnone v Hin) in Hv. discriminate.
  - exists rle. split; [exact Hle|]. intros Hnone.
    destruct rle as [v|]; [|reflexivity].
    destruct Sle as (Hin & Hv & _). unfold le in Hv.
    rewrite (Hnone v Hin) in Hv. discriminate.
  - exists rgt. split; [exact Hgt|]. intros Hnone.
    destruct rgt as [v|]; [|reflexivity].
    destruct Sgt as (Hin & Hv & _). rewrite (Hnone v Hin) in Hv. discriminate.
  - exists rge. split; [exact Hge|]. intros Hnone.
    destruct rge as [v|]; [|reflexivity].
    destruct Sge as [Hin Hv]. rewrite (Hnone v Hin) in Hv. discriminate.
Qed.

Lemma sorted_search_primitives_witness :
  StronglySorted le [1; 3; 3; 7]
  /\ (forall l g,
        BisectHelpers.find_lt [1; 3; 3; 7] 3 = Ok (Some l) ->
        BisectHelpers.find_gt [1; 3; 3; 7] 3 = Ok (Some g) ->
        ltb l 3 = true /\ ltb 3 g = true)
  /\ BisectHelpers.find_lt [1; 3; 3; 7] 3 = Ok (Some 1)
  /\ BisectHelpers.find_gt [1; 3; 3; 7] 3 = Ok (Some 7)
  /\ BisectHelpers.index [1; 3; 3; 7] 3 = Ok (Some 1%nat)
  /\ BisectHelpers.find_lt [1; 3; 3; 7] 1 = Ok None.
Proof.
  assert (Hs : StronglySorted le [1; 3; 3; 7]) by (repeat constructor).
  split; [exact Hs|].
  split; [exact (proj1 (sorted_search_primitives PyOrdLaws_Z 3 Hs))|].
  repeat split; reflexivity.
Defined.

(** ** Sums of rationals *)

Definition Qsum (l : list Q) : Q := fold_right Qplus 0%Q l.

Lemma fold_left_Qplus (l : list Q) (acc : Q) :
  (fold_left Qplus l acc == acc + Qsum l)%Q.
Proof.
  revert acc. induction l as [|x l IH]; intros acc; simpl.
  - ring.
  - rewrite IH. ring.
Qed.

Lemma py_sum_Qsum (l : list Q) : (py_sum l == Qsum l)%Q.
Proof. unfold py_sum. rewrite fold_left_Qplus. ring. Qed.

Lemma Qsum_app (l1 l2 : list Q) : (Qsum (l1 ++ l2) == Qsum l1 + Qsum l2)%Q.
Proof.
  induction l1 as [|x l1 IH]; simpl; [ring|]. rewrite IH. ring.
Qed.

Lemma Qsum_perm (l1 l2 : list Q) : Permutation l1 l2 -> (Qsum l1 == Qsum l2)%Q.
Proof.
  induction 1; simpl.
  - reflexivity.
  - now rewrite IHPermutation.
  - ring.
  - now rewrite IHPermutation1.
Qed.

Lemma truthy_false (q : Q) : truthy q = false -> (q == 0)%Q.
Proof.
  unfold truthy. intro E. apply negb_false_iff in E. now apply Qeq_bool_iff.
Qed.

Lemma truthy_true (q : Q) : truthy q = true -> ~ (q == 0)%Q.
Proof.
  unfold truthy. intros E Hq. apply negb_true_iff in E.
  apply Qeq_bool_iff in Hq. congruence.
Qed.

Lemma py_div_Ok (x y : Q) : ~ (y == 0)%Q -> py_div x y = Ok (x / y)%Q.
Proof.
  intro Hy. unfold py_div. destruct (Qeq_bool y 0) eqn:E; [|reflexivity].
  apply Qeq_bool_iff in E. contradiction.
Qed.

(** ** Aggregation of transactions by date *)

Lemma strptimeM_Ok (s : string) (d : datetime) :
  strptimeM s = Ok d <-> strptime s = Some d.
Proof.
  unfold strptimeM. destruct (strptime s); split; intro E; inversion E; reflexivity.
Qed.

(** A transaction is selected by a type filter when no filter is given or
    when its type is the one asked for. *)
Definition matches_filter (transaction_type_id : option Z) (t : Transaction)
  : bool :=
  match transaction_type_id with
  | None => true
  | Some f =>
      match transactionTypeId t with
      | Some ty => ty =? f
      | None => false
      end
  end.

(** The total of a list of transactions, a null value counting as 0. *)
Definition total_value (l : list Transaction) : Q :=
  Qsum (map (fun t => or_zero (txn_value t)) l).

(** Calendar order of two textual dates, both of which parse. *)
Definition date_le (a b : CashFlow) : Prop :=
  exists da db, strptime (cf_date a) = Some da
                /\ strptime (cf_date b) = Some db /\ le da db.

Section AggregateFacts.
Context {so : SetOrder}.
Import TransactionUtils.

Definition group_value (T : list Transaction) (d : string) : Q :=
  py_sum (map (fun txn => or_zero (snd txn)) (group_of T d)).

Lemma sum_group_of (T : list Transaction) (d : string) :
  In d (map txn_date T) ->
  sum_group (group_of T d) = Some (mkCashFlow d (group_value T d)).
Proof.
  intros Hin. unfold group_value.
  assert (Hne : exists g l, group_of T d = g :: l /\ fst g = d).
  { unfold group_of. apply in_map_iff in Hin as (t & Ht & Hin).
    induction T as [|u T IH]; [contradiction|]. simpl.
    destruct (String.eqb (txn_date u) d) eqn:E.
    - apply String.eqb_eq in E. simpl. eauto.
    - destruct Hin as [->|Hin]; [|auto].
      rewrite Ht, String.eqb_refl in E. discriminate. }
  destruct Hne as (g & l & -> & Hg). simpl. now rewrite Hg.
Qed.

Lemma some_flow_inv (l : list (option CashFlow)) (out : list CashFlow) :
  mapM some_flow l = Ok out -> l = map Some out.
Proof.
  revert out. induction l as [|x l IH]; simpl; intros out E.
  - now inversion E.
  - apply bind_Ok_inv in E as (c & Hc & E).
    apply bind_Ok_inv in E as (cs & Hcs & E). inversion E; subst.
    destruct x; inversion Hc; subst. simpl. f_equal. auto.
Qed.

Lemma some_flow_map (out : list CashFlow) :
  mapM some_flow (map Some out) = Ok out.
Proof.
  induction out as [|c out IH]; simpl; [reflexivity|]. now rewrite IH.
Qed.

Lemma map_Some_inj {A : Type} (l1 l2 : list A) :
  map Some l1 = map Some l2 -> l1 = l2.
Proof.
  revert l2. induction l1 as [|x l1 IH]; intros [|y l2] E; simpl in *;
    try discriminate; [reflexivity|].
  inversion E; subst. f_equal. auto.
Qed.

(** The part of [aggregate_transactions_by_date] that follows the
    filter. *)
Definition aggregate_filtered (T : list Transaction) : result (list CashFlow) :=
  sorted_transactions <-
    py_sortedM summed_key
      (map sum_group (map (group_of T) (set_iter (map txn_date T)))) ;;
  mapM some_flow sorted_transactions.

Lemma summed_as_flows (T : list Transaction) :
  map sum_group (map (group_of T) (set_iter (map txn_date T)))
  = map Some (map (fun d => mkCashFlow d (group_value T d))
                  (set_iter (map txn_date T))).
Proof.
  rewrite !map_map. apply map_ext_in. intros d Hd.
  apply sum_group_of.
  eapply Permutation_in in Hd; [|apply set_iter_perm].
  now apply nodup_In in Hd.
Qed.

Lemma aggregate_filtered_Ok (T : list Transaction) :
  Forall (fun t => strptime (txn_date t) <> None) T ->
  exists out, aggregate_filtered T = Ok out
    /\ Permutation out (map (fun d => mkCashFlow d (group_value T d))
                            (nodup string_dec (map txn_date T)))
    /\ StronglySorted date_le out.
Proof.
  intros Hwf. unfold aggregate_filtered. rewrite summed_as_flows.
  set (flows := map (fun d => mkCashFlow d (group_value T d))
                    (set_iter (map txn_date T))).
  destruct (py_sortedM_total summed_key (map Some flows)) as (srt & Hsrt).
  { intros x Hx. apply in_map_iff in Hx as (c & <- & Hc).
    apply in_map_iff in Hc as (d & <- & Hd). simpl.
    eapply Permutation_in in Hd; [|apply set_iter_perm].
    apply nodup_In, in_map_iff in Hd as (t & <- & Ht).
    rewrite Forall_forall in Hwf. specialize (Hwf t Ht).
    unfold strptimeM. destruct (strptime (txn_date t)); [eauto|congruence]. }
  rewrite Hsrt. simpl.
  apply py_sortedM_Ok in Hsrt as [Hperm Hsorted].
  apply Permutation_map_inv in Hperm as (out & -> & Hperm).
  exists out. rewrite some_flow_map. split; [reflexivity|]. split.
  - rewrite <- Hperm. unfold flows. apply Permutation_map, set_iter_perm.
  - clear -Hsorted. induction out as [|c out IH]; [constructor|].
    simpl in Hsorted. inversion Hsorted as [|? ? Hs Hall]; subst.
    constructor; [auto|].
    rewrite Forall_map in Hall. eapply Forall_impl; [|exact Hall].
    intros b (da & db & Ha & Hb & Hle). simpl in Ha, Hb.
    apply strptimeM_Ok in Ha, Hb. exists da, db. auto.
Qed.

Lemma delta_sum (v : Q) (d0 : string) (ds : list string) :
  NoDup ds -> In d0 ds ->
  (Qsum (map (fun d => if String.eqb d0 d then v else 0%Q) ds) == v)%Q.
Proof.
  induction 1 as [|d ds Hnin Hnd IH]; intros Hin; [contradiction|]. simpl.
  destruct (String.eqb d0 d) eqn:E.
  - apply String.eqb_eq in E. subst d.
    assert (E0 : (Qsum (map (fun d => if String.eqb d0 d then v else 0%Q) ds) == 0)%Q).
    { clear -Hnin. induction ds as [|d ds IH]; simpl; [reflexivity|].
      destruct (String.eqb d0 d) eqn:E.
      - apply String.eqb_eq in E. subst. exfalso. apply Hnin. now left.
      - rewrite IH; [ring|]. intro Hd. apply Hnin. now right. }
    rewrite E0. ring.
  - destruct Hin as [->|Hin]; [rewrite String.eqb_refl in E; discriminate|].
    rewrite IH by assumption. ring.
Qed.

Lemma group_value_cons (t : Transaction) (T : list Transaction) (d : string) :
  (group_value (t :: T) d
   == (if String.eqb (txn_date t) d then or_zero (txn_value t) else 0)
      + group_value T d)%Q.
Proof.
  unfold group_value, group_of. simpl.
  destruct (String.eqb (txn_date t) d); simpl.
  - rewrite !py_sum_Qsum. simpl. reflexivity.
  - ring.
Qed.

Lemma Qsum_map_plus {A : Type} (f g : A -> Q) (l : list A) :
  (Qsum (map (fun x => f x + g x) l) == Qsum (map f l) + Qsum (map g l))%Q.
Proof.
  induction l as [|x l IH]; simpl; [ring|]. rewrite IH. ring.
Qed.

Lemma Qsum_map_ext {A : Type} (f g : A -> Q) (l : list A) :
  (forall x, (f x == g x)%Q) -> (Qsum (map f l) == Qsum (map g l))%Q.
Proof.
  intros E. induction l as [|x l IH]; simpl; [reflexivity|].
  now rewrite IH, E.
Qed.

(** Summing the groups of every date gives the total of the list. *)
Lemma groups_total (T : list Transaction) (ds : list string) :
  NoDup ds -> incl (map txn_date T) ds ->
  (Qsum (map (group_value T) ds) == total_value T)%Q.
Proof.
  intros Hnd. induction T as [|t T IH]; intros Hincl.
  - unfold total_value. simpl. clear. induction ds as [|d ds IH]; simpl;
      [reflexivity|]. rewrite IH. unfold group_value. simpl. reflexivity.
  - rewrite (Qsum_map_ext _ _ ds (group_value_cons t T)).
    rewrite Qsum_map_plus, delta_sum; [|assumption|apply Hincl; now left].
    rewrite IH; [reflexivity|].
    intros d Hd. apply Hincl. now right.
Qed.

Lemma filterM_has_type (f : Z) (l : list Transaction) :
  Forall (fun t => transactionTypeId t <> None) l ->
  filterM (has_type f) l = Ok (filter (matches_filter (Some f)) l).
Proof.
  induction 1 as [|t l Ht Hl IH]; simpl; [reflexivity|].
  unfold has_type at 1. destruct (transactionTypeId t) as [ty|]; [|congruence].
  simpl. rewrite IH. simpl. reflexivity.
Qed.

Lemma filter_none (l : list Transaction) :
  filter (matches_filter None) l = l.
Proof.
  induction l as [|t l IH]; simpl; [reflexivity|]. now rewrite IH.
Qed.

(** After the entry check and the filter, the function is
    [aggregate_filtered] on the selected transactions. *)
Lemma aggregate_unfold (transactions : list Transaction) (f : option Z) :
  f <> Some 0 ->
  (f <> None -> Forall (fun t => transactionTypeId t <> None) transactions) ->
  aggregate_transactions_by_date transactions f
  = aggregate_filtered (filter (matches_filter f) transactions).
Proof.
  intros Hf Hty. unfold aggregate_transactions_by_date.
  destruct f as [t|]; cbn [filter_requested].
  - destruct (t =? 0) eqn:E; [apply Z.eqb_eq in E; congruence|].
    assert (Hall := Hty ltac:(discriminate)).
    rewrite (filterM_has_type t Hall).
    destruct transactions as [|t0 l]; [reflexivity|].
    inversion Hall as [|? ? Ht0 Hl]; subst.
    destruct (transactionTypeId t0) eqn:E0; [|congruence]. reflexivity.
  - rewrite filter_none. destruct transactions; reflexivity.
Qed.
End AggregateFacts.

(** C9 (amended).  For every transaction list and every type filter that is
    absent or a non-zero identifier, when the selected transactions carry
    well-formed dates (and, under a filter, every transaction carries a
    type), [aggregate_transactions_by_date] returns a list with exactly one
    record per distinct date of the selected transactions, whose values sum
    to the total of the selected values (a null value counting as 0), and
    which is sorted in ascending calendar order of the parsed dates. *)
Theorem aggregate_transactions_by_date_spec (so : SetOrder)
  (transactions : list Transaction) (transaction_type_id : option Z) :
  transaction_type_id <> Some 0 ->
  Forall (fun t => strptime (txn_date t) <> None)
         (filter (matches_filter transaction_type_id) transactions) ->
  (transaction_type_id <> None ->
   Forall (fun t => transactionTypeId t <> None) transactions) ->
  exists out,
    TransactionUtils.aggregate_transactions_by_date transactions
      transaction_type_id = Ok out
    /\ NoDup (map cf_date out)
    /\ (forall d, In d (map cf_date out) <->
                  In d (map txn_date
                          (filter (matches_filter transaction_type_id)
                                  transactions)))
    /\ (Qsum (map cf_value out)
        == total_value (filter (matches_filter transaction_type_id)
                               transactions))%Q
    /\ StronglySorted date_le out.
Proof.
  intros Hf Hdates Hty.
  rewrite (aggregate_unfold Hf Hty).
  set (T := filter (matches_filter transaction_type_id) transactions) in *.
  destruct (aggregate_filtered_Ok Hdates) as (out & -> & Hperm & Hsorted).
  exists out. split; [reflexivity|].
  assert (Hd : Permutation (map cf_date out) (nodup string_dec (map txn_date T))).
  { rewrite Hperm, map_map. simpl. now rewrite map_id. }
  split; [|split; [|split]].
  - eapply Permutation_NoDup; [symmetry; exact Hd|apply NoDup_nodup].
  - intros d. split; intro Hin.
    + apply (nodup_In string_dec). eapply Permutation_in; [exact Hd|exact Hin].
    + eapply Permutation_in; [symmetry; exact Hd|]. now apply nodup_In.
  - rewrite (Qsum_perm (Permutation_map cf_value Hperm)), map_map. simpl.
    apply groups_total; [apply NoDup_nodup|].
    intros d Hin. now apply nodup_In.
  - exact Hsorted.
Qed.

Definition sample_transactions : list Transaction :=
  [mkTransaction "2020-10-01" (Some 5%Q) (Some 1);
   mkTransaction "2020-9-01" (Some 2%Q) (Some 1);
   mkTransaction "2020-10-01" None (Some 1);
   mkTransaction "2020-10-01" (Some 4%Q) (Some 2);
   mkTransaction "2020-9-01" (Some 1%Q) (Some 1)].

Lemma aggregate_transactions_by_date_spec_witness :
  exists out,
    @TransactionUtils.aggregate_transactions_by_date insertion_order
      sample_transactions (Some 1) = Ok out
    /\ NoDup (map cf_date out)
    /\ (forall d, In d (map cf_date out) <->
                  In d (map txn_date
                          (filter (matches_filter (Some 1)) sample_transactions)))
    /\ (Qsum (map cf_value out)
        == total_value (filter (matches_filter (Some 1%Z)) sample_transactions))%Q
    /\ StronglySorted date_le out.
Proof.
  apply aggregate_transactions_by_date_spec.
  - discriminate.
  - vm_compute. repeat constructor; discriminate.
  - intros _. repeat constructor; discriminate.
Defined.

(** The order of the result is the calendar order even where the textual
    order of the dates differs: "2020-10-01" sorts before "2020-9-01" as a
    string and after it as a date. *)
Example aggregate_calendar_order :
  @TransactionUtils.aggregate_transactions_by_date insertion_order
    sample_transactions (Some 1)
  = Ok [mkCashFlow "2020-9-01" (0 + 2 + 1); mkCashFlow "2020-10-01" (0 + 5 + 0)]
  /\ String.ltb "2020-10-01" "2020-9-01" = true.
Proof. split; reflexivity. Qed.

(** C9 as stated fails for the type identifier 0: the test
    [if transaction_type_id:] takes it for an absent filter, nothing is
    filtered out, and the result sums the transactions of every type. *)
Lemma aggregate_zero_filter_counterexample :
  let transactions :=
    [mkTransaction "2020-01-01" (Some 1%Q) (Some 0);
     mkTransaction "2020-01-01" (Some 2%Q) (Some 1)] in
  exists out,
    @TransactionUtils.aggregate_transactions_by_date insertion_order
      transactions (Some 0) = Ok out
    /\ ~ (Qsum (map cf_value out)
          == total_value (filter (matches_filter (Some 0%Z)) transactions))%Q.
Proof.
  simpl. eexists. split; [reflexivity|]. vm_compute. discriminate.
Qed.

(** A filter of 0 behaves as no filter at all. *)
Lemma aggregate_zero_filter (so : SetOrder) (transactions : list Transaction) :
  TransactionUtils.aggregate_transactions_by_date transactions (Some 0)
  = TransactionUtils.aggregate_transactions_by_date transactions None.
Proof.
  unfold TransactionUtils.aggregate_transactions_by_date. simpl.
  destruct transactions; reflexivity.
Qed.

(** ** XIRR *)




Definition xirr_lo : Q := (-999 # 1000)%Q.


Section XirrFacts.
Context {num : Numerics}.
Import XirrsUtils.



Lemma forallb_nonneg (l : list CashFlow) :
  forallb (fun x => Qle_bool 0 (cf_value x)) l = true
  <-> Forall (fun x => (0 <= cf_value x)%Q) l.
Proof.
  rewrite forallb_forall, Forall_forall.
  split; intros E x Hx; apply Qle_bool_iff; auto.
Qed.

Lemma forallb_nonpos (l : list CashFlow) :
  forallb (fun x => Qle_bool (cf_value x) 0) l = true
  <-> Forall (fun x => (cf_value x <= 0)%Q) l.
Proof.
  rewrite forallb_forall, Forall_forall.
  split; intros E x Hx; apply Qle_bool_iff; auto.
Qed.

Lemma not_all_nonneg (l : list CashFlow) :
  Exists (fun x => (cf_value x < 0)%Q) l ->
  forallb (fun x => Qle_bool 0 (cf_value x)) l = false.
Proof.
  intros Hex. destruct (forallb _ l) eqn:E; [|reflexivity].
  apply forallb_nonneg in E. apply Exists_exists in Hex as (x & Hx & Hlt).
  rewrite Forall_forall in E. exfalso. exact (Qlt_not_le _ _ Hlt (E x Hx)).
Qed.


Lemma sorted_Forall (P : CashFlow -> Prop) (l : list CashFlow) :
  Forall P l -> Forall P (py_sorted cf_date l).
Proof.
  intro Hl. eapply Permutation_Forall; [symmetry; apply py_sorted_perm|exact Hl].
Qed.

Lemma sorted_Exists (P : CashFlow -> Prop) (l : list CashFlow) :
  Exists P l -> Exists P (py_sorted cf_date l).
Proof.
  intro Hl. apply Exists_exists in Hl as (x & Hx & HP). apply Exists_exists.
  exists x. split; [|exact HP].
  eapply Permutation_in; [symmetry; apply py_sorted_perm|exact Hx].
Qed.
End XirrFacts.

(** C2 (amended).  When every value is [>= 0], [calculate_xirr] returns
    [None], the "undefined" result; when every value is [<= 0] and at least
    one is negative, it returns exactly -1.  Both hold for every root-finder,
    also one that fails on each call: the solver is not reached. *)
Theorem calculate_xirr_sentinels (num : Numerics) (transactions : list CashFlow) :
  (Forall (fun x => (0 <= cf_value x)%Q) transactions ->
   XirrsUtils.calculate_xirr transactions = Ok None)
  /\ (Forall (fun x => (cf_value x <= 0)%Q) transactions ->
      Exists (fun x => (cf_value x < 0)%Q) transactions ->
      XirrsUtils.calculate_xirr transactions = Ok (Some (-1)%Q)).
Proof.
  unfold XirrsUtils.calculate_xirr. split.
  - intros Hall. apply sorted_Forall, forallb_nonneg in Hall.
    now rewrite Hall.
  - intros Hall Hex.
    apply sorted_Exists, not_all_nonneg in Hex. rewrite Hex.
    apply sorted_Forall, forallb_nonpos in Hall. now rewrite Hall.
Qed.

Lemma calculate_xirr_sentinels_witness :
  Forall (fun x => (0 <= cf_value x)%Q)
         [mkCashFlow "2020-01-01" 100; mkCashFlow "2021-01-01" 0]
  /\ @XirrsUtils.calculate_xirr failing_solver
       [mkCashFlow "2020-01-01" 100; mkCashFlow "2021-01-01" 0] = Ok None
  /\ Forall (fun x => (cf_value x <= 0)%Q)
         [mkCashFlow "2020-01-01" (-100); mkCashFlow "2021-01-01" 0]
  /\ Exists (fun x => (cf_value x < 0)%Q)
         [mkCashFlow "2020-01-01" (-100); mkCashFlow "2021-01-01" 0]
  /\ @XirrsUtils.calculate_xirr failing_solver
       [mkCashFlow "2020-01-01" (-100); mkCashFlow "2021-01-01" 0]
     = Ok (Some (-1)%Q).
Proof.
  assert (H1 : Forall (fun x => (0 <= cf_value x)%Q)
                 [mkCashFlow "2020-01-01" 100; mkCashFlow "2021-01-01" 0])
    by (repeat constructor; simpl; discriminate).
  assert (H2 : Forall (fun x => (cf_value x <= 0)%Q)
                 [mkCashFlow "2020-01-01" (-100); mkCashFlow "2021-01-01" 0])
    by (repeat constructor; simpl; discriminate).
  assert (H3 : Exists (fun x => (cf_value x < 0)%Q)
                 [mkCashFlow "2020-01-01" (-100); mkCashFlow "2021-01-01" 0])
    by (left; reflexivity).
  split; [exact H1|].
  split; [exact (proj1 (calculate_xirr_sentinels failing_solver _) H1)|].
  split; [exact H2|]. split; [exact H3|].
  exact (proj2 (calculate_xirr_sentinels failing_solver _) H2 H3).
Defined.

(** C2 as stated fails where its two cases overlap: on the empty list and
    on a list of zeros every value is [<= 0], and the result is [None], not
    -1, because the test for [>= 0] comes first. *)
Lemma calculate_xirr_all_zero_counterexample :
  Forall (fun x => (cf_value x <= 0)%Q) [mkCashFlow "2020-01-01" 0]
  /\ @XirrsUtils.calculate_xirr whole_years [mkCashFlow "2020-01-01" 0]
     <> Ok (Some (-1)%Q)
  /\ Forall (fun x => (cf_value x <= 0)%Q) []
  /\ @XirrsUtils.calculate_xirr whole_years [] <> Ok (Some (-1)%Q).
Proof.
  split; [repeat constructor; simpl; discriminate|].
  split; [vm_compute; discriminate|].
  split; [constructor|vm_compute; discriminate].
Qed.

Section XirrBracket.
Context {num : Numerics}.
Import XirrsUtils.






(** A discount factor that underflows to 0.0 makes the [reduce] raise. *)
Lemma xirr_objective_underflow (arr : list TimedValue) (r : Q) :
  Forall (fun y => exists p,
            fpow (1 + r) (inject_Z (time_diff_days y) / 365) = Ok p) arr ->
  Exists (fun y => exists p,
            fpow (1 + r) (inject_Z (time_diff_days y) / 365) = Ok p
            /\ (p == 0)%Q) arr ->
  xirr_objective arr r = Raise ZeroDivisionError.
Proof.
  intros Hall Hex. unfold xirr_objective. generalize 0%Q as acc.
  induction Hall as [|y arr (p & Hp) Hall IH]; intros acc; [inversion Hex|].
  cbn [foldM]. rewrite Hp. cbn [bind]. unfold py_div.
  destruct (Qeq_bool p 0) eqn:E; [reflexivity|]. cbn [bind].
  apply IH. inversion Hex as [? ? (q & Hq & Hz)|]; subst; [|assumption].
  rewrite Hp in Hq. inversion Hq; subst q.
  apply Qeq_bool_iff in Hz. congruence.
Qed.


End XirrBracket.


Definition doubling_flows : list CashFlow :=
  [mkCashFlow "2020-12-31" 200; mkCashFlow "2020-01-01" (-100)].


(** C3 as stated fails on flows that lie far apart: 110 years after the
    first flow the discount factor [0.001 ^ 110] at the rate -0.999 is below
    the range of a double and is rounded to 0.0, and the division of the
    flow by it raises [ZeroDivisionError]; no root and no "undefined" result
    is returned. *)
Lemma calculate_xirr_underflow_counterexample :
  let flows := [mkCashFlow "1900-01-01" (-100); mkCashFlow "2009-12-05" 200] in
  Exists (fun x => (0 < cf_value x)%Q) flows
  /\ Exists (fun x => (cf_value x < 0)%Q) flows
  /\ Forall (fun x => strptime (cf_date x) <> None) flows
  /\ @fpow double_range (1 + xirr_lo) (inject_Z (110 * 365) / 365) = Ok 0%Q
  /\ @XirrsUtils.calculate_xirr double_range flows = Raise ZeroDivisionError.
Proof.
  simpl. split; [right; left; reflexivity|]. split; [left; reflexivity|].
  split; [repeat constructor; vm_compute; discriminate|].
  split; vm_compute; reflexivity.
Qed.

(** 100 paid out and 200 received 365 days later: the objective is
    [-100 + 200 / (1 + r)], positive at -0.999 and negative at 100, and the
    solver is called; the bisection that stands for it here ends within
    10^-9 of the rate 1. *)
Example calculate_xirr_doubling :
  exists root,
    @XirrsUtils.calculate_xirr whole_years doubling_flows = Ok (Some root)
    /\ (Qabs (root - 1) < 1 # 1000000000)%Q.
Proof.
  eexists. split; [vm_compute; reflexivity|]. vm_compute. reflexivity.
Qed.

(** Both evaluations negative: [-1 + 3/(1+r) - 1/(1+r)^2] has two roots
    between the bounds, and the result is [None]. *)
Example calculate_xirr_same_sign :
  @XirrsUtils.calculate_xirr whole_years
    [mkCashFlow "2019-01-01" (-1); mkCashFlow "2020-01-01" 3;
     mkCashFlow "2020-12-31" (-1)] = Ok None.
Proof. vm_compute. reflexivity. Qed.

(** ** Loops *)

(** The rule of the loop invariant for a [for] loop whose body may raise:
    [Inv s done] relates the state to the items already visited. *)
Lemma foldM_invariant {S A : Type} (step : S -> A -> result S)
  (Pre : A -> Prop) (Inv : S -> list A -> Prop) :
  (forall s done x, Inv s done -> Pre x ->
     exists s', step s x = Ok s' /\ Inv s' (done ++ [x])) ->
  forall l s done, Forall Pre l -> Inv s done ->
    exists s', foldM step l s = Ok s' /\ Inv s' (done ++ l).
Proof.
  intros Hstep. induction l as [|x l IH]; intros s done Hpre Hinv; simpl.
  - exists s. rewrite app_nil_r. auto.
  - inversion Hpre as [|? ? Hx Hl]; subst.
    destruct (Hstep s done x Hinv Hx) as (s1 & -> & Hinv1). simpl.
    destruct (IH s1 (done ++ [x]) Hl Hinv1) as (s' & -> & Hinv').
    exists s'. rewrite <- app_assoc in Hinv'. auto.
Qed.

Lemma nth_error_snoc_last {A : Type} (l : list A) (x : A) :
  nth_error (l ++ [x]) (length l) = Some x.
Proof. rewrite nth_error_app2 by lia. now rewrite Nat.sub_diag. Qed.

Lemma nth_error_snoc_lt {A : Type} (l : list A) (x : A) (i : nat) :
  (i < length l)%nat -> nth_error (l ++ [x]) i = nth_error l i.
Proof. intro Hi. now apply nth_error_app1. Qed.

Lemma nth_error_snoc_inv {A : Type} (l : list A) (x y : A) (i : nat) :
  nth_error (l ++ [x]) i = Some y ->
  ((i < length l)%nat /\ nth_error l i = Some y) \/ (i = length l /\ y = x).
Proof.
  intro E. destruct (Nat.lt_ge_cases i (length l)) as [Hlt|Hge].
  - left. split; [exact Hlt|]. now rewrite nth_error_app1 in E.
  - right. rewrite nth_error_app2 in E by exact Hge.
    destruct (i - length l)%nat as [|k] eqn:Ek; simpl in E.
    + inversion E. split; [lia|reflexivity].
    + destruct k; discriminate.
Qed.

(** ** The PME loops *)

(** The transactions that [PmeUtils] accepts: every date is well formed and
    every transaction carries a type. *)
Definition wf_transactions (l : list Transaction) : Prop :=
  Forall (fun t => strptime (txn_date t) <> None /\ transactionTypeId t <> None) l.

(** The value that the exact search by date finds in a list of aggregated
    flows, 0 when it finds none. *)
Definition net_on (flows : list DatedFlow) (d : datetime) : Q :=
  match BisectHelpers.find_eq_by_key flows d df_date with
  | Ok (Some f) => df_value f
  | _ => 0%Q
  end.

Section PmeFacts.
Context {so : SetOrder} {num : Numerics} {enum : TransactionTypeEnum}.
Import PmeUtils.

Lemma find_eq_by_key_total {A : Type} (a : list A) (x : datetime) (key : A -> datetime) :
  exists r, BisectHelpers.find_eq_by_key a x key = Ok r.
Proof.
  unfold BisectHelpers.find_eq_by_key.
  destruct (bisect_left_total (map key a) x) as (k & -> & Hk).
  rewrite length_map in Hk. simpl.
  destruct (k =? length a)%nat eqn:E; simpl; [now exists None|].
  apply Nat.eqb_neq in E.
  destruct (@getitem_lt _ a k) as (v & -> & _); [lia|]. simpl.
  destruct (datetime_eqb (key v) x); [now exists (Some v)|now exists None].
Qed.

Lemma find_le_by_key_total {A : Type} (a : list A) (x : datetime) (key : A -> datetime) :
  exists r, BisectHelpers.find_le_by_key a x key = Ok r.
Proof.
  unfold BisectHelpers.find_le_by_key.
  destruct (bisect_right_total (map key a) x) as (k & -> & Hk).
  rewrite length_map in Hk. simpl.
  destruct (k =? 0)%nat eqn:E; simpl; [now exists None|].
  apply Nat.eqb_neq in E.
  destruct (@getitem_lt _ a (k - 1)%nat) as (v & -> & _); [lia|]. simpl.
  now exists (Some v).
Qed.

(** What the exact search contributes to a running value. *)
Lemma find_eq_net_on (flows : list DatedFlow) (d : datetime) :
  exists r, BisectHelpers.find_eq_by_key flows d df_date = Ok r
            /\ value_or_zero r = net_on flows d.
Proof.
  unfold net_on. destruct (find_eq_by_key_total flows d df_date) as (r & ->).
  exists r. split; [reflexivity|]. now destruct r.
Qed.

Lemma wf_dates (l : list Transaction) (f : option Z) :
  wf_transactions l ->
  Forall (fun t => strptime (txn_date t) <> None) (filter (matches_filter f) l).
Proof.
  intros Hwf. apply Forall_forall. intros t Ht. apply filter_In in Ht as [Ht _].
  unfold wf_transactions in Hwf. rewrite Forall_forall in Hwf.
  now apply Hwf.
Qed.

Lemma wf_types (l : list Transaction) :
  wf_transactions l -> Forall (fun t => transactionTypeId t <> None) l.
Proof. intro Hwf. eapply Forall_impl; [|exact Hwf]. now intros t [_ Ht]. Qed.

Lemma aggregate_wf_Ok (l : list Transaction) (t : Z) :
  wf_transactions l ->
  exists out,
    TransactionUtils.aggregate_transactions_by_date l (Some t) = Ok out
    /\ Forall (fun c => strptime (cf_date c) <> None) out.
Proof.
  intros Hwf.
  assert (G : forall f, f <> Some 0 ->
    exists out, TransactionUtils.aggregate_transactions_by_date l f = Ok out
                /\ Forall (fun c => strptime (cf_date c) <> None) out).
  { intros f Hf.
    rewrite (aggregate_unfold Hf (fun _ => wf_types Hwf)).
    destruct (aggregate_filtered_Ok (wf_dates f Hwf)) as (out & -> & Hperm & _).
    exists out. split; [reflexivity|].
    eapply Permutation_Forall; [symmetry; exact Hperm|].
    apply Forall_map, Forall_forall. intros d Hd. simpl.
    apply nodup_In, in_map_iff in Hd as (u & <- & Hu).
    pose proof (wf_dates f Hwf) as Hdates. rewrite Forall_forall in Hdates.
    now apply Hdates. }
  destruct (Z.eq_dec t 0) as [->|Hne].
  - rewrite aggregate_zero_filter. apply G. discriminate.
  - apply G. congruence.
Qed.

Lemma aggregated_by_date_Ok (l : list Transaction) (t : Z) :
  wf_transactions l -> exists flows, aggregated_by_date l t = Ok flows.
Proof.
  intros Hwf. unfold aggregated_by_date.
  destruct (aggregate_wf_Ok t Hwf) as (out & -> & Hdates). simpl.
  apply mapM_total. intros c Hc. rewrite Forall_forall in Hdates.
  specialize (Hdates c Hc). unfold strptimeM.
  destruct (strptime (cf_date c)); [simpl; eauto|congruence].
Qed.

(** The [dpi]/[rvpi]/[tvpi] block never divides by zero and changes no
    other field. *)
Lemma fill_tvpi_Ok (calculate_tvpi : bool) (cc n1 n2 : Q) (b : BenchmarkReturn) :
  exists b', fill_tvpi calculate_tvpi cc n1 n2 b = Ok b'
    /\ br_date b' = br_date b /\ balance b' = balance b
    /\ timeWeightedReturn b' = timeWeightedReturn b
    /\ kaplanSchoarMultiple b' = kaplanSchoarMultiple b
    /\ xirr b' = xirr b.
Proof.
  unfold fill_tvpi. destruct calculate_tvpi; simpl.
  - destruct (truthy cc) eqn:E.
    + apply truthy_true in E. rewrite !py_div_Ok by exact E. simpl.
      eexists. split; [reflexivity|]. simpl. auto.
    + eexists. split; [reflexivity|]. simpl. auto.
  - eexists. split; [reflexivity|]. auto.
Qed.
End PmeFacts.

Lemma Forall2_In_l {A B : Type} (R : A -> B -> Prop) (l : list A) (l' : list B) (x : A) :
  Forall2 R l l' -> In x l -> exists y, In y l' /\ R x y.
Proof.
  induction 1 as [|a b l l' Hab Hl IH]; intros Hin; [contradiction|].
  destruct Hin as [->|Hin].
  - exists b. split; [now left|assumption].
  - destruct (IH Hin) as (y & Hy & Hxy). exists y. split; [now right|assumption].
Qed.

Lemma Forall2_In_r {A B : Type} (R : A -> B -> Prop) (l : list A) (l' : list B) (y : B) :
  Forall2 R l l' -> In y l' -> exists x, In x l /\ R x y.
Proof.
  induction 1 as [|a b l l' Hab Hl IH]; intros Hin; [contradiction|].
  destruct Hin as [->|Hin].
  - exists a. split; [now left|assumption].
  - destruct (IH Hin) as (x & Hx & Hxy). exists x. split; [now right|assumption].
Qed.

(** ** What the exact search finds in the aggregated flows *)

(** The transaction [u] is dated [d]. *)
Definition on_date (d : datetime) (u : Transaction) : bool :=
  match strptime (txn_date u) with
  | Some d' => datetime_eqb d' d
  | None => false
  end.

(** Every date is written in one way only. *)
Definition one_spelling (l : list Transaction) : Prop :=
  forall u u', In u l -> In u' l ->
    strptime (txn_date u) = strptime (txn_date u') -> txn_date u = txn_date u'.

(** The transactions of type [t] that are dated [d], and the total of
    their values (a null value counting as 0). *)
Definition dated (transactions : list Transaction) (t : Z) (d : datetime)
  : list Transaction :=
  filter (fun u => matches_filter (Some t) u && on_date d u) transactions.

Definition flows_on (transactions : list Transaction) (t : Z) (d : datetime)
  : Q :=
  total_value (dated transactions t d).

Section NetOnFacts.
Context {so : SetOrder}.
Import TransactionUtils.

Lemma parsed_flows_sorted (out : list CashFlow) (flows : list DatedFlow) :
  Forall2 (fun c f => strptime (cf_date c) = Some (df_date f)
                      /\ df_value f = cf_value c) out flows ->
  StronglySorted date_le out ->
  StronglySorted (fun u v => le (df_date u) (df_date v)) flows.
Proof.
  induction 1 as [|c f out flows [Hc Hv] Hrest IH]; intros Hs; [constructor|].
  inversion Hs as [|? ? Hs' Hall]; subst. constructor; [auto|].
  apply Forall_forall. intros f' Hf'.
  destruct (@Forall2_In_r _ _ _ _ _ f' Hrest Hf') as (c' & Hc' & Hd' & _).
  rewrite Forall_forall in Hall.
  destruct (Hall c' Hc') as (da & db & Ha & Hb & Hle).
  rewrite Hc in Ha. rewrite Hd' in Hb. inversion Ha; inversion Hb; subst.
  exact Hle.
Qed.

Lemma group_value_total (T : list Transaction) (s : string) :
  (group_value T s
   == total_value (filter (fun u => String.eqb (txn_date u) s) T))%Q.
Proof.
  unfold group_value, total_value, group_of. rewrite py_sum_Qsum, map_map.
  reflexivity.
Qed.

Lemma on_date_spec (d : datetime) (u : Transaction) :
  on_date d u = true <-> strptime (txn_date u) = Some d.
Proof.
  unfold on_date. destruct (strptime (txn_date u)) as [d'|].
  - change (datetime_eqb d' d) with (eqb d' d). rewrite eqb_eq.
    split; congruence.
  - split; discriminate.
Qed.

Lemma total_value_nil (T : list Transaction) (p : Transaction -> bool) :
  (forall u, In u T -> p u = false) -> (total_value (filter p T) == 0)%Q.
Proof.
  intros Hp. induction T as [|u T IH]; simpl; [reflexivity|].
  rewrite (Hp u) by now left. apply IH. intros u' Hu'. apply Hp. now right.
Qed.

(** On transactions whose dates have one spelling each, the value that the
    exact search finds on a date is the total of the selected transactions
    of that date. *)
Lemma net_on_aggregated (transactions : list Transaction) (t : Z)
  (flows : list DatedFlow) (d : datetime) :
  t <> 0 -> wf_transactions transactions -> one_spelling transactions ->
  PmeUtils.aggregated_by_date transactions t = Ok flows ->
  (net_on flows d == flows_on transactions t d)%Q.
Proof.
  intros Ht Hwf Hone Hflows. unfold flows_on, dated.
  unfold PmeUtils.aggregated_by_date in Hflows.
  assert (Hf : Some t <> Some 0) by congruence.
  rewrite (aggregate_unfold Hf (fun _ => wf_types Hwf)) in Hflows.
  set (T := filter (matches_filter (Some t)) transactions) in *.
  destruct (aggregate_filtered_Ok (wf_dates (Some t) Hwf)) as (out & Hout & Hperm & Hsorted).
  fold T in Hout, Hperm. rewrite Hout in Hflows. cbn [bind] in Hflows.
  apply mapM_Forall2 in Hflows.
  assert (Hrel : Forall2 (fun c f => strptime (cf_date c) = Some (df_date f)
                                     /\ df_value f = cf_value c) out flows).
  { eapply Forall2_impl; [|exact Hflows]. intros c f Hcf. simpl in Hcf.
    unfold strptimeM in Hcf. destruct (strptime (cf_date c)); [|discriminate].
    inversion Hcf; subst. simpl. auto. }
  assert (HT : forall u, In u T -> In u transactions) by (intros u Hu; now apply filter_In in Hu).
  assert (Hsplit : (total_value (filter (fun u => matches_filter (Some t) u && on_date d u)
                                        transactions)
                    == total_value (filter (on_date d) T))%Q).
  { unfold T, total_value. clear.
    induction transactions as [|u l IH]; [reflexivity|]. cbn [filter].
    destruct (matches_filter (Some t) u); cbn [andb filter]; [|exact IH].
    destruct (on_date d u); [|exact IH].
    cbn [map Qsum fold_right]. rewrite IH. reflexivity. }
  rewrite Hsplit.
  unfold net_on.
  destruct (find_eq_by_key_sorted df_date (parsed_flows_sorted Hrel Hsorted) d)
    as (r & -> & Hr).
  destruct r as [f|].
  - destruct Hr as (Hfd & i & Hi & _). apply nth_error_In in Hi.
    destruct (@Forall2_In_r _ _ _ _ _ f Hrel Hi) as (c & Hc & Hcd & Hcv).
    eapply Permutation_in in Hc; [|exact Hperm].
    apply in_map_iff in Hc as (s & <- & Hs). simpl in Hcd, Hcv.
    rewrite Hcv, group_value_total.
    apply nodup_In, in_map_iff in Hs as (u0 & Hu0 & Hu0T).
    assert (E : filter (fun u => String.eqb (txn_date u) s) T = filter (on_date d) T).
    { apply filter_ext_in. intros u Hu.
      destruct (on_date d u) eqn:Ed.
      - apply on_date_spec in Ed. apply String.eqb_eq. rewrite <- Hu0.
        apply Hone; auto. rewrite Hu0, Hcd, Hfd. exact Ed.
      - destruct (String.eqb (txn_date u) s) eqn:Es; [|reflexivity].
        apply String.eqb_eq in Es. rewrite <- Ed. symmetry. apply on_date_spec.
        rewrite Es, Hcd, Hfd. reflexivity. }
    rewrite E. reflexivity.
  - symmetry. apply total_value_nil. intros u Hu.
    destruct (on_date d u) eqn:Ed; [|reflexivity]. exfalso.
    apply on_date_spec in Ed.
    assert (Hs : In (txn_date u) (nodup string_dec (map txn_date T)))
      by (apply nodup_In, in_map; exact Hu).
    assert (Hc : In (mkCashFlow (txn_date u) (group_value T (txn_date u))) out).
    { eapply Permutation_in; [symmetry; exact Hperm|].
      apply in_map_iff. eauto. }
    destruct (@Forall2_In_l _ _ _ _ _ _ Hrel Hc) as (f & Hf' & Hfd & _).
    simpl in Hfd. apply (Hr f Hf'). congruence.
Qed.
End NetOnFacts.

(** ** Long-Nickels PME *)

(** The balance recorded for the date before position [i], 0 before the
    first date. *)
Definition balance_before (series : list BalanceItem) (i : nat) : Q :=
  match i with
  | O => 0%Q
  | S j =>
      match nth_error series j with
      | Some item => bi_balance item
      | None => 0%Q
      end
  end.

Lemma balance_before_snoc (l : list BalanceItem) (x : BalanceItem) (i : nat) :
  (i <= length l)%nat -> balance_before (l ++ [x]) i = balance_before l i.
Proof.
  intro Hi. destruct i as [|j]; [reflexivity|]. simpl.
  now rewrite nth_error_snoc_lt by lia.
Qed.

Lemma balance_before_last (l : list BalanceItem) (x : BalanceItem) :
  balance_before (l ++ [x]) (S (length l)) = bi_balance x.
Proof. simpl. now rewrite nth_error_snoc_last. Qed.

Section LongNickelsFacts.
Context {so : SetOrder} {num : Numerics} {enum : TransactionTypeEnum}.
Import PmeUtils.
Variables contribs distribs : list DatedFlow.
Variable calculate_tvpi : bool.

Definition ln_recurrence (brs : list BenchmarkReturn) (series : list BalanceItem)
  : Prop :=
  length series = length brs
  /\ forall i br, nth_error brs i = Some br ->
       exists d item,
         strptime (br_date br) = Some d
         /\ nth_error series i = Some item
         /\ bi_date item = br_date br
         /\ (bi_balance item
             == balance_before series i * (1 + timeWeightedReturn br)
                + net_on contribs d + net_on distribs d)%Q.

Definition ln_inv (s : LNState) (done : list BenchmarkReturn) : Prop :=
  ln_recurrence done (theoretical_investment_series s)
  /\ match ln_prev_value s with Some p => p | None => 0%Q end
     = balance_before (theoretical_investment_series s)
         (length (theoretical_investment_series s)).

Lemma ln_step_inv (s : LNState) (done : list BenchmarkReturn) (br : BenchmarkReturn) :
  ln_inv s done -> strptime (br_date br) <> None ->
  exists s', ln_step contribs distribs calculate_tvpi s br = Ok s'
             /\ ln_inv s' (done ++ [br]).
Proof.
  intros [[Hlen Hrec] Hprev] Hdate. unfold ln_step.
  unfold strptimeM. destruct (strptime (br_date br)) as [d|] eqn:Ed; [|congruence].
  cbn [bind].
  destruct (find_eq_net_on contribs d) as (rc & -> & Hc).
  destruct (find_eq_net_on distribs d) as (rd & -> & Hd). cbn [bind].
  set (cv0 := match ln_prev_value s with
              | Some prev_value =>
                  if truthy prev_value
                  then (prev_value * (1 + timeWeightedReturn br))%Q
                  else 0%Q
              | None => 0%Q
              end).
  assert (Hcv0 : (cv0 == balance_before (theoretical_investment_series s)
                          (length (theoretical_investment_series s))
                        * (1 + timeWeightedReturn br))%Q).
  { rewrite <- Hprev. unfold cv0. destruct (ln_prev_value s) as [p|]; [|ring].
    destruct (truthy p) eqn:Ep; [reflexivity|].
    apply truthy_false in Ep. rewrite Ep. ring. }
  set (cv := (cv0 + value_or_zero rc + value_or_zero rd)%Q).
  assert (Hstep : exists cv' cc cd b',
    (cv' == cv)%Q /\
    (let '(current_value, cumulative_contributions) :=
       match rc with
       | Some c => ((cv0 + df_value c)%Q,
                    (ln_cumulative_contributions s + df_value c)%Q)
       | None => (cv0, ln_cumulative_contributions s)
       end in
     let '(current_value, cumulative_distributions) :=
       match rd with
       | Some d0 => ((current_value + df_value d0)%Q,
                     (ln_cumulative_distributions s + df_value d0)%Q)
       | None => (current_value, ln_cumulative_distributions s)
       end in
     benchmark_return <-
       fill_tvpi calculate_tvpi cumulative_contributions
         (-1 * cumulative_distributions)%Q current_value br ;;
     Ok (mkLNState (Some current_value) cumulative_contributions
           cumulative_distributions
           (theoretical_investment_series s
            ++ [mkBalanceItem (br_date br) current_value])
           (ln_benchmark_returns s ++ [benchmark_return])))
    = Ok (mkLNState (Some cv') cc cd
            (theoretical_investment_series s ++ [mkBalanceItem (br_date br) cv'])
            (ln_benchmark_returns s ++ [b']))).
  { unfold cv. destruct rc as [c|], rd as [d0|]; simpl value_or_zero; cbv iota beta;
      match goal with
      | |- context [fill_tvpi ?t ?a ?b ?c ?d] =>
          destruct (fill_tvpi_Ok t a b c d) as (b' & -> & _)
      end; cbn [bind]; do 4 eexists; (split; [|reflexivity]); ring. }
  destruct Hstep as (cv' & cc & cd & b' & Hcv' & ->).
  eexists. split; [reflexivity|]. unfold ln_inv. cbn.
  split; [split|].
  - rewrite !length_app, Hlen. reflexivity.
  - intros i br' Hi. apply nth_error_snoc_inv in Hi as [[Hlt Hi]|[-> ->]].
    + destruct (Hrec i br' Hi) as (d' & item & Hd' & Hitem & Hdate' & Hbal).
      exists d', item. rewrite nth_error_snoc_lt by lia.
      rewrite balance_before_snoc by lia. auto.
    + exists d, (mkBalanceItem (br_date br) cv'). rewrite <- Hlen.
      rewrite nth_error_snoc_last, balance_before_snoc by lia. simpl.
      repeat split; auto.
      rewrite Hcv'. unfold cv. rewrite Hcv0, Hc, Hd. reflexivity.
  - rewrite length_app. simpl length. rewrite Nat.add_1_r.
    now rewrite balance_before_last.
Qed.

Lemma ln_fold (brs : list BenchmarkReturn) :
  Forall (fun br => strptime (br_date br) <> None) brs ->
  exists s, foldM (ln_step contribs distribs calculate_tvpi) brs ln_init = Ok s
            /\ ln_recurrence brs (theoretical_investment_series s).
Proof.
  intros Hdates.
  destruct (@foldM_invariant _ _ (ln_step contribs distribs calculate_tvpi)
              (fun br => strptime (br_date br) <> None) ln_inv (@ln_step_inv)
              brs ln_init [] Hdates) as (s & Hs & [Hrec _]).
  - split; [split; [reflexivity|]|reflexivity].
    intros i br Hi. destruct i; discriminate.
  - exists s. auto.
Qed.
End LongNickelsFacts.

(** C4.  For every benchmark-return series (with well-formed dates, and
    transactions that carry a type and a well-formed date written in one
    way, the two type identifiers being non-zero)
    [calculate_long_nickels_PME] builds a theoretical investment series
    with one item per benchmark return; the balance of item [i] is the
    balance of item [i - 1] (0 before the first date) times
    [1 + timeWeightedReturn_i], plus the total of the contributions and the
    total of the distributions among the transactions of that date, which
    are what the exact search by date finds in the two aggregated lists. *)
Theorem long_nickels_balance_recurrence (so : SetOrder) (num : Numerics)
  (enum : TransactionTypeEnum) (benchmark_returns : list BenchmarkReturn)
  (investment_transactions : list Transaction) (calculate_tvpi : bool) :
  Contribution <> 0 -> Distribution <> 0 ->
  wf_transactions investment_transactions ->
  one_spelling investment_transactions ->
  Forall (fun br => strptime (br_date br) <> None) benchmark_returns ->
  exists contributions distributions s,
    PmeUtils.aggregated_by_date investment_transactions Contribution
      = Ok contributions
    /\ PmeUtils.aggregated_by_date investment_transactions Distribution
       = Ok distributions
    /\ PmeUtils.ln_loop benchmark_returns investment_transactions calculate_tvpi
       = Ok s
    /\ PmeUtils.calculate_long_nickels_PME benchmark_returns
         investment_transactions false calculate_tvpi
       = Ok (PmeUtils.ln_benchmark_returns s)
    /\ length (PmeUtils.theoretical_investment_series s) = length benchmark_returns
    /\ forall i br, nth_error benchmark_returns i = Some br ->
         exists d item,
           strptime (br_date br) = Some d
           /\ nth_error (PmeUtils.theoretical_investment_series s) i = Some item
           /\ bi_date item = br_date br
           /\ (net_on contributions d
               == flows_on investment_transactions Contribution d)%Q
           /\ (net_on distributions d
               == flows_on investment_transactions Distribution d)%Q
           /\ (bi_balance item
               == balance_before (PmeUtils.theoretical_investment_series s) i
                  * (1 + timeWeightedReturn br)
                  + flows_on investment_transactions Contribution d
                  + flows_on investment_transactions Distribution d)%Q.
Proof.
  intros Hcn Hdn Hwf Hone Hdates.
  destruct (aggregated_by_date_Ok Contribution Hwf) as (contribs & Hc).
  destruct (aggregated_by_date_Ok Distribution Hwf) as (distribs & Hd).
  destruct (ln_fold contribs distribs calculate_tvpi Hdates) as (s & Hs & Hlen & Hrec).
  exists contribs, distribs, s.
  assert (Hloop : PmeUtils.ln_loop benchmark_returns investment_transactions
                    calculate_tvpi = Ok s).
  { unfold PmeUtils.ln_loop. rewrite Hc, Hd. exact Hs. }
  split; [exact Hc|]. split; [exact Hd|]. split; [exact Hloop|]. split.
  { unfold PmeUtils.calculate_long_nickels_PME. now rewrite Hloop. }
  split; [exact Hlen|].
  intros i br Hi. destruct (Hrec i br Hi) as (d & item & Hdate & Hitem & Hid & Hbal).
  pose proof (net_on_aggregated d Hcn Hwf Hone Hc) as Hnc.
  pose proof (net_on_aggregated d Hdn Hwf Hone Hd) as Hnd.
  exists d, item. repeat (split; [assumption|]).
  rewrite Hbal, Hnc, Hnd. reflexivity.
Qed.

(** A contribution of 1000 on 2020-01-01 and a distribution of 600 a year
    later, against a benchmark that gains 10% in each half-year. *)
Definition scenario_transactions : list Transaction :=
  [mkTransaction "2020-01-01" (Some 1000%Q) (Some 1);
   mkTransaction "2021-01-01" (Some (-600)%Q) (Some 2)].

Definition scenario_returns : list BenchmarkReturn :=
  [mkBenchmarkReturn "2020-01-01" 100 0 1 None None None None None;
   mkBenchmarkReturn "2020-07-01" 110 (1 # 10) (11 # 10) None None None None None;
   mkBenchmarkReturn "2021-01-01" 121 (1 # 10) (121 # 100) None None None None None].

Lemma scenario_one_spelling : one_spelling scenario_transactions.
Proof.
  intros u u' Hu Hu' E.
  destruct Hu as [<-|[<-|[]]]; destruct Hu' as [<-|[<-|[]]];
    try reflexivity; vm_compute in E; discriminate.
Qed.

Lemma long_nickels_balance_recurrence_witness :
  @Contribution enum_1_2 <> 0 /\ @Distribution enum_1_2 <> 0
  /\ wf_transactions scenario_transactions
  /\ one_spelling scenario_transactions
  /\ Forall (fun br => strptime (br_date br) <> None) scenario_returns
  /\ exists contributions distributions s,
       @PmeUtils.aggregated_by_date insertion_order
         scenario_transactions (@Contribution enum_1_2) = Ok contributions
       /\ @PmeUtils.aggregated_by_date insertion_order
            scenario_transactions (@Distribution enum_1_2) = Ok distributions
       /\ @PmeUtils.ln_loop insertion_order enum_1_2 scenario_returns
            scenario_transactions true = Ok s
       /\ @PmeUtils.calculate_long_nickels_PME insertion_order whole_years
            enum_1_2 scenario_returns scenario_transactions false true
          = Ok (PmeUtils.ln_benchmark_returns s)
       /\ length (PmeUtils.theoretical_investment_series s)
          = length scenario_returns
       /\ forall i br, nth_error scenario_returns i = Some br ->
            exists d item,
              strptime (br_date br) = Some d
              /\ nth_error (PmeUtils.theoretical_investment_series s) i = Some item
              /\ bi_date item = br_date br
              /\ (net_on contributions d
                  == flows_on scenario_transactions (@Contribution enum_1_2) d)%Q
              /\ (net_on distributions d
                  == flows_on scenario_transactions (@Distribution enum_1_2) d)%Q
              /\ (bi_balance item
                  == balance_before (PmeUtils.theoretical_investment_series s) i
                     * (1 + timeWeightedReturn br)
                     + flows_on scenario_transactions (@Contribution enum_1_2) d
                     + flows_on scenario_transactions (@Distribution enum_1_2) d)%Q.
Proof.
  assert (Hc : @Contribution enum_1_2 <> 0) by discriminate.
  assert (Hd : @Distribution enum_1_2 <> 0) by discriminate.
  assert (H1 : wf_transactions scenario_transactions)
    by (repeat constructor; vm_compute; discriminate).
  assert (H2 : Forall (fun br => strptime (br_date br) <> None) scenario_returns)
    by (repeat constructor; vm_compute; discriminate).
  split; [exact Hc|]. split; [exact Hd|]. split; [exact H1|].
  split; [exact scenario_one_spelling|]. split; [exact H2|].
  exact (long_nickels_balance_recurrence insertion_order whole_years enum_1_2
           true Hc Hd H1 scenario_one_spelling H2).
Defined.

(** The balances of the scenario: 1000, then 1100, then 1210 - 600. *)
Example long_nickels_scenario :
  exists s,
    @PmeUtils.ln_loop insertion_order enum_1_2 scenario_returns
      scenario_transactions false = Ok s
    /\ map (fun item => Qred (bi_balance item))
           (PmeUtils.theoretical_investment_series s)
       = [1000; 1100; 610]%Q.
Proof. eexists. split; vm_compute; reflexivity. Qed.

(** ** Kaplan-Schoar PME *)

(** The pair of running totals (discounted distributions, discounted
    contributions) before position [i]; both are 0 before the first date. *)
Definition totals_before (totals : list (Q * Q)) (i : nat) : Q * Q :=
  match i with
  | O => (0%Q, 0%Q)
  | S j => nth j totals (0%Q, 0%Q)
  end.

Lemma totals_before_snoc (l : list (Q * Q)) (x : Q * Q) (i : nat) :
  (i <= length l)%nat -> totals_before (l ++ [x]) i = totals_before l i.
Proof.
  intro Hi. destruct i as [|j]; [reflexivity|]. simpl.
  now rewrite app_nth1 by lia.
Qed.

Lemma totals_before_last (l : list (Q * Q)) (x : Q * Q) :
  totals_before (l ++ [x]) (S (length l)) = x.
Proof. simpl. rewrite app_nth2 by lia. now rewrite Nat.sub_diag. Qed.

Section KaplanSchoarFacts.
Context {so : SetOrder} {enum : TransactionTypeEnum}.
Import PmeUtils.
Variables distribs contribs : list DatedFlow.
Variable calculate_tvpi : bool.

(** What the loop establishes at each position: the two totals follow
    their recurrence and the multiple is their quotient or 0. *)
Definition ks_recurrence (brs : list BenchmarkReturn) (totals : list (Q * Q))
  (out : list BenchmarkReturn) : Prop :=
  length totals = length brs /\ length out = length brs
  /\ forall i br, nth_error brs i = Some br ->
       exists d dd dc br' m,
         strptime (br_date br) = Some d
         /\ nth_error totals i = Some (dd, dc)
         /\ (dd == fst (totals_before totals i) * (1 + timeWeightedReturn br)
                   + net_on distribs d)%Q
         /\ (dc == snd (totals_before totals i) * (1 + timeWeightedReturn br)
                   + net_on contribs d)%Q
         /\ nth_error out i = Some br'
         /\ br_date br' = br_date br
         /\ kaplanSchoarMultiple br' = Some m
         /\ ((dc == 0)%Q -> m = 0%Q)
         /\ (~ (dc == 0)%Q -> (m == dd / - dc)%Q).

Definition ks_inv (s : KSState) (done : list BenchmarkReturn) : Prop :=
  exists totals,
    ks_recurrence done totals (ks_benchmark_returns s)
    /\ match prev_discounted_distribution_value s,
             prev_discounted_contribution_value s with
       | Some a, Some b => totals_before totals (length totals) = (a, b)
       | None, None => totals = []
       | _, _ => False
       end.

Lemma ks_step_inv (s : KSState) (done : list BenchmarkReturn) (br : BenchmarkReturn) :
  ks_inv s done -> strptime (br_date br) <> None ->
  exists s', ks_step distribs contribs calculate_tvpi s br = Ok s'
             /\ ks_inv s' (done ++ [br]).
Proof.
  intros (totals & (Hlt & Hlo & Hrec) & Hprev) Hdate. unfold ks_step.
  unfold strptimeM. destruct (strptime (br_date br)) as [d|] eqn:Ed; [|congruence].
  cbn [bind].
  destruct (find_eq_net_on distribs d) as (rd & -> & Hd).
  destruct (find_eq_net_on contribs d) as (rc & -> & Hc). cbn [bind].
  set (dd0 := match prev_discounted_distribution_value s with
              | Some p => (p * (1 + timeWeightedReturn br))%Q
              | None => 0%Q
              end).
  set (dc0 := match prev_discounted_contribution_value s with
              | Some p => (p * (1 + timeWeightedReturn br))%Q
              | None => 0%Q
              end).
  set (dd := match rd with Some d0 => (dd0 + df_value d0)%Q | None => dd0 end).
  assert (Hdd0 : (dd0 == fst (totals_before totals (length totals))
                         * (1 + timeWeightedReturn br))%Q
                 /\ (dc0 == snd (totals_before totals (length totals))
                            * (1 + timeWeightedReturn br))%Q).
  { unfold dd0, dc0.
    destruct (prev_discounted_distribution_value s) as [a|],
             (prev_discounted_contribution_value s) as [b|];
      try contradiction.
    - rewrite Hprev. simpl. split; reflexivity.
    - subst totals. simpl. split; ring. }
  destruct Hdd0 as [Hdd0 Hdc0].
  assert (Hdd : (dd == fst (totals_before totals (length totals))
                       * (1 + timeWeightedReturn br) + net_on distribs d)%Q).
  { rewrite <- Hd, <- Hdd0. unfold dd. destruct rd; simpl; [reflexivity|ring]. }
  assert (Hstep : exists dc cc,
    (dc == snd (totals_before totals (length totals))
           * (1 + timeWeightedReturn br) + net_on contribs d)%Q
    /\ match rc with
       | Some c => ((dc0 + df_value c)%Q,
                    (ks_cumulative_contributions s + df_value c)%Q)
       | None => (dc0, ks_cumulative_contributions s)
       end = (dc, cc)).
  { destruct rc as [c|]; simpl in Hc; do 2 eexists;
      (split; [|reflexivity]); rewrite <- Hc, Hdc0; [reflexivity|ring]. }
  destruct Hstep as (dc & cc & Hdc & ->).
  assert (Hm : exists b1 m,
    (if negb (Qeq_bool dc 0)
     then m <- py_div dd (-1 * dc) ;; Ok (set_kaplanSchoarMultiple br m)
     else Ok (set_kaplanSchoarMultiple br 0)) = Ok b1
    /\ br_date b1 = br_date br /\ kaplanSchoarMultiple b1 = Some m
    /\ ((dc == 0)%Q -> m = 0%Q) /\ (~ (dc == 0)%Q -> (m == dd / - dc)%Q)).
  { destruct (Qeq_bool dc 0) eqn:E; simpl.
    - apply Qeq_bool_iff in E. do 2 eexists. split; [reflexivity|]. simpl.
      split; [reflexivity|]. split; [reflexivity|].
      split; [intros _; reflexivity|intro Hn; contradiction].
    - assert (Hn : ~ (dc == 0)%Q) by (intro Hz; apply Qeq_bool_iff in Hz; congruence).
      rewrite py_div_Ok.
      + simpl. do 2 eexists. split; [reflexivity|]. simpl.
        split; [reflexivity|]. split; [reflexivity|].
        split; [intro Hz; contradiction|].
        intros _. assert (E1 : (-1 * dc == - dc)%Q) by ring. now rewrite E1.
      + intro Hz. apply Hn. rewrite <- (Qmult_1_l dc).
        assert (E1 : (1 * dc == - (-1 * dc))%Q) by ring. rewrite E1, Hz. reflexivity. }
  destruct Hm as (b1 & m & -> & Hb1 & Hkm & Hz & Hnz). cbn [bind].
  destruct (fill_tvpi_Ok calculate_tvpi cc (-1 * dd)%Q (dc + dd)%Q b1)
    as (b2 & -> & Hdate2 & _ & _ & Hk2 & _). cbn [bind].
  eexists. split; [reflexivity|].
  exists (totals ++ [(dd, dc)]). cbn. split.
  - split; [rewrite !length_app, Hlt; reflexivity|].
    split; [rewrite !length_app, Hlo; reflexivity|].
    intros i br0 Hi. apply nth_error_snoc_inv in Hi as [[Hlti Hi]|[-> ->]].
    + destruct (Hrec i br0 Hi)
        as (d' & dd' & dc' & br' & m' & H1 & H2 & H3 & H4 & H5 & H6).
      exists d', dd', dc', br', m'.
      rewrite !nth_error_snoc_lt by lia.
      rewrite totals_before_snoc by lia.
      repeat (split; [assumption|]). assumption.
    + exists d, dd, dc, b2, m.
      assert (E1 : nth_error (totals ++ [(dd, dc)]) (length done) = Some (dd, dc))
        by (rewrite <- Hlt; apply nth_error_snoc_last).
      assert (E2 : nth_error (ks_benchmark_returns s ++ [b2]) (length done) = Some b2)
        by (rewrite <- Hlo; apply nth_error_snoc_last).
      assert (E3 : totals_before (totals ++ [(dd, dc)]) (length done)
                   = totals_before totals (length totals))
        by (rewrite <- Hlt; apply totals_before_snoc; lia).
      rewrite E1, E2, E3, Hdate2, Hk2.
      split; [exact Ed|]. split; [reflexivity|]. split; [exact Hdd|].
      split; [exact Hdc|]. split; [reflexivity|]. split; [exact Hb1|].
      split; [exact Hkm|]. split; [exact Hz|exact Hnz].
  - rewrite length_app. simpl length. rewrite Nat.add_1_r.
    apply totals_before_last.
Qed.

Lemma ks_fold (brs : list BenchmarkReturn) :
  Forall (fun br => strptime (br_date br) <> None) brs ->
  exists s totals,
    foldM (ks_step distribs contribs calculate_tvpi) brs ks_init = Ok s
    /\ ks_recurrence brs totals (ks_benchmark_returns s).
Proof.
  intros Hdates.
  destruct (@foldM_invariant _ _ (ks_step distribs contribs calculate_tvpi)
              (fun br => strptime (br_date br) <> None) ks_inv (@ks_step_inv)
              brs ks_init [] Hdates) as (s & Hs & totals & Hrec & _).
  - exists []. split; [|reflexivity].
    split; [reflexivity|]. split; [reflexivity|].
    intros i br Hi. destruct i; discriminate.
  - exists s, totals. auto.
Qed.
End KaplanSchoarFacts.

(** C6.  For every benchmark-return series (with well-formed dates, and
    transactions that carry a type and a well-formed date written in one
    way, the two type identifiers being non-zero)
    [calculate_kaplan_schoar_PME] returns the series with one entry per
    date, and there are two running totals, discounted distributions [dd]
    and discounted contributions [dc], both starting from 0, such that at
    each date each total is the previous one times
    [1 + timeWeightedReturn] plus the total of the distributions,
    respectively of the contributions, among the transactions of that date,
    and the entry's [kaplanSchoarMultiple] is [dd / -dc], or 0 when [dc] is
    zero. *)
Theorem kaplan_schoar_multiple (so : SetOrder) (enum : TransactionTypeEnum)
  (benchmark_returns : list BenchmarkReturn)
  (investment_transactions : list Transaction) (calculate_tvpi : bool) :
  Contribution <> 0 -> Distribution <> 0 ->
  wf_transactions investment_transactions ->
  one_spelling investment_transactions ->
  Forall (fun br => strptime (br_date br) <> None) benchmark_returns ->
  exists totals out,
    PmeUtils.calculate_kaplan_schoar_PME benchmark_returns
      investment_transactions calculate_tvpi = Ok out
    /\ length totals = length benchmark_returns
    /\ length out = length benchmark_returns
    /\ forall i br, nth_error benchmark_returns i = Some br ->
         exists d dd dc br' m,
           strptime (br_date br) = Some d
           /\ nth_error totals i = Some (dd, dc)
           /\ (dd == fst (totals_before totals i) * (1 + timeWeightedReturn br)
                     + flows_on investment_transactions Distribution d)%Q
           /\ (dc == snd (totals_before totals i) * (1 + timeWeightedReturn br)
                     + flows_on investment_transactions Contribution d)%Q
           /\ nth_error out i = Some br'
           /\ br_date br' = br_date br
           /\ kaplanSchoarMultiple br' = Some m
           /\ ((dc == 0)%Q -> m = 0%Q)
           /\ (~ (dc == 0)%Q -> (m == dd / - dc)%Q).
Proof.
  intros Hcn Hdn Hwf Hone Hdates.
  destruct (aggregated_by_date_Ok Distribution Hwf) as (distribs & Hd).
  destruct (aggregated_by_date_Ok Contribution Hwf) as (contribs & Hc).
  destruct (ks_fold distribs contribs calculate_tvpi Hdates)
    as (s & totals & Hs & Hlt & Hlo & Hrec).
  exists totals, (PmeUtils.ks_benchmark_returns s). split.
  { unfold PmeUtils.calculate_kaplan_schoar_PME. rewrite Hd, Hc. cbn [bind].
    rewrite Hs. reflexivity. }
  split; [exact Hlt|]. split; [exact Hlo|].
  intros i br Hi.
  destruct (Hrec i br Hi)
    as (d & dd & dc & br' & m & Hdate & Ht & Hdd & Hdc & Hrest).
  pose proof (net_on_aggregated d Hcn Hwf Hone Hc) as Hnc.
  pose proof (net_on_aggregated d Hdn Hwf Hone Hd) as Hnd.
  exists d, dd, dc, br', m. split; [exact Hdate|]. split; [exact Ht|].
  split; [rewrite Hdd, Hnd; reflexivity|].
  split; [rewrite Hdc, Hnc; reflexivity|exact Hrest].
Qed.

Lemma kaplan_schoar_multiple_witness :
  @Contribution enum_1_2 <> 0 /\ @Distribution enum_1_2 <> 0
  /\ wf_transactions scenario_transactions
  /\ one_spelling scenario_transactions
  /\ Forall (fun br => strptime (br_date br) <> None) scenario_returns
  /\ exists totals out,
       @PmeUtils.calculate_kaplan_schoar_PME insertion_order enum_1_2
         scenario_returns scenario_transactions true = Ok out
       /\ length totals = length scenario_returns
       /\ length out = length scenario_returns
       /\ forall i br, nth_error scenario_returns i = Some br ->
            exists d dd dc br' m,
              strptime (br_date br) = Some d
              /\ nth_error totals i = Some (dd, dc)
              /\ (dd == fst (totals_before totals i) * (1 + timeWeightedReturn br)
                        + flows_on scenario_transactions (@Distribution enum_1_2) d)%Q
              /\ (dc == snd (totals_before totals i) * (1 + timeWeightedReturn br)
                        + flows_on scenario_transactions (@Contribution enum_1_2) d)%Q
              /\ nth_error out i = Some br'
              /\ br_date br' = br_date br
              /\ kaplanSchoarMultiple br' = Some m
              /\ ((dc == 0)%Q -> m = 0%Q)
              /\ (~ (dc == 0)%Q -> (m == dd / - dc)%Q).
Proof.
  assert (Hc : @Contribution enum_1_2 <> 0) by discriminate.
  assert (Hd : @Distribution enum_1_2 <> 0) by discriminate.
  assert (H1 : wf_transactions scenario_transactions)
    by (repeat constructor; vm_compute; discriminate).
  assert (H2 : Forall (fun br => strptime (br_date br) <> None) scenario_returns)
    by (repeat constructor; vm_compute; discriminate).
  split; [exact Hc|]. split; [exact Hd|]. split; [exact H1|].
  split; [exact scenario_one_spelling|]. split; [exact H2|].
  exact (kaplan_schoar_multiple insertion_order enum_1_2 true Hc Hd H1
           scenario_one_spelling H2).
Defined.

(** The multiples of the scenario: the contribution of 1000 grows to 1210
    and the distribution is 600, so the last multiple is 600 / 1210; with no
    contribution at all every multiple is 0. *)
Example kaplan_schoar_scenario :
  (exists out,
     @PmeUtils.calculate_kaplan_schoar_PME insertion_order enum_1_2
       scenario_returns scenario_transactions false = Ok out
     /\ map (fun br => option_map Qred (kaplanSchoarMultiple br)) out
        = [Some 0; Some 0; Some (60 # 121)]%Q)
  /\ (exists out,
        @PmeUtils.calculate_kaplan_schoar_PME insertion_order enum_1_2
          scenario_returns [] false = Ok out
        /\ map kaplanSchoarMultiple out = [Some 0; Some 0; Some 0]%Q).
Proof.
  split; eexists; split; vm_compute; reflexivity.
Qed.

(** ** Modified PME *)




Section ModifiedPmeFacts.
Context {so : SetOrder} {num : Numerics} {enum : TransactionTypeEnum}.
Import PmeUtils.
Variables contribs distribs : list DatedFlow.
Variable rets : list DatedBalance.
Variable calculate_tvpi : bool.
Hypothesis rets_sorted : StronglySorted (fun u v => le (db_date u) (db_date v)) rets.






End ModifiedPmeFacts.






Definition scenario_investment_returns : list BalanceItem :=
  [mkBalanceItem "2020-12-31" 1300; mkBalanceItem "2020-07-01" 1200].


(** C5 as stated fails for a distribution recorded as a positive flow: the
    code divides [-v] by [-v + b], so for 600 against a most recent return
    of 1300 the weight is -6/7, not 600 / (600 + 1300), and the theoretical
    balance is [(1 + 6/7) * 1210]. *)
Lemma modified_pme_positive_distribution_counterexample :
  let transactions :=
    [mkTransaction "2020-01-01" (Some 1000%Q) (Some 1);
     mkTransaction "2021-01-01" (Some 600%Q) (Some 2)] in
  Forall (fun br => strptime (br_date br) <> None /\ (0 < balance br)%Q)
         scenario_returns
  /\ exists c s,
       @PmeUtils.m_loop insertion_order enum_1_2 scenario_returns
         scenario_investment_returns transactions false = Ok (c, s)
       /\ map (fun item => Qred (bi_balance item)) (PmeUtils.theoretical_balances s)
          = [1000; 1100; 15730 # 7]%Q
       /\ ~ (15730 # 7 == (1 - 600 / (600 + 1300)) * 1210)%Q.
Proof.
  simpl. split.
  - repeat constructor; vm_compute; (discriminate || reflexivity).
  - do 2 eexists. split; [vm_compute; reflexivity|].
    split; [vm_compute; reflexivity|]. vm_compute. discriminate.
Qed.

(** In the scenario the distribution of 600 meets a most recent return of
    1300: the weight is 600 / 1900, and 1210 splits into a theoretical
    balance of 1210 * 13 / 19 and a weighted distribution of
    -(1210 * 6 / 19). *)
Example modified_pme_scenario :
  exists c s,
    @PmeUtils.m_loop insertion_order enum_1_2 scenario_returns
      scenario_investment_returns scenario_transactions false = Ok (c, s)
    /\ map (fun item => Qred (bi_balance item)) (PmeUtils.theoretical_balances s)
       = [1000; 1100; 15730 # 19]%Q
    /\ map (fun item => Qred (cf_value item)) (PmeUtils.weighted_distributions s)
       = [0; 0; -7260 # 19]%Q.
Proof. do 2 eexists. repeat split; vm_compute; reflexivity. Qed.

(** ** The benchmark-return builder *)

(** The value that the builder takes for the date [d]: that of a most
    recent benchmark entry at or before [d], or, when every entry is later
    than [d], that of an earliest entry. *)
Definition selected (benchmark_values : list BenchmarkValue) (d : datetime)
  (x : Q) : Prop :=
  (exists e, In e benchmark_values /\ bv_value e = x /\ le (bv_date e) d
             /\ forall e', In e' benchmark_values -> le (bv_date e') d ->
                           le (bv_date e') (bv_date e))
  \/ ((forall e', In e' benchmark_values -> ltb d (bv_date e') = true)
      /\ exists e, In e benchmark_values /\ bv_value e = x
                   /\ forall e', In e' benchmark_values ->
                                 le (bv_date e) (bv_date e')).

(** The cumulative return before position [i], seeded at 1. *)
Definition cumulative_before (out : list BenchmarkReturn) (i : nat) : Q :=
  match i with
  | O => 1%Q
  | S j =>
      match nth_error out j with
      | Some r => cumulativeTimeWeightedReturn r
      | None => 1%Q
      end
  end.

Lemma cumulative_before_snoc (l : list BenchmarkReturn) (x : BenchmarkReturn) (i : nat) :
  (i <= length l)%nat -> cumulative_before (l ++ [x]) i = cumulative_before l i.
Proof.
  intro Hi. destruct i as [|j]; [reflexivity|]. simpl.
  now rewrite nth_error_snoc_lt by lia.
Qed.

(** The return of position [i]: 0 at the first position, and afterwards the
    relative change from the previous value [u] (0 when [u] is zero, where
    the loop skips the division). *)
Definition return_at (index_values : list BenchmarkValue) (i : nat)
  (v : BenchmarkValue) (twr : Q) : Prop :=
  match i with
  | O => twr = 0%Q
  | S j =>
      forall u, nth_error index_values j = Some u ->
        (~ (bv_value u == 0)%Q ->
         (twr == (bv_value v - bv_value u) / bv_value u)%Q)
        /\ ((bv_value u == 0)%Q -> twr = 0%Q)
  end.

Section BuilderFacts.
Context {so : SetOrder}.
Import PmeUtils.

Lemma normalize_date_id (b : BenchmarkValue) : normalize_date b = b.
Proof. destruct b as [[y m d] v]. reflexivity. Qed.

Lemma map_normalize_date (l : list BenchmarkValue) : map normalize_date l = l.
Proof.
  induction l as [|b l IH]; simpl; [reflexivity|].
  now rewrite normalize_date_id, IH.
Qed.

(** The choice of the index value on a sorted, non-empty list. *)
Lemma index_value_on_Ok (bvs : list BenchmarkValue) (s : string) (d : datetime) :
  StronglySorted (fun u v => le (bv_date u) (bv_date v)) bvs ->
  bvs <> [] -> strptime s = Some d ->
  exists v, index_value_on bvs s = Ok v /\ bv_date v = d
            /\ selected bvs d (bv_value v).
Proof.
  intros Hs Hne Hd. unfold index_value_on, strptimeM. rewrite Hd. cbn [bind].
  destruct (find_le_by_key_sorted bv_date Hs d) as (rle & -> & Hle). cbn [bind].
  destruct rle as [e|].
  - eexists. split; [reflexivity|]. split; [reflexivity|]. simpl.
    left. exists e. destruct Hle as (Hin & Hed & Hmax). auto.
  - destruct (find_gt_by_key_sorted bv_date Hs d) as (rgt & -> & Hgt). cbn [bind].
    destruct rgt as [e|].
    + eexists. split; [reflexivity|]. split; [reflexivity|]. simpl.
      right. split; [exact Hle|]. exists e.
      destruct Hgt as (Hin & Hlt & Hmin). split; [exact Hin|].
      split; [reflexivity|]. intros e' He'. apply Hmin; auto.
    + exfalso. destruct bvs as [|b bvs']; [congruence|].
      assert (Hb : In b (b :: bvs')) by now left.
      pose proof (Hle b Hb) as H1. pose proof (Hgt b Hb) as H2.
      unfold le in H2. congruence.
Qed.

Definition br_entry (ivs : list BenchmarkValue) (out : list BenchmarkReturn)
  (i : nat) (v : BenchmarkValue) : Prop :=
  exists r, nth_error out i = Some r
    /\ strftime (bv_date v) = Ok (br_date r)
    /\ balance r = bv_value v
    /\ return_at ivs i v (timeWeightedReturn r)
    /\ (cumulativeTimeWeightedReturn r
        == cumulative_before out i * (1 + timeWeightedReturn r))%Q
    /\ kaplanSchoarMultiple r = None /\ xirr r = None
    /\ dpi r = None /\ rvpi r = None /\ tvpi r = None.

Definition br_inv (s : BRState) (done : list BenchmarkValue) : Prop :=
  length (built s) = length done
  /\ br_prev_value s = option_map bv_value (nth_error done (pred (length done)))
  /\ cumulative_return s = cumulative_before (built s) (length done)
  /\ forall i v, nth_error done i = Some v -> br_entry done (built s) i v.

Lemma return_at_snoc (done : list BenchmarkValue) (x v : BenchmarkValue)
  (i : nat) (t : Q) :
  (i <= length done)%nat -> return_at done i v t -> return_at (done ++ [x]) i v t.
Proof.
  intros Hi. destruct i as [|j]; simpl; [auto|].
  intros Hr u Hu. rewrite nth_error_snoc_lt in Hu by lia. auto.
Qed.

Lemma strftime_Ok (d : datetime) :
  1900 <= year d -> strftime d = Ok (format_ymd d).
Proof.
  intros Hy. unfold strftime.
  destruct (year d <? 1900) eqn:E; [apply Z.ltb_lt in E; lia|reflexivity].
Qed.

Lemma br_step_inv (s : BRState) (done : list BenchmarkValue) (x : BenchmarkValue) :
  br_inv s done -> 1900 <= year (bv_date x) ->
  exists s', br_step s x = Ok s' /\ br_inv s' (done ++ [x]).
Proof.
  intros (Hlen & Hprev & Hcum & Hrec) Hyear. unfold br_step.
  assert (Hret : exists t,
    match br_prev_value s with
    | Some prev_value =>
        if truthy prev_value then py_div (bv_value x - prev_value) prev_value
        else Ok 0%Q
    | None => Ok 0%Q
    end = Ok t /\ return_at done (length done) x t).
  { rewrite Hprev. destruct done as [|u done'] using rev_ind.
    - simpl. exists 0%Q. auto.
    - rewrite length_app. simpl length. rewrite Nat.add_1_r. cbn [pred].
      rewrite nth_error_snoc_last. cbn [option_map return_at].
      destruct (truthy (bv_value u)) eqn:E.
      + apply truthy_true in E. rewrite (py_div_Ok _ E).
        eexists. split; [reflexivity|]. intros u0 Hu0.
        rewrite nth_error_snoc_last in Hu0. inversion Hu0; subst u0.
        split; [intros _; reflexivity|intro Hz; contradiction].
      + apply truthy_false in E. exists 0%Q. split; [reflexivity|].
        intros u0 Hu0. rewrite nth_error_snoc_last in Hu0. inversion Hu0; subst u0.
        split; [intro Hn; contradiction|intros _; reflexivity]. }
  destruct Hret as (t & -> & Ht). cbn [bind].
  rewrite (strftime_Ok _ Hyear). cbn [bind].
  eexists. split; [reflexivity|]. unfold br_inv. cbn.
  rewrite !length_app. simpl length. rewrite !Nat.add_1_r.
  split; [now rewrite Hlen|]. split; [|split].
  - cbn [pred]. now rewrite nth_error_snoc_last.
  - rewrite <- Hlen. simpl. now rewrite nth_error_snoc_last.
  - intros i v Hi. apply nth_error_snoc_inv in Hi as [[Hlt Hi]|[-> ->]].
    + destruct (Hrec i v Hi) as (r & H1 & H2 & H3 & H4 & H5 & H6).
      exists r. rewrite nth_error_snoc_lt by lia.
      rewrite cumulative_before_snoc by lia.
      split; [exact H1|]. split; [exact H2|]. split; [exact H3|].
      split; [apply return_at_snoc; [lia|exact H4]|].
      split; [exact H5|exact H6].
    + eexists. rewrite <- Hlen at 1. rewrite nth_error_snoc_last.
      split; [reflexivity|]. cbn.
      split; [exact (strftime_Ok _ Hyear)|]. split; [reflexivity|].
      split; [apply return_at_snoc; [lia|exact Ht]|].
      split; [|repeat split].
      rewrite <- Hlen, cumulative_before_snoc by lia. rewrite Hlen, <- Hcum. ring.
Qed.

Lemma br_fold (ivs : list BenchmarkValue) :
  Forall (fun v => 1900 <= year (bv_date v)) ivs ->
  exists s, foldM br_step ivs (mkBRState None 1 []) = Ok s /\ br_inv s ivs.
Proof.
  intros Hyears.
  destruct (@foldM_invariant _ _ br_step (fun v => 1900 <= year (bv_date v))
              br_inv (@br_step_inv) ivs (mkBRState None 1 []) [] Hyears)
    as (s & Hs & Hinv).
  - unfold br_inv. simpl. repeat (split; [reflexivity|]).
    intros i v Hi. destruct i; discriminate.
  - exists s. auto.
Qed.

(** The entries that the builder returns: one per index value, the index
    values being dated by the required dates, valued by the selection and
    sorted. *)
Lemma builder_entries (benchmark_values : list BenchmarkValue)
  (investment_returns : list BalanceItem)
  (investment_transactions : list Transaction) :
  benchmark_values <> [] ->
  Forall (fun s => exists d, strptime s = Some d /\ 1900 <= year d)
         (map bi_date investment_returns ++ map txn_date investment_transactions) ->
  exists index_values out,
    __get_benchmark_returns benchmark_values investment_returns
      investment_transactions = Ok out
    /\ (forall d, In d (map bv_date index_values) <->
                  exists s, In s (map bi_date investment_returns
                                  ++ map txn_date investment_transactions)
                            /\ strptime s = Some d)
    /\ (forall v, In v index_values ->
                  selected benchmark_values (bv_date v) (bv_value v))
    /\ StronglySorted (fun u v => le (bv_date u) (bv_date v)) index_values
    /\ length out = length index_values
    /\ forall i v, nth_error index_values i = Some v ->
         br_entry index_values out i v.
Proof.
  intros Hne Hyears.
  assert (Hdates : Forall (fun s => strptime s <> None)
            (map bi_date investment_returns
             ++ map txn_date investment_transactions)).
  { eapply Forall_impl; [|exact Hyears]. intros s (d & -> & _). discriminate. }
  unfold __get_benchmark_returns.
  destruct benchmark_values as [|b0 bvs0] eqn:Ebv; [congruence|].
  rewrite <- Ebv in *. replace (length benchmark_values =? 0)%nat with false
    by (rewrite Ebv; reflexivity).
  rewrite map_normalize_date.
  set (bvs := py_sorted bv_date benchmark_values).
  assert (Hsorted : StronglySorted (fun u v => le (bv_date u) (bv_date v)) bvs)
    by apply py_sorted_sorted.
  assert (Hperm : Permutation bvs benchmark_values) by apply py_sorted_perm.
  assert (Hbne : bvs <> []).
  { intro E. rewrite E in Hperm. apply Permutation_nil in Hperm. congruence. }
  set (dates := get_unique_values [map bi_date investment_returns;
                                   map txn_date investment_transactions]).
  assert (Hmem : forall s, In s dates <->
                   In s (map bi_date investment_returns
                         ++ map txn_date investment_transactions)).
  { intros s. unfold dates, get_unique_values. simpl. rewrite app_nil_r.
    split; intro Hin.
    - apply (nodup_In string_dec).
      eapply Permutation_in; [apply set_iter_perm|exact Hin].
    - eapply Permutation_in; [symmetry; apply set_iter_perm|].
      now apply nodup_In. }
  destruct (mapM_total (index_value_on bvs) dates) as (ivs0 & Hivs0).
  { intros s Hs. apply Hmem in Hs. rewrite Forall_forall in Hdates.
    specialize (Hdates s Hs).
    destruct (strptime s) as [d|] eqn:Ed; [|congruence].
    destruct (@index_value_on_Ok bvs s d Hsorted Hbne Ed) as (v & Hv & _). eauto. }
  rewrite Hivs0. cbn [bind]. apply mapM_Forall2 in Hivs0.
  set (ivs := py_sorted bv_date ivs0).
  assert (Hiperm : Permutation ivs ivs0) by apply py_sorted_perm.
  assert (Hiv : forall v, In v ivs0 ->
            exists str, In str dates /\ strptime str = Some (bv_date v)
                        /\ selected bvs (bv_date v) (bv_value v)).
  { intros v Hv. destruct (@Forall2_In_r _ _ _ _ _ v Hivs0 Hv) as (str & Hstr & Hidx).
    exists str. split; [exact Hstr|].
    apply Hmem in Hstr. rewrite Forall_forall in Hdates. specialize (Hdates str Hstr).
    destruct (strptime str) as [d|] eqn:Ed; [|congruence].
    destruct (@index_value_on_Ok bvs str d Hsorted Hbne Ed) as (v' & Hv' & Hd' & Hsel).
    rewrite Hv' in Hidx. inversion Hidx; subst v'. rewrite Hd'. auto. }
  assert (Hivy : Forall (fun v => 1900 <= year (bv_date v)) ivs).
  { apply Forall_forall. intros v Hv.
    eapply Permutation_in in Hv; [|exact Hiperm].
    destruct (Hiv v Hv) as (str & Hstr & Hparse & _).
    apply Hmem in Hstr. rewrite Forall_forall in Hyears.
    destruct (Hyears str Hstr) as (d & Hd & Hy). congruence. }
  destruct (br_fold Hivy) as (s & -> & Hlen & _ & _ & Hrec). cbn [bind].
  exists ivs, (built s). split; [reflexivity|].
  assert (Hsel_perm : forall d x, selected bvs d x -> selected benchmark_values d x).
  { intros d x [(e & He & Hx & Hle & Hmax)|(Hall & e & He & Hx & Hmin)].
    - left. exists e. split; [eapply Permutation_in; eauto|].
      split; [exact Hx|]. split; [exact Hle|].
      intros e' He'. apply Hmax. eapply Permutation_in; [symmetry|]; eauto.
    - right. split.
      + intros e' He'. apply Hall. eapply Permutation_in; [symmetry|]; eauto.
      + exists e. split; [eapply Permutation_in; eauto|]. split; [exact Hx|].
        intros e' He'. apply Hmin. eapply Permutation_in; [symmetry|]; eauto. }
  split; [|split; [|split; [|split]]].
  - intros d. split.
    + intros Hd. apply in_map_iff in Hd as (v & <- & Hv).
      eapply Permutation_in in Hv; [|exact Hiperm].
      destruct (Hiv v Hv) as (str & Hstr & Hparse & _).
      exists str. split; [now apply Hmem|exact Hparse].
    + intros (str & Hstr & Hparse). apply Hmem in Hstr.
      destruct (@Forall2_In_l _ _ _ _ _ str Hivs0 Hstr) as (v & Hv & Hidx).
      destruct (@index_value_on_Ok bvs str d Hsorted Hbne Hparse) as (v' & Hv' & Hd' & _).
      rewrite Hv' in Hidx. inversion Hidx; subst v'.
      apply in_map_iff. exists v. split; [exact Hd'|].
      eapply Permutation_in; [symmetry; exact Hiperm|exact Hv].
  - intros v Hv. eapply Permutation_in in Hv; [|exact Hiperm].
    destruct (Hiv v Hv) as (_ & _ & _ & Hsel). now apply Hsel_perm.
  - apply py_sorted_sorted.
  - exact Hlen.
  - exact Hrec.
Qed.
End BuilderFacts.


Definition scenario_benchmark_values : list BenchmarkValue :=
  [mkBenchmarkValue (mkdate 2020 7 1) 110;
   mkBenchmarkValue (mkdate 2021 1 1) 121;
   mkBenchmarkValue (mkdate 2020 1 1) 100].


(** C7 as stated fails for a date before 1900: the date of a transaction
    of 1899-12-31 is well formed and takes the earliest benchmark value,
    but [strftime] cannot write it back and the builder raises
    [ValueError]. *)
Lemma benchmark_returns_before_1900_counterexample :
  let transactions := [mkTransaction "1899-12-31" (Some 1000%Q) (Some 1)] in
  scenario_benchmark_values <> []
  /\ Forall (fun s => strptime s <> None)
       (map bi_date scenario_investment_returns ++ map txn_date transactions)
  /\ @PmeUtils.__get_benchmark_returns insertion_order
       scenario_benchmark_values scenario_investment_returns transactions
     = Raise ValueError.
Proof.
  simpl. split; [discriminate|].
  split; [repeat constructor; vm_compute; discriminate|].
  vm_compute. reflexivity.
Qed.

(** The builder on the scenario, with one more transaction dated before the
    whole benchmark history: that date borrows the earliest benchmark value,
    and 2020-12-31 takes the value of 2020-07-01. *)
Example benchmark_returns_scenario :
  exists out,
    @PmeUtils.__get_benchmark_returns insertion_order
      scenario_benchmark_values scenario_investment_returns
      (mkTransaction "2019-06-01" (Some 1%Q) (Some 1) :: scenario_transactions)
    = Ok out
    /\ map (fun r => (br_date r, Qred (balance r), Qred (timeWeightedReturn r),
                      Qred (cumulativeTimeWeightedReturn r))) out
       = [("2019-06-01"%string, 100, 0, 1);
          ("2020-01-01"%string, 100, 0, 1);
          ("2020-07-01"%string, 110, 1 # 10, 11 # 10);
          ("2020-12-31"%string, 110, 0, 11 # 10);
          ("2021-01-01"%string, 121, 1 # 10, 121 # 100)]%Q.
Proof. eexists. split; vm_compute; reflexivity. Qed.

(** ** The XIRR request of the PME functions *)

(** A call of [read_xirrs_timeseries] with three positional arguments never
    reaches the body of the method. *)
Lemma read_xirrs_three_arguments (so : SetOrder) (num : Numerics) (a b c : pyval) :
  XirrsUtils.read_xirrs_timeseries [a; b; c] = Raise TypeError.
Proof. reflexivity. Qed.

(** With two arguments a balance series and the transactions give one XIRR
    per date: 1000 paid in and a balance of 2000 a year later give a rate
    near 1; at the first date the flows cancel, the objective is 0 at both
    bounds and the result is [None]. *)
Example read_xirrs_two_arguments :
  exists x,
    @XirrsUtils.read_xirrs_timeseries insertion_order whole_years
      [PyBalances [mkBalanceItem "2020-01-01" 1000; mkBalanceItem "2021-01-01" 2000];
       PyTransactions [mkTransaction "2020-01-01" (Some 1000%Q) (Some 1)]]
    = Ok [mkXirrItem "2020-01-01" (Some 1000%Q) None;
          mkXirrItem "2021-01-01" (Some 2000%Q) (Some x)]
    /\ (Qabs (x - 1) < 1 # 1000000000)%Q.
Proof. eexists. split; vm_compute; reflexivity. Qed.

(** Whatever the input, a request for the XIRR makes both functions end in
    an exception: either the loop fails, or the call that passes [None], the
    balance series and the transactions to the two-parameter method raises
    [TypeError]. *)
Lemma xirr_request_never_returns (so : SetOrder) (num : Numerics)
  (enum : TransactionTypeEnum) (benchmark_returns : list BenchmarkReturn)
  (investment_returns : list BalanceItem)
  (investment_transactions : list Transaction) (calculate_tvpi : bool) :
  (exists e, PmeUtils.calculate_long_nickels_PME benchmark_returns
               investment_transactions true calculate_tvpi = Raise e)
  /\ (exists e, PmeUtils.calculate_mPME benchmark_returns investment_returns
                  investment_transactions true calculate_tvpi = Raise e).
Proof.
  split.
  - unfold PmeUtils.calculate_long_nickels_PME.
    destruct (PmeUtils.ln_loop _ _ _) as [s|e]; simpl; eauto.
  - unfold PmeUtils.calculate_mPME.
    destruct (PmeUtils.m_loop _ _ _ _) as [[c s]|e]; simpl; [|eauto].
    destruct (mapM _ c) as [l|e]; simpl; eauto.
Qed.

(** C1 (defect).  On the scenario, where both loops succeed, asking for the
    XIRR raises [TypeError] in [calculate_long_nickels_PME] and in
    [calculate_mPME], and no [xirr] field is written; without the request
    both return. *)
Theorem pme_xirr_request_type_error :
  @PmeUtils.calculate_long_nickels_PME insertion_order whole_years enum_1_2
    scenario_returns scenario_transactions true false = Raise TypeError
  /\ @PmeUtils.calculate_mPME insertion_order whole_years enum_1_2
       scenario_returns scenario_investment_returns scenario_transactions
       true false = Raise TypeError
  /\ (exists out,
        @PmeUtils.calculate_long_nickels_PME insertion_order whole_years enum_1_2
          scenario_returns scenario_transactions false false = Ok out)
  /\ (exists out,
        @PmeUtils.calculate_mPME insertion_order whole_years enum_1_2
          scenario_returns scenario_investment_returns scenario_transactions
          false false = Ok out).
Proof.
  split; [vm_compute; reflexivity|]. split; [vm_compute; reflexivity|].
  split; eexists; vm_compute; reflexivity.
Qed.

(** ** Division by zero *)

(** C8 (defect).  The distribution weight of [calculate_mPME] is guarded
    against a missing distribution or return only, not against a zero
    denominator: a distribution of value 0 (or of null value) on a date
    whose most recent investment balance is 0, or a distribution equal to
    that balance, raises [ZeroDivisionError]. *)
Theorem modified_pme_weight_zero_division :
  @PmeUtils.calculate_mPME insertion_order whole_years enum_1_2
    [mkBenchmarkReturn "2020-01-01" 100 0 1 None None None None None]
    [mkBalanceItem "2020-01-01" 0]
    [mkTransaction "2020-01-01" (Some 0%Q) (Some 2)]
    false true = Raise ZeroDivisionError
  /\ @PmeUtils.calculate_mPME insertion_order whole_years enum_1_2
       [mkBenchmarkReturn "2020-01-01" 100 0 1 None None None None None]
       [mkBalanceItem "2020-01-01" 0]
       [mkTransaction "2020-01-01" None (Some 2)]
       false false = Raise ZeroDivisionError
  /\ @PmeUtils.calculate_mPME insertion_order whole_years enum_1_2
       [mkBenchmarkReturn "2020-01-01" 100 0 1 None None None None None]
       [mkBalanceItem "2020-01-01" 600]
       [mkTransaction "2020-01-01" (Some 600%Q) (Some 2)]
       false false = Raise ZeroDivisionError.
Proof. repeat split; vm_compute; reflexivity. Qed.

(** The other division sites are guarded: the [dpi]/[rvpi]/[tvpi] block
    and the Kaplan-Schoar multiple return for every value of their
    operands. *)
Lemma guarded_divisions (calculate_tvpi : bool) (cc n1 n2 dd dc : Q)
  (b : BenchmarkReturn) :
  (exists b', PmeUtils.fill_tvpi calculate_tvpi cc n1 n2 b = Ok b')
  /\ (exists b',
        (if negb (Qeq_bool dc 0)
         then m <- py_div dd (-1 * dc) ;; Ok (set_kaplanSchoarMultiple b m)
         else Ok (set_kaplanSchoarMultiple b 0)) = Ok b').
Proof.
  split.
  - destruct (fill_tvpi_Ok calculate_tvpi cc n1 n2 b) as (b' & Hb' & _). eauto.
  - destruct (Qeq_bool dc 0) eqn:E; simpl; [eauto|].
    rewrite py_div_Ok; [simpl; eauto|].
    intro Hz. assert (Hdc : (dc == 0)%Q).
    { assert (E1 : (dc == - (-1 * dc))%Q) by ring. rewrite E1, Hz. reflexivity. }
    apply Qeq_bool_iff in Hdc. congruence.
Qed.


(* ================================================================== *)
(** * Further properties of the search helpers *)
(* ================================================================== *)

Section PositionFacts.
Context {K A : Type} `{PyOrdLaws K}.
Import BisectHelpers.
Variable key : A -> K.
Variable a : list A.
Hypothesis a_sorted : StronglySorted (fun u v => le (key u) (key v)) a.

(** The item before the insertion point, when there is one: the positions
    up to its own are exactly those whose key passes the test of the
    bisection. *)
Lemma last_before (p : K -> bool) (k : nat) :
  (k <= length a)%nat ->
  (forall j kv, nth_error (map key a) j = Some kv -> (p kv = true <-> (j < k)%nat)) ->
  exists r,
    (if negb (k =? 0)%nat then v <- getitem a (k - 1) ;; Ok (Some v)
     else Ok None) = Ok r
    /\ match r with
       | Some v =>
           exists i, nth_error a i = Some v
             /\ forall j w, nth_error a j = Some w ->
                  (p (key w) = true <-> (j <= i)%nat)
       | None => forall w, In w a -> p (key w) = false
       end.
Proof.
  intros Hk Hspec. destruct (k =? 0)%nat eqn:E; simpl.
  - apply Nat.eqb_eq in E. subst k. exists None. split; [reflexivity|].
    intros w Hw. apply In_nth_error in Hw as (j & Hj).
    destruct (p (key w)) eqn:Ep; [|reflexivity].
    apply (Hspec j (key w) (nth_key key a _ Hj)) in Ep. lia.
  - apply Nat.eqb_neq in E.
    destruct (@getitem_lt _ a (k - 1)%nat) as (v & -> & Hv); [lia|]. simpl.
    exists (Some v). split; [reflexivity|]. exists (k - 1)%nat.
    split; [exact Hv|]. intros j w Hj.
    rewrite (Hspec j (key w) (nth_key key a _ Hj)). lia.
Qed.

(** The item at the insertion point, when there is one: the positions from
    its own on are exactly those whose key fails the test. *)
Lemma first_from (p : K -> bool) (k : nat) :
  (k <= length a)%nat ->
  (forall j kv, nth_error (map key a) j = Some kv -> (p kv = true <-> (j < k)%nat)) ->
  exists r,
    (if negb (k =? length a)%nat then v <- getitem a k ;; Ok (Some v)
     else Ok None) = Ok r
    /\ match r with
       | Some v =>
           exists i, nth_error a i = Some v
             /\ forall j w, nth_error a j = Some w ->
                  (p (key w) = false <-> (i <= j)%nat)
       | None => forall w, In w a -> p (key w) = true
       end.
Proof.
  intros Hk Hspec. destruct (k =? length a)%nat eqn:E; simpl.
  - apply Nat.eqb_eq in E. subst k. exists None. split; [reflexivity|].
    intros w Hw. apply In_nth_error in Hw as (j & Hj).
    apply (Hspec j (key w) (nth_key key a _ Hj)).
    apply nth_error_Some. congruence.
  - apply Nat.eqb_neq in E.
    destruct (@getitem_lt _ a k) as (v & -> & Hv); [lia|]. simpl.
    exists (Some v). split; [reflexivity|]. exists k.
    split; [exact Hv|]. intros j w Hj.
    pose proof (Hspec j (key w) (nth_key key a _ Hj)) as Hjw.
    destruct (p (key w)); split; intro E'; try discriminate; try reflexivity.
    + assert ((j < k)%nat) by now apply Hjw. lia.
    + destruct (Nat.lt_ge_cases j k) as [Hlt|Hge]; [|exact Hge].
      apply Hjw in Hlt. discriminate.
Qed.

Lemma left_point (x : K) :
  exists k, bisect_left (map key a) x = Ok k /\ (k <= length a)%nat
    /\ forall j kv, nth_error (map key a) j = Some kv ->
         (ltb kv x = true <-> (j < k)%nat).
Proof.
  destruct (bisect_left_sorted x (keys_sorted key a_sorted)) as (k & Hk & Hl & Hs).
  rewrite length_map in Hl. eauto.
Qed.

Lemma right_point (x : K) :
  exists k, bisect_right (map key a) x = Ok k /\ (k <= length a)%nat
    /\ forall j kv, nth_error (map key a) j = Some kv ->
         (negb (ltb x kv) = true <-> (j < k)%nat).
Proof.
  destruct (bisect_right_sorted x (keys_sorted key a_sorted)) as (k & Hk & Hl & Hs).
  rewrite length_map in Hl. exists k. split; [exact Hk|]. split; [exact Hl|].
  intros j kv Hj. rewrite negb_true_iff. now apply Hs.
Qed.
End PositionFacts.

(** [r] is the last item of [a] that passes [p], the items that pass being
    exactly those up to its position; [None] when no item passes. *)
Definition last_with {A : Type} (p : A -> bool) (a : list A) (r : option A)
  : Prop :=
  match r with
  | Some v =>
      exists i, nth_error a i = Some v
        /\ forall j w, nth_error a j = Some w -> (p w = true <-> (j <= i)%nat)
  | None => forall w, In w a -> p w = false
  end.

(** [r] is the first item of [a] that passes [p], the items that pass being
    exactly those from its position on; [None] when no item passes. *)
Definition first_with {A : Type} (p : A -> bool) (a : list A) (r : option A)
  : Prop :=
  match r with
  | Some v =>
      exists i, nth_error a i = Some v
        /\ forall j w, nth_error a j = Some w -> (p w = true <-> (i <= j)%nat)
  | None => forall w, In w a -> p w = false
  end.

Section KeyedSearchSemantics.
Context {K A : Type} `{PyOrdLaws K}.
Import BisectHelpers.
Variable key : A -> K.
Variable a : list A.
Hypothesis a_sorted : StronglySorted (fun u v => le (key u) (key v)) a.

Lemma find_lt_by_key_last (x : K) :
  exists r, find_lt_by_key a x key = Ok r
            /\ last_with (fun w => ltb (key w) x) a r.
Proof.
  unfold find_lt_by_key.
  destruct (left_point key a_sorted x) as (k & -> & Hk & Hspec). cbn [bind].
  exact (last_before key a (fun kv => ltb kv x) Hk Hspec).
Qed.

Lemma find_le_by_key_last (x : K) :
  exists r, find_le_by_key a x key = Ok r
            /\ last_with (fun w => negb (ltb x (key w))) a r.
Proof.
  unfold find_le_by_key.
  destruct (right_point key a_sorted x) as (k & -> & Hk & Hspec). cbn [bind].
  exact (last_before key a (fun kv => negb (ltb x kv)) Hk Hspec).
Qed.

Lemma find_gt_by_key_first (x : K) :
  exists r, find_gt_by_key a x key = Ok r
            /\ first_with (fun w => ltb x (key w)) a r.
Proof.
  unfold find_gt_by_key.
  destruct (right_point key a_sorted x) as (k & -> & Hk & Hspec). cbn [bind].
  destruct (first_from key a (fun kv => negb (ltb x kv)) Hk Hspec) as (r & -> & Hr).
  exists r. split; [reflexivity|]. destruct r as [v|]; simpl in *.
  - destruct Hr as (i & Hi & Hall). exists i. split; [exact Hi|].
    intros j w Hj. rewrite <- (Hall j w Hj). now rewrite negb_false_iff.
  - intros w Hw. apply negb_true_iff. auto.
Qed.

Lemma find_ge_by_key_first (x : K) :
  exists r, find_ge_by_key a x key = Ok r
            /\ first_with (fun w => negb (ltb (key w) x)) a r.
Proof.
  unfold find_ge_by_key.
  destruct (left_point key a_sorted x) as (k & -> & Hk & Hspec). cbn [bind].
  destruct (first_from key a (fun kv => ltb kv x) Hk Hspec) as (r & -> & Hr).
  exists r. split; [reflexivity|]. destruct r as [v|]; simpl in *.
  - destruct Hr as (i & Hi & Hall). exists i. split; [exact Hi|].
    intros j w Hj. rewrite <- (Hall j w Hj). now rewrite negb_true_iff.
  - intros w Hw. apply negb_false_iff. auto.
Qed.
End KeyedSearchSemantics.

(** X1.  On a list sorted by the key, [find_eq_by_key] returns the leftmost
    item whose key is [x], and [None] exactly when no item has that key. *)
Theorem find_eq_by_key_leftmost (K A : Type) (O : PyOrd K) (L : PyOrdLaws K)
  (key : A -> K) (a : list A) (x : K) :
  StronglySorted (fun u v => le (key u) (key v)) a ->
  exists r, BisectHelpers.find_eq_by_key a x key = Ok r
    /\ match r with
       | Some v =>
           key v = x
           /\ exists i, nth_error a i = Some v
                /\ forall j w, (j < i)%nat -> nth_error a j = Some w ->
                               key w <> x
       | None => forall w, In w a -> key w <> x
       end.
Proof. intros Hs. exact (find_eq_by_key_sorted key Hs x). Qed.

Definition keyed_sample : list (Z * string) :=
  [(1, "a"%string); (3, "b"%string); (3, "c"%string); (7, "d"%string)].

Lemma find_eq_by_key_leftmost_witness :
  StronglySorted (fun u v : Z * string => le (fst u) (fst v)) keyed_sample
  /\ (exists r, BisectHelpers.find_eq_by_key keyed_sample 3 fst = Ok r
        /\ match r with
           | Some v =>
               fst v = 3
               /\ exists i, nth_error keyed_sample i = Some v
                    /\ forall j w, (j < i)%nat ->
                         nth_error keyed_sample j = Some w -> fst w <> 3
           | None => forall w, In w keyed_sample -> fst w <> 3
           end)
  /\ BisectHelpers.find_eq_by_key keyed_sample 3 fst = Ok (Some (3, "b"%string))
  /\ BisectHelpers.find_eq_by_key keyed_sample 4 fst = Ok None.
Proof.
  assert (Hs : StronglySorted (fun u v : Z * string => le (fst u) (fst v))
                 keyed_sample) by (repeat constructor).
  split; [exact Hs|].
  split; [exact (find_eq_by_key_leftmost PyOrdLaws_Z fst 3 Hs)|].
  split; reflexivity.
Defined.

(** X2.  On a list sorted by the key, [find_lt_by_key] returns the last item
    whose key is below [x] and [find_le_by_key] the last item whose key is
    at most [x] (among items of equal keys, the rightmost); each returns
    [None] exactly when no item qualifies. *)
Theorem keyed_search_rightmost (K A : Type) (O : PyOrd K) (L : PyOrdLaws K)
  (key : A -> K) (a : list A) (x : K) :
  StronglySorted (fun u v => le (key u) (key v)) a ->
  (exists r, BisectHelpers.find_lt_by_key a x key = Ok r
             /\ last_with (fun w => ltb (key w) x) a r)
  /\ (exists r, BisectHelpers.find_le_by_key a x key = Ok r
                /\ last_with (fun w => negb (ltb x (key w))) a r).
Proof.
  intros Hs. split.
  - exact (find_lt_by_key_last key Hs x).
  - exact (find_le_by_key_last key Hs x).
Qed.

Lemma keyed_search_rightmost_witness :
  StronglySorted (fun u v : Z * string => le (fst u) (fst v)) keyed_sample
  /\ ((exists r, BisectHelpers.find_lt_by_key keyed_sample 3 fst = Ok r
                 /\ last_with (fun w => ltb (fst w) 3) keyed_sample r)
      /\ (exists r, BisectHelpers.find_le_by_key keyed_sample 3 fst = Ok r
                    /\ last_with (fun w => negb (ltb 3 (fst w))) keyed_sample r))
  /\ BisectHelpers.find_lt_by_key keyed_sample 3 fst = Ok (Some (1, "a"%string))
  /\ BisectHelpers.find_le_by_key keyed_sample 3 fst = Ok (Some (3, "c"%string)).
Proof.
  assert (Hs : StronglySorted (fun u v : Z * string => le (fst u) (fst v))
                 keyed_sample) by (repeat constructor).
  split; [exact Hs|].
  split; [exact (keyed_search_rightmost PyOrdLaws_Z fst 3 Hs)|].
  split; reflexivity.
Defined.

(** X3.  On a list sorted by the key, [find_gt_by_key] returns the first
    item whose key is above [x] and [find_ge_by_key] the first item whose
    key is at least [x] (among items of equal keys, the leftmost); each
    returns [None] exactly when no item qualifies. *)
Theorem keyed_search_leftmost (K A : Type) (O : PyOrd K) (L : PyOrdLaws K)
  (key : A -> K) (a : list A) (x : K) :
  StronglySorted (fun u v => le (key u) (key v)) a ->
  (exists r, BisectHelpers.find_gt_by_key a x key = Ok r
             /\ first_with (fun w => ltb x (key w)) a r)
  /\ (exists r, BisectHelpers.find_ge_by_key a x key = Ok r
                /\ first_with (fun w => negb (ltb (key w) x)) a r).
Proof.
  intros Hs. split.
  - exact (find_gt_by_key_first key Hs x).
  - exact (find_ge_by_key_first key Hs x).
Qed.

Lemma keyed_search_leftmost_witness :
  StronglySorted (fun u v : Z * string => le (fst u) (fst v)) keyed_sample
  /\ ((exists r, BisectHelpers.find_gt_by_key keyed_sample 3 fst = Ok r
                 /\ first_with (fun w => ltb 3 (fst w)) keyed_sample r)
      /\ (exists r, BisectHelpers.find_ge_by_key keyed_sample 3 fst = Ok r
                    /\ first_with (fun w => negb (ltb (fst w) 3)) keyed_sample r))
  /\ BisectHelpers.find_gt_by_key keyed_sample 3 fst = Ok (Some (7, "d"%string))
  /\ BisectHelpers.find_ge_by_key keyed_sample 3 fst = Ok (Some (3, "b"%string)).
Proof.
  assert (Hs : StronglySorted (fun u v : Z * string => le (fst u) (fst v))
                 keyed_sample) by (repeat constructor).
  split; [exact Hs|].
  split; [exact (keyed_search_leftmost PyOrdLaws_Z fst 3 Hs)|].
  split; reflexivity.
Defined.

(** X4.  On a sorted list, [find_lt] returns the last element below [x],
    [find_le] the last element that is at most [x], [find_gt] the first
    element above [x] and [find_ge] the first element that is at least [x];
    each returns [None] exactly when no element qualifies. *)
Theorem plain_search_semantics (K : Type) (O : PyOrd K) (L : PyOrdLaws K)
  (a : list K) (x : K) :
  StronglySorted le a ->
  (exists r, BisectHelpers.find_lt a x = Ok r
             /\ last_with (fun w => ltb w x) a r)
  /\ (exists r, BisectHelpers.find_le a x = Ok r
                /\ last_with (fun w => negb (ltb x w)) a r)
  /\ (exists r, BisectHelpers.find_gt a x = Ok r
                /\ first_with (fun w => ltb x w) a r)
  /\ (exists r, BisectHelpers.find_ge a x = Ok r
                /\ first_with (fun w => negb (ltb w x)) a r).
Proof.
  intros Hs. pose proof (sorted_by_id Hs) as Hid.
  rewrite find_lt_keyed, find_le_keyed, find_gt_keyed, find_ge_keyed.
  split; [exact (find_lt_by_key_last (fun v : K => v) Hid x)|].
  split; [exact (find_le_by_key_last (fun v : K => v) Hid x)|].
  split; [exact (find_gt_by_key_first (fun v : K => v) Hid x)|].
  exact (find_ge_by_key_first (fun v : K => v) Hid x).
Qed.

Lemma plain_search_semantics_witness :
  StronglySorted le [1; 3; 3; 7]
  /\ ((exists r, BisectHelpers.find_lt [1; 3; 3; 7] 5 = Ok r
                 /\ last_with (fun w => ltb w 5) [1; 3; 3; 7] r)
      /\ (exists r, BisectHelpers.find_le [1; 3; 3; 7] 5 = Ok r
                    /\ last_with (fun w => negb (ltb 5 w)) [1; 3; 3; 7] r)
      /\ (exists r, BisectHelpers.find_gt [1; 3; 3; 7] 5 = Ok r
                    /\ first_with (fun w => ltb 5 w) [1; 3; 3; 7] r)
      /\ (exists r, BisectHelpers.find_ge [1; 3; 3; 7] 5 = Ok r
                    /\ first_with (fun w => negb (ltb w 5)) [1; 3; 3; 7] r))
  /\ BisectHelpers.find_le [1; 3; 3; 7] 5 = Ok (Some 3)
  /\ BisectHelpers.find_ge [1; 3; 3; 7] 5 = Ok (Some 7)
  /\ BisectHelpers.find_ge [1; 3; 3; 7] 8 = Ok None.
Proof.
  assert (Hs : StronglySorted le [1; 3; 3; 7]) by (repeat constructor).
  split; [exact Hs|].
  split; [exact (plain_search_semantics PyOrdLaws_Z 5 Hs)|].
  repeat split; reflexivity.
Defined.

Section SearchTotality.
Context {K A : Type} {O : PyOrd K}.
Import BisectHelpers.

Lemma item_at_or_none (a : list A) (k : nat) :
  (k <= length a)%nat ->
  exists r,
    (if negb (k =? length a)%nat then v <- getitem a k ;; Ok (Some v)
     else Ok None) = Ok r
    /\ forall v, r = Some v -> In v a.
Proof.
  intros Hk. destruct (k =? length a)%nat eqn:E; simpl.
  - exists None. split; [reflexivity|discriminate].
  - apply Nat.eqb_neq in E.
    destruct (@getitem_lt _ a k) as (v & -> & Hv); [lia|]. simpl.
    exists (Some v). split; [reflexivity|]. intros v' Ev. inversion Ev; subst.
    eapply nth_error_In; eauto.
Qed.

Lemma item_before_or_none (a : list A) (k : nat) :
  (k <= length a)%nat ->
  exists r,
    (if negb (k =? 0)%nat then v <- getitem a (k - 1) ;; Ok (Some v)
     else Ok None) = Ok r
    /\ forall v, r = Some v -> In v a.
Proof.
  intros Hk. destruct (k =? 0)%nat eqn:E; simpl.
  - exists None. split; [reflexivity|discriminate].
  - apply Nat.eqb_neq in E.
    destruct (@getitem_lt _ a (k - 1)%nat) as (v & -> & Hv); [lia|]. simpl.
    exists (Some v). split; [reflexivity|]. intros v' Ev. inversion Ev; subst.
    eapply nth_error_In; eauto.
Qed.

Lemma left_point_any (key : A -> K) (a : list A) (x : K) :
  exists k, bisect_left (map key a) x = Ok k /\ (k <= length a)%nat.
Proof.
  destruct (bisect_left_total (map key a) x) as (k & Hk & Hl).
  rewrite length_map in Hl. eauto.
Qed.

Lemma right_point_any (key : A -> K) (a : list A) (x : K) :
  exists k, bisect_right (map key a) x = Ok k /\ (k <= length a)%nat.
Proof.
  destruct (bisect_right_total (map key a) x) as (k & Hk & Hl).
  rewrite length_map in Hl. eauto.
Qed.

Lemma keyed_search_total (key : A -> K) (a : list A) (x : K) :
  (exists r, find_eq_by_key a x key = Ok r /\ forall v, r = Some v -> In v a)
  /\ (exists r, find_lt_by_key a x key = Ok r /\ forall v, r = Some v -> In v a)
  /\ (exists r, find_le_by_key a x key = Ok r /\ forall v, r = Some v -> In v a)
  /\ (exists r, find_gt_by_key a x key = Ok r /\ forall v, r = Some v -> In v a)
  /\ (exists r, find_ge_by_key a x key = Ok r /\ forall v, r = Some v -> In v a).
Proof.
  destruct (left_point_any key a x) as (kl & Hkl & Hl).
  destruct (right_point_any key a x) as (kr & Hkr & Hr).
  unfold find_eq_by_key, find_lt_by_key, find_le_by_key, find_gt_by_key,
    find_ge_by_key.
  rewrite Hkl, Hkr. cbn [bind].
  split; [|split; [|split; [|split]]].
  - destruct (kl =? length a)%nat eqn:E; simpl.
    + exists None. split; [reflexivity|discriminate].
    + apply Nat.eqb_neq in E.
      destruct (@getitem_lt _ a kl) as (v & -> & Hv); [lia|]. simpl.
      destruct (eqb (key v) x).
      * exists (Some v). split; [reflexivity|]. intros v' Ev. inversion Ev; subst.
        eapply nth_error_In; eauto.
      * exists None. split; [reflexivity|discriminate].
  - exact (item_before_or_none a Hl).
  - exact (item_before_or_none a Hr).
  - exact (item_at_or_none a Hr).
  - exact (item_at_or_none a Hl).
Qed.

Lemma index_by_key_items (item_eq : A -> K -> bool) (key : A -> K)
  (a : list A) (x : K) :
  exists r, index_by_key item_eq a x key = Ok r
    /\ (forall i, r = Some i ->
          exists v, nth_error a i = Some v /\ item_eq v x = true)
    /\ ((forall v, In v a -> item_eq v x = false) -> r = None).
Proof.
  unfold index_by_key.
  destruct (left_point_any key a x) as (k & -> & Hk). cbn [bind].
  destruct (k =? length a)%nat eqn:E; simpl.
  - exists None. split; [reflexivity|]. split; [discriminate|reflexivity].
  - apply Nat.eqb_neq in E.
    destruct (@getitem_lt _ a k) as (v & -> & Hv); [lia|]. simpl.
    destruct (item_eq v x) eqn:Ev.
    + exists (Some k). split; [reflexivity|]. split.
      * intros i Ei. inversion Ei; subst. eauto.
      * intros Hnone. rewrite (Hnone v) in Ev; [discriminate|].
        eapply nth_error_In; eauto.
    + exists None. split; [reflexivity|]. split; [discriminate|reflexivity].
Qed.
End SearchTotality.

(** X5.  On every list, sorted or not, the search helpers return without
    raising, and an item they return is an item of the list: the bisection
    never reads outside the list and the guards before [a[i]] and
    [a[i - 1]] exclude the two positions that do not exist. *)
Theorem search_helpers_never_raise (K A : Type) (O : PyOrd K)
  (key : A -> K) (a : list A) (b : list K) (x : K) :
  ((exists r, BisectHelpers.find_eq_by_key a x key = Ok r
              /\ forall v, r = Some v -> In v a)
   /\ (exists r, BisectHelpers.find_lt_by_key a x key = Ok r
                 /\ forall v, r = Some v -> In v a)
   /\ (exists r, BisectHelpers.find_le_by_key a x key = Ok r
                 /\ forall v, r = Some v -> In v a)
   /\ (exists r, BisectHelpers.find_gt_by_key a x key = Ok r
                 /\ forall v, r = Some v -> In v a)
   /\ (exists r, BisectHelpers.find_ge_by_key a x key = Ok r
                 /\ forall v, r = Some v -> In v a))
  /\ (exists r, BisectHelpers.index b x = Ok r
                /\ forall i, r = Some i -> (i < length b)%nat)
  /\ (exists r, BisectHelpers.find_lt b x = Ok r /\ forall v, r = Some v -> In v b)
  /\ (exists r, BisectHelpers.find_le b x = Ok r /\ forall v, r = Some v -> In v b)
  /\ (exists r, BisectHelpers.find_gt b x = Ok r /\ forall v, r = Some v -> In v b)
  /\ (exists r, BisectHelpers.find_ge b x = Ok r /\ forall v, r = Some v -> In v b).
Proof.
  split; [exact (keyed_search_total key a x)|].
  pose proof (keyed_search_total (fun v : K => v) b x) as (_ & Hlt & Hle & Hgt & Hge).
  split.
  - unfold BisectHelpers.index.
    destruct (bisect_left_total b x) as (k & -> & Hk). cbn [bind].
    destruct (k =? length b)%nat eqn:E; simpl.
    + exists None. split; [reflexivity|discriminate].
    + apply Nat.eqb_neq in E.
      destruct (@getitem_lt _ b k) as (v & -> & Hv); [lia|]. simpl.
      destruct (eqb v x).
      * exists (Some k). split; [reflexivity|]. intros i Ei. inversion Ei. lia.
      * exists None. split; [reflexivity|discriminate].
  - rewrite find_lt_keyed, find_le_keyed, find_gt_keyed, find_ge_keyed.
    repeat split; assumption.
Qed.

(** The helpers on a list that is not sorted. *)
Example search_unsorted :
  BisectHelpers.find_le [7; 1; 5; 3] 4 = Ok (Some 1)
  /\ BisectHelpers.find_gt [7; 1; 5; 3] 4 = Ok (Some 5)
  /\ BisectHelpers.index [7; 1; 5; 3] 7 = Ok None.
Proof. repeat split; reflexivity. Qed.

(** X6.  [index_by_key] compares the item at the insertion point with [x]
    itself, not its key: it returns a position only for an item that is
    equal to [x], and [None] on every list none of whose items equals [x],
    also when some item has the key [x]. *)
Theorem index_by_key_compares_items (K A : Type) (O : PyOrd K)
  (item_eq : A -> K -> bool) (key : A -> K) (a : list A) (x : K) :
  exists r, BisectHelpers.index_by_key item_eq a x key = Ok r
    /\ (forall i, r = Some i ->
          exists v, nth_error a i = Some v /\ item_eq v x = true)
    /\ ((forall v, In v a -> item_eq v x = false) -> r = None).
Proof. exact (index_by_key_items item_eq key a x). Qed.

(** A record is never equal to a date: the search by key finds the flow of
    2020-07-01 and [index_by_key] finds no position for it. *)
Lemma index_by_key_compares_items_witness :
  let flows := [mkDatedFlow (mkdate 2020 1 1) 5; mkDatedFlow (mkdate 2020 7 1) 6] in
  (forall v, In v flows -> (fun (_ : DatedFlow) (_ : datetime) => false) v
                             (mkdate 2020 7 1) = false)
  /\ BisectHelpers.index_by_key (fun _ _ => false) flows (mkdate 2020 7 1) df_date
     = Ok None
  /\ BisectHelpers.find_eq_by_key flows (mkdate 2020 7 1) df_date
     = Ok (Some (mkDatedFlow (mkdate 2020 7 1) 6)).
Proof.
  intros flows.
  assert (H0 : forall v, In v flows ->
                 (fun (_ : DatedFlow) (_ : datetime) => false) v (mkdate 2020 7 1)
                 = false) by reflexivity.
  split; [exact H0|]. split; [|reflexivity].
  destruct (index_by_key_compares_items PyOrd_datetime (fun _ _ => false)
              df_date flows (mkdate 2020 7 1)) as (r & Hr & _ & Hnone).
  rewrite Hr. f_equal. exact (Hnone H0).
Defined.

(** ** [get_sublist] *)

Section SublistFacts.
Context {K A : Type} `{PyOrdLaws K}.
Import BisectHelpers.
Variable key : A -> K.

(** Between the number of items below [x] and the number of items at most
    [x] a list holds its items of key [x]. *)
Lemma slice_filter (x : K) (a : list A) :
  forall l r,
    (forall j w, nth_error a j = Some w -> (ltb (key w) x = true <-> (j < l)%nat)) ->
    (forall j w, nth_error a j = Some w -> (ltb x (key w) = false <-> (j < r)%nat)) ->
    firstn (r - l) (skipn l a) = filter (fun v => eqb (key v) x) a.
Proof.
  induction a as [|v a IH]; intros l r Hl Hr.
  - simpl. rewrite skipn_nil. now rewrite firstn_nil.
  - assert (Hl' : forall l', (forall j w, nth_error a j = Some w ->
               (ltb (key w) x = true <-> (S j < S l')%nat)) ->
             forall j w, nth_error a j = Some w ->
               (ltb (key w) x = true <-> (j < l')%nat))
      by (intros l' Hc j w Hj; rewrite (Hc j w Hj); lia).
    assert (Hr' : forall r', (forall j w, nth_error a j = Some w ->
               (ltb x (key w) = false <-> (S j < S r')%nat)) ->
             forall j w, nth_error a j = Some w ->
               (ltb x (key w) = false <-> (j < r')%nat))
      by (intros r' Hc j w Hj; rewrite (Hc j w Hj); lia).
    pose proof (Hl 0%nat v eq_refl) as Hl0. pose proof (Hr 0%nat v eq_refl) as Hr0.
    simpl. destruct (ltb (key v) x) eqn:Elt.
    + (* below x *)
      assert (Hne : eqb (key v) x = false).
      { apply eqb_neq. intro E. rewrite E, ltb_irrefl in Elt. discriminate. }
      rewrite Hne.
      destruct l as [|l']; [exfalso; apply proj1 in Hl0; specialize (Hl0 eq_refl); lia|].
      destruct r as [|r'].
      { exfalso. apply lt_asym in Elt. apply Hr0 in Elt. lia. }
      simpl. apply IH.
      * apply Hl'. intros j w Hj. apply (Hl (S j) w Hj).
      * apply Hr'. intros j w Hj. apply (Hr (S j) w Hj).
    + destruct l as [|l']; [|exfalso; assert (false = true) by (apply Hl0; lia); discriminate].
      destruct (ltb x (key v)) eqn:Egt.
      * (* above x: so is every later item *)
        assert (Hne : eqb (key v) x = false).
        { apply eqb_neq. intro E. rewrite E, ltb_irrefl in Egt. discriminate. }
        rewrite Hne.
        destruct r as [|r']; [|exfalso; assert (true = false) by (apply Hr0; lia); discriminate].
        simpl. symmetry.
        assert (Hnone : forall w, In w a -> eqb (key w) x = false).
        { intros w Hw. apply In_nth_error in Hw as (j & Hj).
          apply eqb_neq. intro E.
          assert (Hf : ltb x (key w) = false) by (rewrite E; apply ltb_irrefl).
          apply (Hr (S j) w Hj) in Hf. lia. }
        clear -Hnone. induction a as [|w a IH]; simpl; [reflexivity|].
        rewrite (Hnone w) by now left. apply IH. intros w' Hw'. apply Hnone. now right.
      * (* the key is x *)
        assert (He : eqb (key v) x = true) by (apply eqb_eq; now apply ltb_total).
        rewrite He.
        destruct r as [|r']; [exfalso; apply proj1 in Hr0; specialize (Hr0 eq_refl); lia|].
        simpl. f_equal. rewrite <- (IH 0%nat r').
        -- now rewrite Nat.sub_0_r.
        -- intros j w Hj. rewrite (Hl (S j) w Hj). lia.
        -- apply Hr'. intros j w Hj. apply (Hr (S j) w Hj).
Qed.

Variable a : list A.
Hypothesis a_sorted : StronglySorted (fun u v => le (key u) (key v)) a.

Lemma get_sublist_primary_sorted (x : K) :
  exists r, get_sublist_primary a x key = Ok r
    /\ match r with
       | Some l => l = filter (fun v => eqb (key v) x) a
       | None => filter (fun v => eqb (key v) x) a = []
       end.
Proof.
  pose proof (keys_sorted key a_sorted) as Hks.
  unfold get_sublist_primary.
  destruct (index_sorted x Hks) as (ri & Hri & Sri).
  pose proof Hri as Hri'. unfold index in Hri'.
  destruct (left_point key a_sorted x) as (kl & Hkl & Hkll & Hlspec).
  rewrite Hkl in Hri'. cbn [bind] in Hri'.
  rewrite Hri. cbn [bind].
  destruct ri as [i|].
  - (* the value is found at the insertion point *)
    assert (i = kl) as ->.
    { rewrite length_map in Hri'.
      destruct (kl =? length a)%nat; simpl in Hri'; [discriminate|].
      destruct (getitem (map key a) kl); simpl in Hri'; [|discriminate].
      destruct (eqb a0 x); inversion Hri'. reflexivity. }
    unfold find_gt.
    destruct (right_point key a_sorted x) as (kr & -> & Hkrl & Hrspec). cbn [bind].
    assert (Hright :
      (' next_value <-
         (if negb (kr =? length (map key a))%nat
          then v <- getitem (map key a) kr ;; Ok (Some v) else Ok None) ;;
       ' primary_value_right_index <-
         match next_value with
         | None => Ok (Some (length a))
         | Some v => index (map key a) v
         end ;;
       Ok (Some (py_slice a kl primary_value_right_index)))
      = Ok (Some (py_slice a kl (Some kr)))).
    { rewrite length_map. destruct (kr =? length a)%nat eqn:E; simpl.
      - apply Nat.eqb_eq in E. subst kr. reflexivity.
      - apply Nat.eqb_neq in E.
        destruct (@getitem_lt _ (map key a) kr) as (nv & -> & Hnv);
          [rewrite length_map; lia|]. simpl.
        destruct (index_sorted nv Hks) as (r2 & -> & Sr2). simpl.
        destruct r2 as [i2|].
        + destruct Sr2 as [Hi2 Hleft].
          assert (i2 = kr) as ->; [|reflexivity].
          destruct (Nat.lt_trichotomy i2 kr) as [Hlt|[Heq|Hgt]]; [|exact Heq|].
          * exfalso. apply (Hrspec i2 nv Hi2) in Hlt.
            assert (negb (ltb x nv) = false); [|congruence].
            destruct (negb (ltb x nv)) eqn:E2; [|reflexivity].
            apply (Hrspec kr nv Hnv) in E2. lia.
          * exfalso. exact (Hleft kr Hgt Hnv).
        + exfalso. apply Sr2. eapply nth_error_In; eauto. }
    rewrite Hright.
    eexists. split; [reflexivity|]. unfold py_slice.
    apply slice_filter.
    + intros j w Hj. apply (Hlspec j (key w)). now apply nth_key.
    + intros j w Hj. rewrite <- (Hrspec j (key w) (nth_key key a _ Hj)).
      now rewrite negb_true_iff.
  - exists None. split; [reflexivity|].
    assert (Hnone : forall w, In w a -> eqb (key w) x = false).
    { intros w Hw. apply eqb_neq. intro E. apply Sri. rewrite <- E.
      now apply in_map. }
    clear -Hnone. induction a as [|w l IH]; simpl; [reflexivity|].
    rewrite (Hnone w) by now left. apply IH. intros w' Hw'. apply Hnone. now right.
Qed.
End SublistFacts.

(** X7.  On a list sorted by its primary key, [get_sublist] returns the run
    of the items whose primary key equals the requested value, in their
    order, and the empty list when that value is absent; when that run is
    sorted by the secondary key, a secondary value narrows the result to the
    items that match both values. *)
Theorem get_sublist_is_filter (K1 K2 A : Type) (O1 : PyOrd K1)
  (L1 : PyOrdLaws K1) (O2 : PyOrd K2) (L2 : PyOrdLaws K2)
  (a : list A) (primary_value : K1) (primary_value_key : A -> K1)
  (secondary_value : K2) (secondary_value_key : A -> K2) :
  StronglySorted (fun u v => le (primary_value_key u) (primary_value_key v)) a ->
  BisectHelpers.get_sublist a primary_value primary_value_key
    (@None (K2 * (A -> K2)))
  = Ok (filter (fun v => eqb (primary_value_key v) primary_value) a)
  /\ (StronglySorted
        (fun u v => le (secondary_value_key u) (secondary_value_key v))
        (filter (fun v => eqb (primary_value_key v) primary_value) a) ->
      BisectHelpers.get_sublist a primary_value primary_value_key
        (Some (secondary_value, secondary_value_key))
      = Ok (filter (fun v => eqb (secondary_value_key v) secondary_value)
              (filter (fun v => eqb (primary_value_key v) primary_value) a))).
Proof.
  intros Hs. unfold BisectHelpers.get_sublist.
  destruct (get_sublist_primary_sorted primary_value_key Hs primary_value)
    as (r & -> & Hr). cbn [bind].
  destruct r as [l|].
  - subst l. split; [reflexivity|]. intros Hs2.
    destruct (get_sublist_primary_sorted secondary_value_key Hs2 secondary_value)
      as (r2 & -> & Hr2). cbn [bind].
    destruct r2 as [l2|]; [now subst l2|now rewrite Hr2].
  - rewrite Hr. split; [reflexivity|]. intros _. reflexivity.
Qed.

Definition two_key_sample : list (Z * Z * string) :=
  [(1, 5, "a"%string); (2, 1, "b"%string); (2, 4, "c"%string);
   (2, 4, "d"%string); (2, 9, "e"%string); (3, 0, "f"%string)].

Lemma get_sublist_is_filter_witness :
  let k1 := fun v : Z * Z * string => fst (fst v) in
  let k2 := fun v : Z * Z * string => snd (fst v) in
  StronglySorted (fun u v => le (k1 u) (k1 v)) two_key_sample
  /\ StronglySorted (fun u v => le (k2 u) (k2 v))
       (filter (fun v => eqb (k1 v) 2) two_key_sample)
  /\ BisectHelpers.get_sublist two_key_sample 2 k1 (@None (Z * (_ -> Z)))
     = Ok (filter (fun v => eqb (k1 v) 2) two_key_sample)
  /\ BisectHelpers.get_sublist two_key_sample 2 k1 (Some (4, k2))
     = Ok (filter (fun v => eqb (k2 v) 4)
             (filter (fun v => eqb (k1 v) 2) two_key_sample))
  /\ BisectHelpers.get_sublist two_key_sample 2 k1 (Some (4, k2))
     = Ok [(2, 4, "c"%string); (2, 4, "d"%string)].
Proof.
  intros k1 k2.
  assert (H1 : StronglySorted (fun u v => le (k1 u) (k1 v)) two_key_sample)
    by (repeat constructor).
  assert (H2 : StronglySorted (fun u v => le (k2 u) (k2 v))
                 (filter (fun v => eqb (k1 v) 2) two_key_sample))
    by (repeat constructor).
  split; [exact H1|]. split; [exact H2|].
  destruct (@get_sublist_is_filter Z Z _ PyOrd_Z PyOrdLaws_Z PyOrd_Z PyOrdLaws_Z
              two_key_sample 2 k1 4 k2 H1) as [Hp Hsec].
  split; [exact Hp|]. split; [exact (Hsec H2)|reflexivity].
Defined.

(* ================================================================== *)
(** * Further properties of the aggregation *)
(* ================================================================== *)

Lemma mapM_raises {A B : Type} (f : A -> result B) (e : exn) (l : list A) :
  (forall x, In x l -> (exists y, f x = Ok y) \/ f x = Raise e) ->
  (exists x, In x l /\ f x = Raise e) ->
  mapM f l = Raise e.
Proof.
  induction l as [|x l IH]; intros Hall (x0 & Hx0 & Hraise); [contradiction|].
  simpl. destruct (Hall x (or_introl eq_refl)) as [[y Hy]|Hr];
    [|now rewrite Hr].
  rewrite Hy. simpl. destruct Hx0 as [E|Hx0]; [congruence|].
  rewrite IH; [reflexivity| |eauto]. intros x' Hx'. apply Hall. now right.
Qed.

Lemma filterM_raises {A : Type} (p : A -> result bool) (e : exn) (l : list A) :
  (forall x, In x l -> (exists b, p x = Ok b) \/ p x = Raise e) ->
  (exists x, In x l /\ p x = Raise e) ->
  filterM p l = Raise e.
Proof.
  induction l as [|x l IH]; intros Hall (x0 & Hx0 & Hraise); [contradiction|].
  simpl. destruct (Hall x (or_introl eq_refl)) as [[b Hb]|Hr];
    [|now rewrite Hr].
  rewrite Hb. simpl. destruct Hx0 as [E|Hx0]; [congruence|].
  rewrite IH; [reflexivity| |eauto]. intros x' Hx'. apply Hall. now right.
Qed.

Lemma set_iter_nil (so : SetOrder) : set_iter [] = [].
Proof. apply Permutation_nil. symmetry. exact (set_iter_perm []). Qed.

(** X8.  Under a type filter (an identifier other than 0),
    [aggregate_transactions_by_date] raises the "Invalid state" exception
    when the first transaction has no [transactionTypeId], and [KeyError]
    when the first has one and a later transaction has none; on the empty
    list it returns the empty list. *)
Theorem aggregate_missing_type (so : SetOrder) (t : Z) (t0 : Transaction)
  (l : list Transaction) :
  t <> 0 ->
  (transactionTypeId t0 = None ->
   TransactionUtils.aggregate_transactions_by_date (t0 :: l) (Some t)
   = Raise InvalidState)
  /\ (transactionTypeId t0 <> None ->
      Exists (fun u => transactionTypeId u = None) l ->
      TransactionUtils.aggregate_transactions_by_date (t0 :: l) (Some t)
      = Raise KeyError)
  /\ TransactionUtils.aggregate_transactions_by_date [] (Some t) = Ok [].
Proof.
  intros Ht. unfold TransactionUtils.aggregate_transactions_by_date.
  cbn [TransactionUtils.filter_requested].
  destruct (t =? 0) eqn:E; [apply Z.eqb_eq in E; contradiction|].
  split; [|split].
  - intros ->. reflexivity.
  - intros Ht0 Hex. destruct (transactionTypeId t0) as [ty|] eqn:E0; [|congruence].
    cbn [bind].
    rewrite (@filterM_raises _ (TransactionUtils.has_type t) KeyError (t0 :: l));
      [reflexivity| |].
    + intros u _. unfold TransactionUtils.has_type.
      destruct (transactionTypeId u); [left; eauto|now right].
    + apply Exists_exists in Hex as (u & Hu & Hnone). exists u.
      split; [now right|]. unfold TransactionUtils.has_type. now rewrite Hnone.
  - simpl. rewrite set_iter_nil. reflexivity.
Qed.

Lemma aggregate_missing_type_witness :
  (1 <> 0)
  /\ @TransactionUtils.aggregate_transactions_by_date insertion_order
       [mkTransaction "2020-01-01" (Some 1%Q) None;
        mkTransaction "2020-01-02" (Some 1%Q) (Some 1)] (Some 1)
     = Raise InvalidState
  /\ @TransactionUtils.aggregate_transactions_by_date insertion_order
       [mkTransaction "2020-01-01" (Some 1%Q) (Some 2);
        mkTransaction "2020-01-02" (Some 1%Q) None] (Some 1)
     = Raise KeyError.
Proof.
  assert (H0 : 1 <> 0) by discriminate.
  split; [exact H0|]. split.
  - exact (proj1 (aggregate_missing_type insertion_order
                    (mkTransaction "2020-01-01" (Some 1%Q) None)
                    [mkTransaction "2020-01-02" (Some 1%Q) (Some 1)] H0) eq_refl).
  - refine (proj1 (proj2 (aggregate_missing_type insertion_order
                            (mkTransaction "2020-01-01" (Some 1%Q) (Some 2))
                            [mkTransaction "2020-01-02" (Some 1%Q) None] H0)) _ _).
    + discriminate.
    + left. reflexivity.
Defined.

(** X9.  When the filter is absent or a non-zero identifier and every
    transaction carries a type where one is needed, a selected transaction
    whose date does not parse makes [aggregate_transactions_by_date] raise
    [ValueError]; the dates of the transactions that the filter leaves out
    are never parsed. *)
Theorem aggregate_malformed_date (so : SetOrder)
  (transactions : list Transaction) (transaction_type_id : option Z) :
  transaction_type_id <> Some 0 ->
  (transaction_type_id <> None ->
   Forall (fun t => transactionTypeId t <> None) transactions) ->
  Exists (fun t => matches_filter transaction_type_id t = true
                   /\ strptime (txn_date t) = None) transactions ->
  TransactionUtils.aggregate_transactions_by_date transactions
    transaction_type_id = Raise ValueError.
Proof.
  intros Hf Hty Hex. rewrite (aggregate_unfold Hf Hty).
  set (T := filter (matches_filter transaction_type_id) transactions).
  unfold aggregate_filtered. rewrite summed_as_flows.
  unfold py_sortedM.
  rewrite (@mapM_raises _ _ _ ValueError); [reflexivity| |].
  - intros x Hx. apply in_map_iff in Hx as (c & <- & _). simpl.
    unfold strptimeM. destruct (strptime (cf_date c)); simpl; [left; eauto|now right].
  - apply Exists_exists in Hex as (u & Hu & Hmatch & Hdate).
    exists (Some (mkCashFlow (txn_date u) (group_value T (txn_date u)))). split.
    + apply in_map, in_map_iff. exists (txn_date u). split; [reflexivity|].
      eapply Permutation_in; [symmetry; apply set_iter_perm|].
      apply nodup_In, in_map. apply filter_In. auto.
    + simpl. unfold strptimeM. now rewrite Hdate.
Qed.

Lemma aggregate_malformed_date_witness :
  let transactions :=
    [mkTransaction "2020-01-01" (Some 1%Q) (Some 1);
     mkTransaction "2020-13-01" (Some 2%Q) (Some 1);
     mkTransaction "yesterday" (Some 3%Q) (Some 2)] in
  Some 1 <> Some 0
  /\ Exists (fun t => matches_filter (Some 1) t = true
                      /\ strptime (txn_date t) = None) transactions
  /\ @TransactionUtils.aggregate_transactions_by_date insertion_order
       transactions (Some 1) = Raise ValueError
  /\ @TransactionUtils.aggregate_transactions_by_date insertion_order
       [mkTransaction "2020-01-01" (Some 1%Q) (Some 1);
        mkTransaction "yesterday" (Some 3%Q) (Some 2)] (Some 1)
     = Ok [mkCashFlow "2020-01-01" (0 + 1)].
Proof.
  intros transactions.
  assert (H0 : Some 1 <> Some 0) by discriminate.
  assert (H1 : Exists (fun t => matches_filter (Some 1) t = true
                                /\ strptime (txn_date t) = None) transactions)
    by (right; left; split; reflexivity).
  split; [exact H0|]. split; [exact H1|]. split; [|reflexivity].
  apply (aggregate_malformed_date insertion_order H0); [|exact H1].
  intros _. repeat constructor; discriminate.
Defined.

(** A list sorted by a key and a permutation of it that is strictly sorted
    by the same key are the same list. *)
Lemma sorted_perm_unique {K A : Type} {O : PyOrd K} {L : PyOrdLaws K}
  (key : A -> K) (l1 l2 : list A) :
  StronglySorted (fun u v => le (key u) (key v)) l1 ->
  StronglySorted (fun u v => ltb (key u) (key v) = true) l2 ->
  Permutation l1 l2 -> l1 = l2.
Proof.
  revert l2. induction l1 as [|x l1 IH]; intros l2 H1 H2 Hp.
  - apply Permutation_nil in Hp. now subst.
  - destruct l2 as [|y l2]; [apply Permutation_sym, Permutation_nil in Hp; discriminate|].
    inversion H1 as [|? ? H1' Hx]; subst. inversion H2 as [|? ? H2' Hy]; subst.
    rewrite Forall_forall in Hx, Hy.
    assert (x = y) as ->.
    { assert (Hxin : In x (y :: l2)) by (eapply Permutation_in; [exact Hp|now left]).
      assert (Hyin : In y (x :: l1))
        by (eapply Permutation_in; [symmetry; exact Hp|now left]).
      destruct Hxin as [E|Hxin]; [now symmetry|].
      destruct Hyin as [E|Hyin]; [exact E|].
      pose proof (Hy x Hxin) as Hlt. pose proof (Hx y Hyin) as Hle.
      unfold le in Hle. congruence. }
    f_equal. apply IH; auto. eapply Permutation_cons_inv; eauto.
Qed.

(** An aggregated flow read again as a transaction. *)
Definition as_transaction (c : CashFlow) : Transaction :=
  mkTransaction (cf_date c) (Some (cf_value c)) None.

(** Strictly ascending calendar order of two textual dates. *)
Definition date_lt (a b : CashFlow) : Prop :=
  exists da db, strptime (cf_date a) = Some da
                /\ strptime (cf_date b) = Some db /\ ltb da db = true.

Section IdempotenceFacts.
Context {so : SetOrder}.

Definition parsed_or_epoch (c : CashFlow) : datetime :=
  match strptime (cf_date c) with
  | Some d => d
  | None => mkdate 1 1 1
  end.

Lemma date_le_parsed (l : list CashFlow) :
  StronglySorted date_le l ->
  StronglySorted (fun u v => le (parsed_or_epoch u) (parsed_or_epoch v)) l.
Proof.
  induction 1 as [|c l Hs IH Hall]; constructor; [exact IH|].
  eapply Forall_impl; [|exact Hall]. intros b (da & db & Ha & Hb & Hle).
  unfold parsed_or_epoch. now rewrite Ha, Hb.
Qed.

Lemma date_lt_parsed (l : list CashFlow) :
  StronglySorted date_lt l ->
  StronglySorted (fun u v => ltb (parsed_or_epoch u) (parsed_or_epoch v) = true) l.
Proof.
  induction 1 as [|c l Hs IH Hall]; constructor; [exact IH|].
  eapply Forall_impl; [|exact Hall]. intros b (da & db & Ha & Hb & Hlt).
  unfold parsed_or_epoch. now rewrite Ha, Hb.
Qed.

Lemma date_lt_NoDup (l : list CashFlow) :
  StronglySorted date_lt l -> NoDup (map cf_date l).
Proof.
  induction 1 as [|c l Hs IH Hall]; simpl; constructor; [|exact IH].
  intros Hin. apply in_map_iff in Hin as (b & Hb & Hbl).
  rewrite Forall_forall in Hall. destruct (Hall b Hbl) as (da & db & Ha & Hb' & Hlt).
  rewrite Hb, Ha in Hb'. inversion Hb'; subst.
  change (datetime_ltb db db = true) in Hlt.
  pose proof (ltb_irrefl db) as Hirr. simpl in Hirr. congruence.
Qed.

Lemma group_value_single (l : list CashFlow) (c : CashFlow) :
  NoDup (map cf_date l) -> In c l ->
  (group_value (map as_transaction l) (cf_date c) == cf_value c)%Q.
Proof.
  intros Hnd Hc. rewrite group_value_total. unfold total_value.
  induction l as [|b l IH]; [contradiction|].
  simpl in Hnd. inversion Hnd as [|? ? Hnin Hnd']; subst. simpl.
  destruct Hc as [->|Hc].
  - rewrite String.eqb_refl. simpl.
    assert (E : filter (fun u => String.eqb (txn_date u) (cf_date c))
                  (map as_transaction l) = []).
    { clear -Hnin. induction l as [|b l IH]; simpl; [reflexivity|].
      destruct (String.eqb (cf_date b) (cf_date c)) eqn:E.
      - apply String.eqb_eq in E. exfalso. apply Hnin. simpl. now left.
      - apply IH. intro Hin. apply Hnin. now right. }
    rewrite E. simpl.
    destruct (truthy (cf_value c)) eqn:Et; [ring|].
    apply truthy_false in Et. rewrite Et. ring.
  - destruct (String.eqb (cf_date b) (cf_date c)) eqn:E.
    + apply String.eqb_eq in E. exfalso. apply Hnin. rewrite E. now apply in_map.
    + now apply IH.
Qed.
End IdempotenceFacts.

(** X10.  Aggregating again a list that is already aggregated (its dates
    well formed and in strictly ascending calendar order) returns the same
    dates in the same order with equal values. *)
Theorem aggregate_idempotent (so : SetOrder) (aggregated : list CashFlow) :
  StronglySorted date_lt aggregated ->
  Forall (fun c => strptime (cf_date c) <> None) aggregated ->
  exists out,
    TransactionUtils.aggregate_transactions_by_date
      (map as_transaction aggregated) None = Ok out
    /\ Forall2 (fun c c' => cf_date c' = cf_date c
                            /\ (cf_value c' == cf_value c)%Q) aggregated out.
Proof.
  intros Hlt Hdates.
  assert (Hnone : @None Z <> Some 0) by discriminate.
  rewrite (@aggregate_unfold so (map as_transaction aggregated) None Hnone)
    by (intros Hc; congruence).
  rewrite filter_none.
  destruct (@aggregate_filtered_Ok so (map as_transaction aggregated))
    as (out & -> & Hperm & Hsorted).
  { apply Forall_map. eapply Forall_impl; [|exact Hdates]. auto. }
  exists out. split; [reflexivity|].
  pose proof (date_lt_NoDup Hlt) as Hnd.
  assert (Edates : map txn_date (map as_transaction aggregated)
                   = map cf_date aggregated)
    by (rewrite map_map; reflexivity).
  rewrite Edates, (nodup_fixed_point string_dec Hnd), map_map in Hperm.
  set (T := map as_transaction aggregated) in *.
  set (relabel := fun c => mkCashFlow (cf_date c) (group_value T (cf_date c))) in *.
  assert (Hout : out = map relabel aggregated).
  { apply (sorted_perm_unique parsed_or_epoch).
    - now apply date_le_parsed.
    - apply date_lt_parsed.
      assert (G : forall l, StronglySorted date_lt l ->
                StronglySorted date_lt (map relabel l)).
      { induction 1 as [|c l Hs IH Hall]; simpl; constructor; [exact IH|].
        apply Forall_map. eapply Forall_impl; [|exact Hall].
        intros b Hb. exact Hb. }
      now apply G.
    - exact Hperm. }
  rewrite Hout. clear -Hnd.
  assert (G : forall l, incl l aggregated ->
            Forall2 (fun c c' => cf_date c' = cf_date c
                                 /\ (cf_value c' == cf_value c)%Q) l (map relabel l)).
  { induction l as [|c l IH]; intros Hincl; simpl; constructor.
    - split; [reflexivity|]. simpl. apply group_value_single; [exact Hnd|].
      apply Hincl. now left.
    - apply IH. intros b Hb. apply Hincl. now right. }
  apply G. apply incl_refl.
Qed.

Lemma aggregate_idempotent_witness :
  let aggregated :=
    [mkCashFlow "2020-9-01" 3; mkCashFlow "2020-10-01" 5;
     mkCashFlow "2021-01-01" 0] in
  StronglySorted date_lt aggregated
  /\ Forall (fun c => strptime (cf_date c) <> None) aggregated
  /\ exists out,
       @TransactionUtils.aggregate_transactions_by_date insertion_order
         (map as_transaction aggregated) None = Ok out
       /\ Forall2 (fun c c' => cf_date c' = cf_date c
                               /\ (cf_value c' == cf_value c)%Q) aggregated out.
Proof.
  intros aggregated.
  assert (H1 : StronglySorted date_lt aggregated).
  { repeat constructor; do 2 eexists; repeat split; vm_compute; reflexivity. }
  assert (H2 : Forall (fun c => strptime (cf_date c) <> None) aggregated)
    by (repeat constructor; vm_compute; discriminate).
  split; [exact H1|]. split; [exact H2|].
  exact (aggregate_idempotent insertion_order H1 H2).
Defined.

(* ================================================================== *)
(** * Further properties of the Long-Nickels loop *)
(* ================================================================== *)

(** The aggregated flow that the loop finds on the date of a benchmark
    return, 0 when it finds none. *)
Definition net_at (flows : list DatedFlow) (br : BenchmarkReturn) : Q :=
  match strptime (br_date br) with
  | Some d => net_on flows d
  | None => 0%Q
  end.

(** The sum of the flows found on the dates up to and including position
    [i]. *)
Definition cumulative (flows : list DatedFlow) (brs : list BenchmarkReturn)
  (i : nat) : Q :=
  Qsum (map (net_at flows) (firstn (S i) brs)).

(** The fields that the [dpi]/[rvpi]/[tvpi] block leaves alone. *)
Definition same_entry (o br : BenchmarkReturn) : Prop :=
  br_date o = br_date br /\ balance o = balance br
  /\ timeWeightedReturn o = timeWeightedReturn br
  /\ cumulativeTimeWeightedReturn o = cumulativeTimeWeightedReturn br
  /\ kaplanSchoarMultiple o = kaplanSchoarMultiple br
  /\ xirr o = xirr br.

(** The three multiples of an entry for the paid-in capital [paid_in]:
    the two quotients and their sum, or zeros when nothing is paid in. *)
Definition multiples_of (o : BenchmarkReturn) (paid_in n_dpi n_rvpi : Q)
  : Prop :=
  exists p r,
    dpi o = Some p /\ rvpi o = Some r /\ tvpi o = Some (p + r)%Q
    /\ ((paid_in == 0)%Q -> (p == 0)%Q /\ (r == 0)%Q)
    /\ (~ (paid_in == 0)%Q ->
        (p == n_dpi / paid_in)%Q /\ (r == n_rvpi / paid_in)%Q).

Lemma multiples_of_eq (o : BenchmarkReturn) (a a' b b' c c' : Q) :
  (a == a')%Q -> (b == b')%Q -> (c == c')%Q ->
  multiples_of o a b c -> multiples_of o a' b' c'.
Proof.
  intros Ha Hb Hc (p & r & Hp & Hr & Ht & Hz & Hnz).
  exists p, r. repeat (split; [assumption|]). split.
  - intros E. apply Hz. now rewrite Ha.
  - intros E. destruct Hnz as [Hp' Hr']; [now rewrite Ha|].
    split; [rewrite Hp'|rewrite Hr']; now rewrite Ha, ?Hb, ?Hc.
Qed.

Lemma fill_tvpi_multiples (cc n1 n2 : Q) (b : BenchmarkReturn) :
  exists b', PmeUtils.fill_tvpi true cc n1 n2 b = Ok b'
             /\ same_entry b' b /\ multiples_of b' cc n1 n2.
Proof.
  unfold PmeUtils.fill_tvpi. simpl. destruct (truthy cc) eqn:E.
  - apply truthy_true in E. rewrite !py_div_Ok by exact E. simpl.
    eexists. split; [reflexivity|]. split; [repeat split|].
    do 2 eexists. simpl. repeat (split; [reflexivity|]). split.
    + intros Hz. contradiction.
    + intros _. split; reflexivity.
  - apply truthy_false in E.
    eexists. split; [reflexivity|]. split; [repeat split|].
    do 2 eexists. simpl. repeat (split; [reflexivity|]). split.
    + intros _. split; reflexivity.
    + intros Hnz. contradiction.
Qed.

Lemma firstn_snoc_le {A : Type} (l : list A) (x : A) (n : nat) :
  (n <= length l)%nat -> firstn n (l ++ [x]) = firstn n l.
Proof.
  intros Hn. rewrite firstn_app.
  replace (n - length l)%nat with 0%nat by lia. simpl. apply app_nil_r.
Qed.

Lemma cumulative_snoc (flows : list DatedFlow) (l : list BenchmarkReturn)
  (x : BenchmarkReturn) (i : nat) :
  (i < length l)%nat -> cumulative flows (l ++ [x]) i = cumulative flows l i.
Proof. intros Hi. unfold cumulative. now rewrite firstn_snoc_le by lia. Qed.

Lemma cumulative_last (flows : list DatedFlow) (l : list BenchmarkReturn)
  (x : BenchmarkReturn) :
  (cumulative flows (l ++ [x]) (length l)
   == Qsum (map (net_at flows) l) + net_at flows x)%Q.
Proof.
  unfold cumulative. rewrite firstn_all2 by (rewrite length_app; simpl; lia).
  rewrite map_app, Qsum_app. simpl. ring.
Qed.

Section LongNickelsMultiples.
Context {so : SetOrder} {num : Numerics} {enum : TransactionTypeEnum}.
Import PmeUtils.
Variables contribs distribs : list DatedFlow.

Definition ln_m_inv (s : LNState) (done : list BenchmarkReturn) : Prop :=
  length (theoretical_investment_series s) = length done
  /\ length (ln_benchmark_returns s) = length done
  /\ (ln_cumulative_contributions s == Qsum (map (net_at contribs) done))%Q
  /\ (ln_cumulative_distributions s == Qsum (map (net_at distribs) done))%Q
  /\ forall i br, nth_error done i = Some br ->
       exists item o,
         nth_error (theoretical_investment_series s) i = Some item
         /\ nth_error (ln_benchmark_returns s) i = Some o
         /\ same_entry o br
         /\ multiples_of o (cumulative contribs done i)
              (- cumulative distribs done i) (bi_balance item).

Lemma ln_step_multiples (s : LNState) (done : list BenchmarkReturn)
  (br : BenchmarkReturn) :
  ln_m_inv s done -> strptime (br_date br) <> None ->
  exists s', ln_step contribs distribs true s br = Ok s'
             /\ ln_m_inv s' (done ++ [br]).
Proof.
  intros (Hls & Hlo & Hcc & Hcd & Hrec) Hdate. unfold ln_step.
  unfold strptimeM. destruct (strptime (br_date br)) as [d|] eqn:Ed; [|congruence].
  cbn [bind].
  assert (Hnc : net_at contribs br = net_on contribs d)
    by (unfold net_at; now rewrite Ed).
  assert (Hnd : net_at distribs br = net_on distribs d)
    by (unfold net_at; now rewrite Ed).
  destruct (find_eq_net_on contribs d) as (rc & -> & Hc).
  destruct (find_eq_net_on distribs d) as (rd & -> & Hd). cbn [bind].
  rewrite <- Hc in Hnc. rewrite <- Hd in Hnd. clear Hc Hd.
  assert (G : forall cv cc cd,
    (cc == ln_cumulative_contributions s + net_at contribs br)%Q ->
    (cd == ln_cumulative_distributions s + net_at distribs br)%Q ->
    exists s',
      (benchmark_return <- fill_tvpi true cc (-1 * cd)%Q cv br ;;
       Ok (mkLNState (Some cv) cc cd
             (theoretical_investment_series s ++ [mkBalanceItem (br_date br) cv])
             (ln_benchmark_returns s ++ [benchmark_return]))) = Ok s'
      /\ ln_m_inv s' (done ++ [br])).
  { intros cv cc cd Hcc' Hcd'.
    destruct (fill_tvpi_multiples cc (-1 * cd)%Q cv br) as (b' & -> & Hsame & Hm).
    cbn [bind]. eexists. split; [reflexivity|]. unfold ln_m_inv.
    cbn [theoretical_investment_series ln_benchmark_returns
         ln_cumulative_contributions ln_cumulative_distributions].
    rewrite !length_app, !map_app, !Qsum_app. cbn [length map Qsum fold_right].
    split; [lia|]. split; [lia|].
    split; [rewrite Hcc', Hcc; ring|]. split; [rewrite Hcd', Hcd; ring|].
    intros i br' Hi. apply nth_error_snoc_inv in Hi as [[Hlt Hi]|[-> ->]].
    - destruct (Hrec i br' Hi) as (item & o & Hitem & Ho & Hs & Hmo).
      exists item, o. rewrite !nth_error_snoc_lt by lia.
      rewrite !cumulative_snoc by lia. auto.
    - exists (mkBalanceItem (br_date br) cv), b'.
      rewrite <- Hls at 1. rewrite nth_error_snoc_last.
      rewrite <- Hlo at 1. rewrite nth_error_snoc_last.
      split; [reflexivity|]. split; [reflexivity|]. split; [exact Hsame|].
      eapply multiples_of_eq; [| | |exact Hm].
      + rewrite cumulative_last, Hcc', Hcc. reflexivity.
      + rewrite cumulative_last, Hcd', Hcd. ring.
      + reflexivity. }
  destruct rc as [c|], rd as [d0|]; simpl in Hnc, Hnd; cbv iota beta;
    apply G; rewrite ?Hnc, ?Hnd; ring.
Qed.

Lemma ln_fold_multiples (brs : list BenchmarkReturn) :
  Forall (fun br => strptime (br_date br) <> None) brs ->
  exists s, foldM (ln_step contribs distribs true) brs ln_init = Ok s
            /\ ln_m_inv s brs.
Proof.
  intros Hdates.
  apply (@foldM_invariant _ _ (ln_step contribs distribs true)
           (fun br => strptime (br_date br) <> None) ln_m_inv
           (@ln_step_multiples) brs ln_init [] Hdates).
  unfold ln_m_inv. simpl. repeat (split; [reflexivity|]).
  intros i br Hi. destruct i; discriminate.
Qed.

Lemma ln_step_untouched (s : LNState) (done : list BenchmarkReturn)
  (br : BenchmarkReturn) :
  ln_benchmark_returns s = done -> strptime (br_date br) <> None ->
  exists s', ln_step contribs distribs false s br = Ok s'
             /\ ln_benchmark_returns s' = done ++ [br].
Proof.
  intros Hout Hdate. unfold ln_step.
  unfold strptimeM. destruct (strptime (br_date br)) as [d|] eqn:Ed; [|congruence].
  cbn [bind].
  destruct (find_eq_net_on contribs d) as (rc & -> & _).
  destruct (find_eq_net_on distribs d) as (rd & -> & _). cbn [bind].
  destruct rc as [c|], rd as [d0|]; cbv iota beta; unfold fill_tvpi; simpl;
    eexists; (split; [reflexivity|]); simpl; now rewrite Hout.
Qed.
End LongNickelsMultiples.

(** The total of the transactions of type [t] on the date of a benchmark
    return. *)
Definition paid_on (transactions : list Transaction) (t : Z)
  (br : BenchmarkReturn) : Q :=
  match strptime (br_date br) with
  | Some d => flows_on transactions t d
  | None => 0%Q
  end.

(** The total of the transactions of type [t] on the dates of the
    benchmark returns up to and including position [i]. *)
Definition cumulated (transactions : list Transaction) (t : Z)
  (brs : list BenchmarkReturn) (i : nat) : Q :=
  Qsum (map (paid_on transactions t) (firstn (S i) brs)).

Lemma cumulative_cumulated (so : SetOrder) (transactions : list Transaction)
  (t : Z) (flows : list DatedFlow) (brs : list BenchmarkReturn) (i : nat) :
  t <> 0 -> wf_transactions transactions -> one_spelling transactions ->
  PmeUtils.aggregated_by_date transactions t = Ok flows ->
  (cumulative flows brs i == cumulated transactions t brs i)%Q.
Proof.
  intros Ht Hwf Hone Hflows. unfold cumulative, cumulated.
  apply Qsum_map_ext. intros br. unfold net_at, paid_on.
  destruct (strptime (br_date br)) as [d|]; [|reflexivity].
  exact (net_on_aggregated d Ht Hwf Hone Hflows).
Qed.

(** X11.  With [calculate_tvpi] set (and no XIRR requested),
    [calculate_long_nickels_PME] returns one entry per benchmark return, in
    order, that differs from it in [dpi], [rvpi] and [tvpi] only: with the
    contributions and the distributions among the transactions on the dates
    up to and including the entry's cumulated, [dpi] is minus the cumulated
    distributions over the cumulated contributions, [rvpi] is the
    theoretical balance of the date over the cumulated contributions,
    [tvpi] is their sum, and all three are 0 while the cumulated
    contributions are zero. *)
Theorem long_nickels_multiples (so : SetOrder) (num : Numerics)
  (enum : TransactionTypeEnum) (benchmark_returns : list BenchmarkReturn)
  (investment_transactions : list Transaction) :
  Contribution <> 0 -> Distribution <> 0 ->
  wf_transactions investment_transactions ->
  one_spelling investment_transactions ->
  Forall (fun br => strptime (br_date br) <> None) benchmark_returns ->
  exists s out,
    PmeUtils.ln_loop benchmark_returns investment_transactions true = Ok s
    /\ PmeUtils.calculate_long_nickels_PME benchmark_returns
         investment_transactions false true = Ok out
    /\ length out = length benchmark_returns
    /\ forall i br, nth_error benchmark_returns i = Some br ->
         exists item o,
           nth_error (PmeUtils.theoretical_investment_series s) i = Some item
           /\ nth_error out i = Some o
           /\ same_entry o br
           /\ multiples_of o
                (cumulated investment_transactions Contribution
                   benchmark_returns i)
                (- cumulated investment_transactions Distribution
                     benchmark_returns i)
                (bi_balance item).
Proof.
  intros Hcn Hdn Hwf Hone Hdates.
  destruct (aggregated_by_date_Ok Contribution Hwf) as (contribs & Hc).
  destruct (aggregated_by_date_Ok Distribution Hwf) as (distribs & Hd).
  destruct (ln_fold_multiples contribs distribs Hdates)
    as (s & Hs & _ & Hlo & _ & _ & Hrec).
  exists s, (PmeUtils.ln_benchmark_returns s).
  assert (Hloop : PmeUtils.ln_loop benchmark_returns investment_transactions
                    true = Ok s).
  { unfold PmeUtils.ln_loop. rewrite Hc, Hd. exact Hs. }
  split; [exact Hloop|]. split.
  { unfold PmeUtils.calculate_long_nickels_PME. now rewrite Hloop. }
  split; [exact Hlo|].
  intros i br Hi. destruct (Hrec i br Hi) as (item & o & Hitem & Ho & Hsame & Hm).
  exists item, o. repeat (split; [assumption|]).
  eapply multiples_of_eq; [| | |exact Hm].
  - exact (@cumulative_cumulated so _ _ _ benchmark_returns i Hcn Hwf Hone Hc).
  - rewrite (@cumulative_cumulated so _ _ _ benchmark_returns i Hdn Hwf Hone Hd).
    reflexivity.
  - reflexivity.
Qed.

Lemma long_nickels_multiples_witness :
  @Contribution enum_1_2 <> 0 /\ @Distribution enum_1_2 <> 0
  /\ wf_transactions scenario_transactions
  /\ one_spelling scenario_transactions
  /\ Forall (fun br => strptime (br_date br) <> None) scenario_returns
  /\ exists s out,
       @PmeUtils.ln_loop insertion_order enum_1_2 scenario_returns
         scenario_transactions true = Ok s
       /\ @PmeUtils.calculate_long_nickels_PME insertion_order whole_years
            enum_1_2 scenario_returns scenario_transactions false true
          = Ok out
       /\ length out = length scenario_returns
       /\ forall i br, nth_error scenario_returns i = Some br ->
            exists item o,
              nth_error (PmeUtils.theoretical_investment_series s) i = Some item
              /\ nth_error out i = Some o
              /\ same_entry o br
              /\ multiples_of o
                   (cumulated scenario_transactions (@Contribution enum_1_2)
                      scenario_returns i)
                   (- cumulated scenario_transactions (@Distribution enum_1_2)
                        scenario_returns i)
                   (bi_balance item).
Proof.
  assert (Hc : @Contribution enum_1_2 <> 0) by discriminate.
  assert (Hd : @Distribution enum_1_2 <> 0) by discriminate.
  assert (H1 : wf_transactions scenario_transactions)
    by (repeat constructor; vm_compute; discriminate).
  assert (H2 : Forall (fun br => strptime (br_date br) <> None) scenario_returns)
    by (repeat constructor; vm_compute; discriminate).
  split; [exact Hc|]. split; [exact Hd|]. split; [exact H1|].
  split; [exact scenario_one_spelling|]. split; [exact H2|].
  exact (long_nickels_multiples insertion_order whole_years enum_1_2 Hc Hd H1
           scenario_one_spelling H2).
Defined.

(** The multiples of the scenario: nothing is distributed before the last
    date, where 600 of the 1000 paid in come back and 610 remain. *)
Example long_nickels_multiples_scenario :
  exists out,
    @PmeUtils.calculate_long_nickels_PME insertion_order whole_years
      enum_1_2 scenario_returns scenario_transactions false true = Ok out
    /\ map (fun o => (option_map Qred (dpi o), option_map Qred (rvpi o),
                      option_map Qred (tvpi o))) out
       = [(Some 0, Some 1, Some 1);
          (Some 0, Some (11 # 10), Some (11 # 10));
          (Some (3 # 5), Some (61 # 100), Some (121 # 100))]%Q.
Proof. eexists. split; vm_compute; reflexivity. Qed.

(** X12.  Called with its default flags (neither XIRR nor multiples
    requested), [calculate_long_nickels_PME] returns the benchmark returns
    it was given, unchanged, whenever the dates and transactions are well
    formed: the theoretical investment series it computes is not part of
    the result. *)
Theorem long_nickels_default_flags (so : SetOrder) (num : Numerics)
  (enum : TransactionTypeEnum) (benchmark_returns : list BenchmarkReturn)
  (investment_transactions : list Transaction) :
  wf_transactions investment_transactions ->
  Forall (fun br => strptime (br_date br) <> None) benchmark_returns ->
  PmeUtils.calculate_long_nickels_PME benchmark_returns
    investment_transactions false false = Ok benchmark_returns.
Proof.
  intros Hwf Hdates.
  destruct (aggregated_by_date_Ok Contribution Hwf) as (contribs & Hc).
  destruct (aggregated_by_date_Ok Distribution Hwf) as (distribs & Hd).
  destruct (@foldM_invariant _ _ (PmeUtils.ln_step contribs distribs false)
              (fun br => strptime (br_date br) <> None)
              (fun s done => PmeUtils.ln_benchmark_returns s = done)
              (@ln_step_untouched contribs distribs)
              benchmark_returns PmeUtils.ln_init [] Hdates eq_refl)
    as (s & Hs & Hout).
  unfold PmeUtils.calculate_long_nickels_PME, PmeUtils.ln_loop.
  rewrite Hc, Hd. cbn [bind]. rewrite Hs. cbn [bind]. simpl in Hout.
  now rewrite Hout.
Qed.

Lemma long_nickels_default_flags_witness :
  wf_transactions scenario_transactions
  /\ Forall (fun br => strptime (br_date br) <> None) scenario_returns
  /\ @PmeUtils.calculate_long_nickels_PME insertion_order whole_years
       enum_1_2 scenario_returns scenario_transactions false false
     = Ok scenario_returns.
Proof.
  assert (H1 : wf_transactions scenario_transactions)
    by (repeat constructor; vm_compute; discriminate).
  assert (H2 : Forall (fun br => strptime (br_date br) <> None) scenario_returns)
    by (repeat constructor; vm_compute; discriminate).
  split; [exact H1|]. split; [exact H2|].
  exact (long_nickels_default_flags insertion_order whole_years enum_1_2 H1 H2).
Defined.

(* ================================================================== *)
(** * The Long-Nickels and the Kaplan-Schoar loops side by side *)
(* ================================================================== *)

(** A running value that is [None] before the first date. *)
Definition opt_val (o : option Q) : Q :=
  match o with
  | Some p => p
  | None => 0%Q
  end.

(** Two entries carry the same [rvpi]. *)
Definition same_rvpi (a b : BenchmarkReturn) : Prop :=
  match rvpi a, rvpi b with
  | Some x, Some y => (x == y)%Q
  | None, None => True
  | _, _ => False
  end.

Section SideBySide.
Context {so : SetOrder} {num : Numerics} {enum : TransactionTypeEnum}.
Import PmeUtils.
Variables contribs distribs : list DatedFlow.
Variable calculate_tvpi : bool.

Definition in_step (s1 : LNState) (s2 : KSState) : Prop :=
  ln_cumulative_contributions s1 = ks_cumulative_contributions s2
  /\ (opt_val (ln_prev_value s1)
      == opt_val (prev_discounted_distribution_value s2)
         + opt_val (prev_discounted_contribution_value s2))%Q
  /\ Forall2 same_rvpi (ln_benchmark_returns s1) (ks_benchmark_returns s2).

Lemma multiple_written (dd dc : Q) (br : BenchmarkReturn) :
  exists b,
    (if negb (Qeq_bool dc 0) then
       m <- py_div dd (-1 * dc) ;; Ok (set_kaplanSchoarMultiple br m)
     else Ok (set_kaplanSchoarMultiple br 0)) = Ok b
    /\ rvpi b = rvpi br.
Proof.
  destruct (Qeq_bool dc 0) eqn:E; simpl.
  - eexists. split; reflexivity.
  - rewrite py_div_Ok.
    + simpl. eexists. split; reflexivity.
    + intros Hz. apply Qeq_bool_neq in E. apply E.
      setoid_replace dc with (- (-1 * dc))%Q by ring. rewrite Hz. reflexivity.
Qed.

Lemma fill_tvpi_same_rvpi (cc n1 n1' n2 n2' : Q) (b b' : BenchmarkReturn) :
  (n2 == n2')%Q -> rvpi b = rvpi b' ->
  exists o o', fill_tvpi calculate_tvpi cc n1 n2 b = Ok o
               /\ fill_tvpi calculate_tvpi cc n1' n2' b' = Ok o'
               /\ same_rvpi o o'.
Proof.
  intros Hn Hr. unfold fill_tvpi. destruct calculate_tvpi; simpl.
  - destruct (truthy cc) eqn:E.
    + apply truthy_true in E. rewrite !py_div_Ok by exact E. simpl.
      do 2 eexists. split; [reflexivity|]. split; [reflexivity|].
      unfold same_rvpi. simpl. now rewrite Hn.
    + do 2 eexists. split; [reflexivity|]. split; [reflexivity|].
      unfold same_rvpi. simpl. reflexivity.
  - do 2 eexists. split; [reflexivity|]. split; [reflexivity|].
    unfold same_rvpi. rewrite Hr. destruct (rvpi b'); reflexivity.
Qed.

Lemma compounded_balance (p : option Q) (r : Q) :
  (match p with
   | Some prev_value =>
       if truthy prev_value then prev_value * (1 + r) else 0
   | None => 0
   end == opt_val p * (1 + r))%Q.
Proof.
  destruct p as [q|]; simpl; [|ring].
  destruct (truthy q) eqn:E; [reflexivity|].
  apply truthy_false in E. rewrite E. ring.
Qed.

Lemma compounded_total (p : option Q) (r : Q) :
  (match p with
   | Some q => q * (1 + r)
   | None => 0
   end == opt_val p * (1 + r))%Q.
Proof. destruct p as [q|]; simpl; ring. Qed.

Lemma steps_in_step (s1 : LNState) (s2 : KSState) (br : BenchmarkReturn) :
  in_step s1 s2 -> strptime (br_date br) <> None ->
  exists s1' s2',
    ln_step contribs distribs calculate_tvpi s1 br = Ok s1'
    /\ ks_step distribs contribs calculate_tvpi s2 br = Ok s2'
    /\ in_step s1' s2'.
Proof.
  intros (Hcc & Hprev & Hout) Hdate. unfold ln_step, ks_step.
  unfold strptimeM. destruct (strptime (br_date br)) as [d|] eqn:Ed; [|congruence].
  cbn [bind].
  destruct (find_eq_net_on contribs d) as (rc & -> & _).
  destruct (find_eq_net_on distribs d) as (rd & -> & _). cbn [bind].
  pose proof (compounded_balance (ln_prev_value s1) (timeWeightedReturn br)) as Hcv.
  pose proof (compounded_total (prev_discounted_distribution_value s2)
                (timeWeightedReturn br)) as Hdd.
  pose proof (compounded_total (prev_discounted_contribution_value s2)
                (timeWeightedReturn br)) as Hdc.
  set (cv0 := match ln_prev_value s1 with
              | Some prev_value =>
                  if truthy prev_value
                  then (prev_value * (1 + timeWeightedReturn br))%Q
                  else 0%Q
              | None => 0%Q
              end) in *.
  set (dd0 := match prev_discounted_distribution_value s2 with
              | Some p => (p * (1 + timeWeightedReturn br))%Q
              | None => 0%Q
              end) in *.
  set (dc0 := match prev_discounted_contribution_value s2 with
              | Some p => (p * (1 + timeWeightedReturn br))%Q
              | None => 0%Q
              end) in *.
  assert (H0 : (cv0 == dd0 + dc0)%Q) by (rewrite Hcv, Hdd, Hdc, Hprev; ring).
  clearbody cv0 dd0 dc0.
  assert (G : forall cv cc cd tdd tdc, (cv == tdd + tdc)%Q ->
    exists s1' s2',
      (benchmark_return <- fill_tvpi calculate_tvpi cc (-1 * cd)%Q cv br ;;
       Ok (mkLNState (Some cv) cc cd
             (theoretical_investment_series s1 ++ [mkBalanceItem (br_date br) cv])
             (ln_benchmark_returns s1 ++ [benchmark_return]))) = Ok s1'
      /\ (benchmark_return <-
            (if negb (Qeq_bool tdc 0) then
               m <- py_div tdd (-1 * tdc) ;;
               Ok (set_kaplanSchoarMultiple br m)
             else Ok (set_kaplanSchoarMultiple br 0)) ;;
          benchmark_return <-
            fill_tvpi calculate_tvpi cc (-1 * tdd)%Q (tdc + tdd)%Q
              benchmark_return ;;
          Ok (mkKSState cc (Some tdd) (Some tdc)
                (ks_benchmark_returns s2 ++ [benchmark_return]))) = Ok s2'
      /\ in_step s1' s2').
  { intros cv cc cd tdd tdc Hcvt.
    destruct (multiple_written tdd tdc br) as (b & -> & Hb). cbn [bind].
    destruct (@fill_tvpi_same_rvpi cc (-1 * cd)%Q (-1 * tdd)%Q cv (tdc + tdd)%Q br b)
      as (o & o' & -> & -> & Hsame).
    - rewrite Hcvt. ring.
    - now rewrite Hb.
    - cbn [bind]. do 2 eexists. split; [reflexivity|]. split; [reflexivity|].
      unfold in_step. simpl. split; [reflexivity|]. split; [rewrite Hcvt; ring|].
      apply Forall2_app; [exact Hout|]. constructor; [exact Hsame|constructor]. }
  rewrite <- Hcc.
  destruct rc as [c|], rd as [d0|]; cbv iota beta zeta; apply G; rewrite H0; ring.
Qed.

Lemma loops_in_step (brs : list BenchmarkReturn) :
  Forall (fun br => strptime (br_date br) <> None) brs ->
  forall s1 s2, in_step s1 s2 ->
  exists s1' s2',
    foldM (ln_step contribs distribs calculate_tvpi) brs s1 = Ok s1'
    /\ foldM (ks_step distribs contribs calculate_tvpi) brs s2 = Ok s2'
    /\ in_step s1' s2'.
Proof.
  induction 1 as [|br brs Hbr Hbrs IH]; intros s1 s2 Hrel; simpl.
  - exists s1, s2. auto.
  - destruct (steps_in_step br Hrel Hbr) as (t1 & t2 & -> & -> & Hrel').
    cbn [bind]. now apply IH.
Qed.
End SideBySide.

(** X13.  On the same well-formed input the Long-Nickels and the
    Kaplan-Schoar algorithms report the same [rvpi] at every date, floats
    being read as exact numbers: the theoretical balance of the former is
    the sum of the two discounted totals of the latter, and both divide by
    the same cumulated contributions. *)
Theorem long_nickels_kaplan_schoar_rvpi (so : SetOrder) (num : Numerics)
  (enum : TransactionTypeEnum) (benchmark_returns : list BenchmarkReturn)
  (investment_transactions : list Transaction) (calculate_tvpi : bool) :
  wf_transactions investment_transactions ->
  Forall (fun br => strptime (br_date br) <> None) benchmark_returns ->
  exists ln ks,
    PmeUtils.calculate_long_nickels_PME benchmark_returns
      investment_transactions false calculate_tvpi = Ok ln
    /\ PmeUtils.calculate_kaplan_schoar_PME benchmark_returns
         investment_transactions calculate_tvpi = Ok ks
    /\ Forall2 same_rvpi ln ks.
Proof.
  intros Hwf Hdates.
  destruct (aggregated_by_date_Ok Contribution Hwf) as (contribs & Hc).
  destruct (aggregated_by_date_Ok Distribution Hwf) as (distribs & Hd).
  destruct (@loops_in_step contribs distribs calculate_tvpi benchmark_returns
              Hdates PmeUtils.ln_init PmeUtils.ks_init)
    as (s1 & s2 & H1 & H2 & _ & _ & Hout).
  { split; [reflexivity|]. split; [reflexivity|]. constructor. }
  exists (PmeUtils.ln_benchmark_returns s1), (PmeUtils.ks_benchmark_returns s2).
  split; [|split; [|exact Hout]].
  - unfold PmeUtils.calculate_long_nickels_PME, PmeUtils.ln_loop.
    rewrite Hc, Hd. cbn [bind]. rewrite H1. reflexivity.
  - unfold PmeUtils.calculate_kaplan_schoar_PME.
    rewrite Hc, Hd. cbn [bind]. rewrite H2. reflexivity.
Qed.

Lemma long_nickels_kaplan_schoar_rvpi_witness :
  wf_transactions scenario_transactions
  /\ Forall (fun br => strptime (br_date br) <> None) scenario_returns
  /\ exists ln ks,
       @PmeUtils.calculate_long_nickels_PME insertion_order whole_years
         enum_1_2 scenario_returns scenario_transactions false true = Ok ln
       /\ @PmeUtils.calculate_kaplan_schoar_PME insertion_order enum_1_2
            scenario_returns scenario_transactions true = Ok ks
       /\ Forall2 same_rvpi ln ks.
Proof.
  assert (H1 : wf_transactions scenario_transactions)
    by (repeat constructor; vm_compute; discriminate).
  assert (H2 : Forall (fun br => strptime (br_date br) <> None) scenario_returns)
    by (repeat constructor; vm_compute; discriminate).
  split; [exact H1|]. split; [exact H2|].
  exact (long_nickels_kaplan_schoar_rvpi insertion_order whole_years enum_1_2
           true H1 H2).
Defined.

(** The [rvpi] of the scenario: 1, 1.1 and 0.61 in both. *)
Example rvpi_scenario :
  exists ln ks,
    @PmeUtils.calculate_long_nickels_PME insertion_order whole_years
      enum_1_2 scenario_returns scenario_transactions false true = Ok ln
    /\ @PmeUtils.calculate_kaplan_schoar_PME insertion_order enum_1_2
         scenario_returns scenario_transactions true = Ok ks
    /\ map (fun o => option_map Qred (rvpi o)) ln
       = [Some 1; Some (11 # 10); Some (61 # 100)]%Q
    /\ map (fun o => option_map Qred (rvpi o)) ks
       = [Some 1; Some (11 # 10); Some (61 # 100)]%Q.
Proof. do 2 eexists. repeat split; vm_compute; reflexivity. Qed.

(* ================================================================== *)
(** * From the builder to the loops *)
(* ================================================================== *)

(** A calendar date whose year is written with four digits. *)
Definition valid_date (d : datetime) : Prop :=
  1 <= year d <= 9999 /\ 1 <= month d <= 12
  /\ 1 <= day d <= days_in_month (year d) (month d).

Lemma digit_cases (n : Z) :
  exists k, n mod 10 = k
    /\ (k = 0 \/ k = 1 \/ k = 2 \/ k = 3 \/ k = 4 \/ k = 5 \/ k = 6 \/ k = 7
        \/ k = 8 \/ k = 9).
Proof.
  exists (n mod 10). split; [reflexivity|].
  pose proof (Z.mod_pos_bound n 10 ltac:(lia)). lia.
Qed.

Lemma digit_of_digit_char (n : Z) : digit_of (digit_char n) = Some (n mod 10).
Proof.
  unfold digit_char. destruct (digit_cases n) as (k & -> & Hk).
  repeat (destruct Hk as [->|Hk]; [reflexivity|]). subst. reflexivity.
Qed.

Lemma digit_char_not_dash (n : Z) : Ascii.eqb (digit_char n) "-"%char = false.
Proof.
  unfold digit_char. destruct (digit_cases n) as (k & -> & Hk).
  repeat (destruct Hk as [->|Hk]; [reflexivity|]). subst. reflexivity.
Qed.

Lemma digit_char_not_space (n : Z) : Ascii.eqb (digit_char n) " "%char = false.
Proof.
  unfold digit_char. destruct (digit_cases n) as (k & -> & Hk).
  repeat (destruct Hk as [->|Hk]; [reflexivity|]). subst. reflexivity.
Qed.

Lemma split_dash_digit (n : Z) (l : list ascii) :
  split_dash (digit_char n :: l)
  = (digit_char n :: fst (split_dash l), snd (split_dash l)).
Proof.
  cbn [split_dash]. rewrite digit_char_not_dash. now destruct (split_dash l).
Qed.

Lemma split_dash_dash (l : list ascii) :
  split_dash ("-"%char :: l) = ([], Some l).
Proof. reflexivity. Qed.

Lemma digits_value_digit (acc n : Z) (l : list ascii) :
  digits_value acc (digit_char n :: l) = digits_value (acc * 10 + n mod 10) l.
Proof. cbn [digits_value]. now rewrite digit_of_digit_char. Qed.

Lemma four_digits (y : Z) :
  0 <= y <= 9999 ->
  (((0 * 10 + (y / 1000) mod 10) * 10 + (y / 100) mod 10) * 10
   + (y / 10) mod 10) * 10 + y mod 10 = y.
Proof. intros Hy. Z.div_mod_to_equations. lia. Qed.

Lemma two_digits (m : Z) :
  0 <= m <= 99 -> (0 * 10 + (m / 10) mod 10) * 10 + m mod 10 = m.
Proof. intros Hm. Z.div_mod_to_equations. lia. Qed.

Lemma days_in_month_le (y m : Z) : days_in_month y m <= 31.
Proof.
  unfold days_in_month. destruct (m =? 2); [destruct (is_leap y); lia|].
  destruct ((m =? 4) || (m =? 6) || (m =? 9) || (m =? 11)); lia.
Qed.

(** What [strftime] writes, [strptime] reads back. *)
Lemma strptime_format_ymd (d : datetime) :
  valid_date d -> strptime (format_ymd d) = Some d.
Proof.
  intros (Hy & Hm & Hd). pose proof (days_in_month_le (year d) (month d)) as H31.
  unfold strptime, format_ymd. rewrite list_ascii_of_string_of_list_ascii.
  unfold pad4, pad2. cbn [app].
  rewrite !split_dash_digit, split_dash_dash. cbn [fst snd].
  rewrite !split_dash_digit, split_dash_dash. cbn [fst snd length Nat.eqb].
  unfold short_field. rewrite !digit_char_not_space. cbn [andb].
  rewrite !digits_value_digit. cbn [digits_value].
  rewrite four_digits, !two_digits by lia.
  replace ((1 <=? year d) && (1 <=? month d) && (month d <=? 12)
           && (1 <=? day d) && (day d <=? days_in_month (year d) (month d)))
    with true.
  - now destruct d.
  - symmetry. rewrite !andb_true_iff, !Z.leb_le. lia.
Qed.

Lemma digit_of_bound (c : ascii) (v : Z) : digit_of c = Some v -> 0 <= v <= 9.
Proof.
  unfold digit_of.
  destruct ((48 <=? Z.of_nat (nat_of_ascii c))
            && (Z.of_nat (nat_of_ascii c) <=? 57)) eqn:E; [|discriminate].
  apply andb_true_iff in E as [E1 E2]. apply Z.leb_le in E1, E2.
  intros H. inversion H. lia.
Qed.

Lemma digits_value_bound (l : list ascii) (acc v : Z) :
  0 <= acc -> digits_value acc l = Some v ->
  v < (acc + 1) * 10 ^ Z.of_nat (length l).
Proof.
  revert acc v. induction l as [|c l IH]; intros acc v Hacc E.
  - simpl in *. inversion E. lia.
  - cbn [digits_value] in E. destruct (digit_of c) as [k|] eqn:Ek; [|discriminate].
    apply digit_of_bound in Ek. apply IH in E; [|lia].
    cbn [length]. rewrite Nat2Z.inj_succ, Z.pow_succ_r by lia.
    assert (0 < 10 ^ Z.of_nat (length l)) by (apply Z.pow_pos_nonneg; lia).
    nia.
Qed.

(** What [strptime] accepts is a calendar date. *)
Lemma strptime_valid (s : string) (d : datetime) :
  strptime s = Some d -> valid_date d.
Proof.
  unfold strptime.
  destruct (split_dash (list_ascii_of_string s)) as [ys [r|]]; [|discriminate].
  destruct (split_dash r) as [ms [ds|]]; [|discriminate].
  destruct (length ys =? 4)%nat eqn:El; [|discriminate].
  destruct (digits_value 0 ys) as [y|] eqn:Ey; [|discriminate].
  destruct (short_field false ms) as [m|]; [|discriminate].
  destruct (short_field true ds) as [dd|]; [|discriminate].
  destruct ((1 <=? y) && (1 <=? m) && (m <=? 12) && (1 <=? dd)
            && (dd <=? days_in_month y m)) eqn:E; [|discriminate].
  intros H. inversion H; subst d. unfold valid_date. simpl.
  rewrite !andb_true_iff, !Z.leb_le in E.
  apply digits_value_bound in Ey; [|lia].
  apply Nat.eqb_eq in El. rewrite El in Ey. simpl in Ey. lia.
Qed.

(** A date that the builder has written is read back as the date it
    stands for. *)
Lemma written_date_read (s : string) (d : datetime) (written : string) :
  strptime s = Some d -> strftime d = Ok written -> strptime written = Some d.
Proof.
  intros Hs Hw. unfold strftime in Hw.
  destruct (year d <? 1900); [discriminate|]. inversion Hw; subst written.
  apply strptime_format_ymd. eapply strptime_valid; eauto.
Qed.

(** X14.  The series that [__get_benchmark_returns] builds can be handed
    to the loops: for non-empty benchmark values and well-formed return and
    transaction dates (from the year 1900 on, the years that [strftime]
    formats), every date that the builder writes is read back by
    [strptime] as the date it stands for, every transaction date has an
    entry in the series, and [calculate_kaplan_schoar_PME] on that series
    returns one entry per entry. *)
Theorem built_series_feeds_loops (so : SetOrder) (enum : TransactionTypeEnum)
  (benchmark_values : list BenchmarkValue)
  (investment_returns : list BalanceItem)
  (investment_transactions : list Transaction) (calculate_tvpi : bool) :
  benchmark_values <> [] ->
  wf_transactions investment_transactions ->
  Forall (fun s => exists d, strptime s = Some d /\ 1900 <= year d)
         (map bi_date investment_returns ++ map txn_date investment_transactions) ->
  exists out ks,
    PmeUtils.__get_benchmark_returns benchmark_values investment_returns
      investment_transactions = Ok out
    /\ Forall (fun br => strptime (br_date br) <> None) out
    /\ (forall t d, In t investment_transactions ->
          strptime (txn_date t) = Some d ->
          exists br, In br out /\ strptime (br_date br) = Some d)
    /\ PmeUtils.calculate_kaplan_schoar_PME out investment_transactions
         calculate_tvpi = Ok ks
    /\ length ks = length out.
Proof.
  intros Hne Hwf Hdates.
  destruct (@builder_entries so benchmark_values investment_returns
              investment_transactions Hne Hdates)
    as (ivs & out & Hout & Hmem & _ & _ & Hlen & Hrec).
  assert (Hread : forall v, In v ivs ->
            exists br, In br out /\ strptime (br_date br) = Some (bv_date v)).
  { intros v Hv. destruct (In_nth_error _ _ Hv) as (i & Hi).
    destruct (Hrec i v Hi) as (r & Hr & Hd & _).
    exists r. split; [eapply nth_error_In; eauto|].
    assert (Hin : In (bv_date v) (map bv_date ivs)) by now apply in_map.
    apply Hmem in Hin as (s & _ & Hs). exact (@written_date_read s _ _ Hs Hd). }
  assert (Hwf_out : Forall (fun br => strptime (br_date br) <> None) out).
  { apply Forall_forall. intros br Hbr.
    destruct (In_nth_error _ _ Hbr) as (i & Hi).
    assert (Hlt : (i < length ivs)%nat)
      by (rewrite <- Hlen; apply nth_error_Some; congruence).
    destruct (nth_error ivs i) as [v|] eqn:Ev;
      [|apply nth_error_None in Ev; lia].
    destruct (Hrec i v Ev) as (r & Hr & Hd & _).
    rewrite Hr in Hi. inversion Hi; subst r.
    assert (Hin : In (bv_date v) (map bv_date ivs))
      by (apply in_map; eapply nth_error_In; eauto).
    apply Hmem in Hin as (s & _ & Hs).
    rewrite (@written_date_read s _ _ Hs Hd). discriminate. }
  destruct (aggregated_by_date_Ok Distribution Hwf) as (distribs & Hd).
  destruct (aggregated_by_date_Ok Contribution Hwf) as (contribs & Hc).
  destruct (ks_fold distribs contribs calculate_tvpi Hwf_out)
    as (s & totals & Hs & _ & Hlo & _).
  exists out, (PmeUtils.ks_benchmark_returns s).
  split; [exact Hout|]. split; [exact Hwf_out|]. split; [|split; [|exact Hlo]].
  - intros t d Ht Hparse.
    assert (Hin : In d (map bv_date ivs)).
    { apply Hmem. exists (txn_date t). split; [|exact Hparse].
      apply in_or_app. right. now apply in_map. }
    apply in_map_iff in Hin as (v & <- & Hv). now apply Hread.
  - unfold PmeUtils.calculate_kaplan_schoar_PME. rewrite Hd, Hc. cbn [bind].
    rewrite Hs. reflexivity.
Qed.

Lemma built_series_feeds_loops_witness :
  scenario_benchmark_values <> []
  /\ wf_transactions scenario_transactions
  /\ Forall (fun s => exists d, strptime s = Some d /\ 1900 <= year d)
       (map bi_date scenario_investment_returns
        ++ map txn_date scenario_transactions)
  /\ exists out ks,
       @PmeUtils.__get_benchmark_returns insertion_order
         scenario_benchmark_values scenario_investment_returns
         scenario_transactions = Ok out
       /\ Forall (fun br => strptime (br_date br) <> None) out
       /\ (forall t d, In t scenario_transactions ->
             strptime (txn_date t) = Some d ->
             exists br, In br out /\ strptime (br_date br) = Some d)
       /\ @PmeUtils.calculate_kaplan_schoar_PME insertion_order enum_1_2
            out scenario_transactions true = Ok ks
       /\ length ks = length out.
Proof.
  assert (H1 : scenario_benchmark_values <> []) by discriminate.
  assert (H2 : wf_transactions scenario_transactions)
    by (repeat constructor; vm_compute; discriminate).
  assert (H3 : Forall (fun s => exists d, strptime s = Some d /\ 1900 <= year d)
                 (map bi_date scenario_investment_returns
                  ++ map txn_date scenario_transactions)).
  { repeat constructor; eexists; (split; [vm_compute; reflexivity|]);
      simpl; lia. }
  split; [exact H1|]. split; [exact H2|]. split; [exact H3|].
  exact (built_series_feeds_loops insertion_order enum_1_2
           scenario_investment_returns true H1 H2 H3).
Defined.

(* ================================================================== *)
(** * Further properties of the XIRR time series *)
(* ================================================================== *)

Lemma mapM_seq_items {A B : Type} (h : A -> B) (l : list A) :
  forall (f : nat -> result B) (k : nat),
    (forall i x, nth_error l i = Some x -> f (k + i)%nat = Ok (h x)) ->
    mapM f (seq k (length l)) = Ok (map h l).
Proof.
  induction l as [|x l IH]; intros f k Hf; simpl; [reflexivity|].
  rewrite <- (Nat.add_0_r k) at 1. rewrite (Hf 0%nat x eq_refl). simpl.
  rewrite (IH f (S k)); [reflexivity|].
  intros i y Hi. replace (S k + i)%nat with (k + S i)%nat by lia. now apply Hf.
Qed.

Lemma total_value_pos (l : list Transaction) :
  l <> [] -> Forall (fun t => (0 < or_zero (txn_value t))%Q) l ->
  (0 < total_value l)%Q.
Proof.
  unfold total_value. intros Hne Hall. destruct l as [|t l]; [congruence|].
  clear Hne. inversion Hall as [|? ? Ht Hl]; subst. simpl.
  assert (H0 : (0 <= Qsum (map (fun t => or_zero (txn_value t)) l))%Q).
  { clear -Hl. induction Hl as [|u l Hu Hl IH]; simpl; [apply Qle_refl|].
    apply Qlt_le_weak in Hu.
    replace 0%Q with (0 + 0)%Q by reflexivity. now apply Qplus_le_compat. }
  replace 0%Q with (0 + 0)%Q by reflexivity. now apply Qplus_lt_le_compat.
Qed.

Section SeriesFacts.
Context {so : SetOrder} {num : Numerics}.
Import XirrsUtils.

Lemma calculate_xirr_all_negative (l : list CashFlow) :
  l <> [] -> Forall (fun x => (cf_value x < 0)%Q) l ->
  calculate_xirr l = Ok (Some (-1)%Q).
Proof.
  intros Hne Hall. unfold calculate_xirr.
  assert (Hex : Exists (fun x => (cf_value x < 0)%Q) l).
  { destruct l as [|x l]; [congruence|]. inversion Hall; subst. now left. }
  apply sorted_Exists, not_all_nonneg in Hex. rewrite Hex.
  assert (Hle : Forall (fun x => (cf_value x <= 0)%Q) l)
    by (eapply Forall_impl; [|exact Hall]; intros x; apply Qlt_le_weak).
  apply sorted_Forall, forallb_nonpos in Hle. now rewrite Hle.
Qed.

Lemma aggregated_positive (T : list Transaction) (aggregated : list CashFlow) :
  Forall (fun t => (0 < or_zero (txn_value t))%Q) T ->
  Permutation aggregated
    (map (fun d => mkCashFlow d (group_value T d))
         (nodup string_dec (map txn_date T))) ->
  Forall (fun c => (0 < cf_value c)%Q) aggregated.
Proof.
  intros Hpos Hperm. eapply Permutation_Forall; [symmetry; exact Hperm|].
  apply Forall_map, Forall_forall. intros d Hd. simpl.
  apply nodup_In, in_map_iff in Hd as (t & Ht & Hin).
  rewrite group_value_total. apply total_value_pos.
  - intro E. assert (Hf : In t (filter (fun u => String.eqb (txn_date u) d) T)).
    { apply filter_In. split; [exact Hin|]. rewrite Ht. apply String.eqb_refl. }
    rewrite E in Hf. contradiction.
  - apply Forall_forall. intros u Hu. apply filter_In in Hu as [Hu _].
    rewrite Forall_forall in Hpos. now apply Hpos.
Qed.
End SeriesFacts.

(** X15.  For an investment without a returns series whose transactions
    all have a well-formed date and a positive value,
    [read_xirrs_timeseries] returns one entry per aggregated date, in the
    order of the aggregation, and the XIRR of every entry is -1: the flows
    are negated before the XIRR of each prefix is computed, so the
    root-finder is never run. *)
Theorem xirr_timeseries_positive_flows (so : SetOrder) (num : Numerics)
  (transactions : list Transaction) :
  Forall (fun t => strptime (txn_date t) <> None
                   /\ (0 < or_zero (txn_value t))%Q) transactions ->
  exists aggregated,
    TransactionUtils.aggregate_transactions_by_date transactions None
      = Ok aggregated
    /\ XirrsUtils.read_xirrs_timeseries [PyNone; PyTransactions transactions]
       = Ok (map (fun c => mkXirrItem (cf_date c) None (Some (-1)%Q))
                 aggregated).
Proof.
  intros Hall.
  assert (Hdates : Forall (fun t => strptime (txn_date t) <> None) transactions)
    by (eapply Forall_impl; [|exact Hall]; now intros t [H _]).
  assert (Hpos : Forall (fun t => (0 < or_zero (txn_value t))%Q) transactions)
    by (eapply Forall_impl; [|exact Hall]; now intros t [_ H]).
  assert (Hnone : @None Z <> Some 0) by discriminate.
  pose proof (@aggregate_unfold so transactions None Hnone) as Hun.
  rewrite filter_none in Hun.
  destruct (@aggregate_filtered_Ok so transactions Hdates)
    as (agg & Hagg & Hperm & _).
  rewrite Hagg in Hun.
  assert (Hok : TransactionUtils.aggregate_transactions_by_date transactions None
                = Ok agg) by (apply Hun; intros Hc; congruence).
  exists agg. split; [exact Hok|].
  cbn [XirrsUtils.read_xirrs_timeseries].
  unfold XirrsUtils.read_xirrs_timeseries_body. rewrite Hok. cbn [bind].
  pose proof (aggregated_positive Hpos Hperm) as Hap.
  set (neg := map XirrsUtils.negate_flow agg).
  assert (Hneg : Forall (fun x => (cf_value x < 0)%Q) neg).
  { apply Forall_map. eapply Forall_impl; [|exact Hap].
    intros c Hc. simpl.
    setoid_replace (cf_value c * -1)%Q with (- cf_value c)%Q by ring.
    setoid_replace 0%Q with (- 0)%Q by reflexivity.
    now apply Qopp_lt_compat. }
  destruct (0 <? length neg)%nat eqn:El.
  - rewrite (@mapM_seq_items _ _
               (fun c => mkXirrItem (cf_date c) None (Some (-1)%Q)) neg).
    + unfold neg. rewrite map_map. reflexivity.
    + intros i x Hi. simpl. apply getitem_Ok in Hi as Hg. rewrite Hg. cbn [bind].
      rewrite calculate_xirr_all_negative; [reflexivity| |].
      * intro E. apply (f_equal (@length _)) in E.
        rewrite length_firstn in E. simpl in E.
        assert (i < length neg)%nat by (apply nth_error_Some; congruence). lia.
      * apply Forall_forall. intros c Hc. rewrite Forall_forall in Hneg.
        apply Hneg. rewrite <- (firstn_skipn (i + 1) neg).
        apply in_or_app. now left.
  - apply Nat.ltb_ge in El. unfold neg in El. rewrite length_map in El.
    destruct agg; [reflexivity|simpl in El; lia].
Qed.

Lemma xirr_timeseries_positive_flows_witness :
  let transactions :=
    [mkTransaction "2021-03-01" (Some 5%Q) (Some 1);
     mkTransaction "2020-01-01" (Some 1000%Q) (Some 1);
     mkTransaction "2021-03-01" (Some 7%Q) None] in
  Forall (fun t => strptime (txn_date t) <> None
                   /\ (0 < or_zero (txn_value t))%Q) transactions
  /\ exists aggregated,
       @TransactionUtils.aggregate_transactions_by_date insertion_order
         transactions None = Ok aggregated
       /\ @XirrsUtils.read_xirrs_timeseries insertion_order failing_solver
            [PyNone; PyTransactions transactions]
          = Ok (map (fun c => mkXirrItem (cf_date c) None (Some (-1)%Q))
                    aggregated).
Proof.
  intros transactions.
  assert (H : Forall (fun t => strptime (txn_date t) <> None
                               /\ (0 < or_zero (txn_value t))%Q) transactions).
  { repeat constructor; try (vm_compute; discriminate); vm_compute; reflexivity. }
  split; [exact H|].
  exact (xirr_timeseries_positive_flows insertion_order failing_solver H).
Defined.

(* ================================================================== *)
(** * Inputs that the builder rejects *)
(* ================================================================== *)

(** X16.  [__get_benchmark_returns] raises the invalid-state exception on
    an empty list of benchmark values, whatever the returns and the
    transactions are; on a non-empty one it raises [ValueError] as soon as
    one date of a return or of a transaction is malformed, and no other
    exception: the fallback to the next later benchmark value always finds
    one. *)
Theorem benchmark_returns_rejected (so : SetOrder)
  (benchmark_values : list BenchmarkValue)
  (investment_returns : list BalanceItem)
  (investment_transactions : list Transaction) :
  (benchmark_values = [] ->
   PmeUtils.__get_benchmark_returns benchmark_values investment_returns
     investment_transactions = Raise InvalidState)
  /\ (benchmark_values <> [] ->
      Exists (fun s => strptime s = None)
             (map bi_date investment_returns
              ++ map txn_date investment_transactions) ->
      PmeUtils.__get_benchmark_returns benchmark_values investment_returns
        investment_transactions = Raise ValueError).
Proof.
  split.
  - intros ->. reflexivity.
  - intros Hne Hex. unfold PmeUtils.__get_benchmark_returns.
    destruct benchmark_values as [|b0 bvs0] eqn:Ebv; [congruence|].
    rewrite <- Ebv in *. replace (length benchmark_values =? 0)%nat with false
      by (rewrite Ebv; reflexivity).
    rewrite map_normalize_date.
    set (bvs := py_sorted bv_date benchmark_values).
    assert (Hsorted : StronglySorted (fun u v => le (bv_date u) (bv_date v)) bvs)
      by apply py_sorted_sorted.
    assert (Hbne : bvs <> []).
    { intro E. pose proof (py_sorted_perm bv_date benchmark_values) as Hperm.
      fold bvs in Hperm. rewrite E in Hperm.
      apply Permutation_nil in Hperm. congruence. }
    rewrite (@mapM_raises _ _ (PmeUtils.index_value_on bvs) ValueError);
      [reflexivity| |].
    + intros s _. destruct (strptime s) as [d|] eqn:Ed.
      * left. destruct (@index_value_on_Ok bvs s d Hsorted Hbne Ed)
          as (v & Hv & _). eauto.
      * right. unfold PmeUtils.index_value_on, strptimeM. now rewrite Ed.
    + apply Exists_exists in Hex as (s & Hs & Hbad). exists s. split.
      * unfold get_unique_values. simpl. rewrite app_nil_r.
        eapply Permutation_in; [symmetry; apply set_iter_perm|].
        now apply nodup_In.
      * unfold PmeUtils.index_value_on, strptimeM. now rewrite Hbad.
Qed.

Lemma benchmark_returns_rejected_witness :
  let transactions := [mkTransaction "2020-02-30" (Some 1%Q) (Some 1)] in
  @PmeUtils.__get_benchmark_returns insertion_order [] [] transactions
    = Raise InvalidState
  /\ @PmeUtils.__get_benchmark_returns insertion_order
       scenario_benchmark_values scenario_investment_returns transactions
     = Raise ValueError.
Proof.
  intros transactions. split.
  - exact (proj1 (benchmark_returns_rejected insertion_order [] [] transactions)
             eq_refl).
  - apply (proj2 (benchmark_returns_rejected insertion_order
                    scenario_benchmark_values scenario_investment_returns
                    transactions)).
    + discriminate.
    + apply Exists_exists. exists "2020-02-30"%string. split.
      * apply in_or_app. right. now left.
      * reflexivity.
Defined.

(* ================================================================== *)
(** * The unique values of several lists *)
(* ================================================================== *)

(** X17.  [get_unique_values] returns every value that occurs in one of
    the lists, each exactly once, and nothing else, in whatever order the
    set is iterated. *)
Theorem get_unique_values_spec (so : SetOrder) (list_of_lists : list (list string)) :
  NoDup (get_unique_values list_of_lists)
  /\ forall value, In value (get_unique_values list_of_lists)
                   <-> exists l, In l list_of_lists /\ In value l.
Proof.
  unfold get_unique_values. split.
  - eapply Permutation_NoDup; [symmetry; apply set_iter_perm|].
    apply NoDup_nodup.
  - intros value. rewrite <- in_concat.
    rewrite <- (nodup_In string_dec (concat list_of_lists) value).
    split; intro Hin.
    + eapply Permutation_in; [apply set_iter_perm|exact Hin].
    + eapply Permutation_in; [symmetry; apply set_iter_perm|exact Hin].
Qed.
